(** * Video Stealth Modifier: a shallow embedding of the settings boundary
      (App.tsx, constants.ts, types.ts), of the render/record hook
      (hooks/useVideoProcessor.ts), of the handlers of the controls
      (components/ModificationControls.tsx) and of the preview effect
      (components/VideoPlayer.tsx).

    Modelling conventions.
    - A JavaScript number is an exact rational [Q]: the arithmetic of the
      source ([+], [-], [*], [/], [%], [Math.min], [Math.max],
      [Math.floor], [Math.round]) is read over the rationals, without the
      rounding of binary64.  [Math.PI] is the rational that the binary64
      constant denotes.  A value parsed from JSON is never NaN; an unknown
      media duration (NaN) is [None].
    - A JavaScript string is a [string] of 8-bit characters; the white
      space of [trim] and of the regular-expression class [\s] is the
      ASCII white space.
    - A JavaScript object read by key is an association list of its own
      properties, in insertion order.
    - A thrown exception is the [Throws] completion carrying its message.
    - [JSON.parse], [Math.random], the media element, the canvas, the audio
      context and the recorder belong to the host: they are parameters, or
      inputs of the transition they feed, and every call made on them is
      recorded as an [Event]. *)

From Stdlib Require Import ZArith QArith Qround Qminmax Lqa Lia.
From Stdlib Require Import List Sorted String Ascii Bool DecimalString.
Import ListNotations.

Local Open Scope string_scope.
Local Open Scope Q_scope.

(* ===================================================================== *)
(** * Host values                                                         *)
(* ===================================================================== *)

(** The completion of a call that may throw; [Throws] keeps [e.message]. *)
Inductive Completion (A : Type) : Type :=
| Normal (a : A)
| Throws (message : string).
Arguments Normal {A} a.
Arguments Throws {A} message.

#[local] Unset Elimination Schemes.

(** A value produced by [JSON.parse]. *)
Inductive json : Type :=
| JNull
| JBool (b : bool)
| JNum (q : Q)
| JStr (s : string)
| JArr (items : list json)
| JObj (fields : list (string * json)).

#[local] Set Elimination Schemes.

(** Own properties of an object, in insertion order. *)
Definition JsObject : Type := list (string * json).

(** [typeof v], where [None] is [undefined]. *)
Definition typeof (v : option json) : string :=
  match v with
  | None => "undefined"
  | Some JNull => "object"
  | Some (JBool _) => "boolean"
  | Some (JNum _) => "number"
  | Some (JStr _) => "string"
  | Some (JArr _) => "object"
  | Some (JObj _) => "object"
  end.

(** [o[k]] on own properties. *)
Fixpoint getOwn (k : string) (o : JsObject) : option json :=
  match o with
  | [] => None
  | (k', v) :: rest => if String.eqb k' k then Some v else getOwn k rest
  end.

(** [o[k] = v]: overwrite in place, or append a new property. *)
Fixpoint setProp (k : string) (v : json) (o : JsObject) : JsObject :=
  match o with
  | [] => [(k, v)]
  | (k', v') :: rest =>
      if String.eqb k' k then (k', v) :: rest else (k', v') :: setProp k v rest
  end.

(** The canonical index keys ["0"], ["1"], ... of an array or string. *)
Definition index_key (i : nat) : string :=
  NilEmpty.string_of_uint (Nat.to_uint i).

Fixpoint indexed {A : Type} (f : A -> json) (i : nat) (l : list A)
  : list (string * json) :=
  match l with
  | [] => []
  | x :: rest => (index_key i, f x) :: indexed f (S i) rest
  end.

(** The own enumerable properties that a spread [{...v}] copies. *)
Definition enumerableProps (v : json) : JsObject :=
  match v with
  | JObj fields => fields
  | JArr items => indexed (fun x => x) 0 items
  | JStr s => indexed (fun c => JStr (String c EmptyString)) 0
                (list_ascii_of_string s)
  | JNull | JBool _ | JNum _ => []
  end.

(** All own properties: arrays and strings also own ["length"]. *)
Definition ownProps (v : json) : JsObject :=
  match v with
  | JArr items =>
      (enumerableProps v
         ++ [("length", JNum (inject_Z (Z.of_nat (List.length items))))])%list
  | JStr s =>
      (enumerableProps v
         ++ [("length", JNum (inject_Z (Z.of_nat (String.length s))))])%list
  | _ => enumerableProps v
  end.

(** [{...target, ...source}]. *)
Definition spread (target : JsObject) (source : json) : JsObject :=
  fold_left (fun o kv => setProp (fst kv) (snd kv) o)
            (enumerableProps source) target.

(** [suggested.hasOwnProperty(key)] on a parsed JSON value.  No JSON value
    is callable, so an own property named hasOwnProperty shadows the
    inherited method with a non-function; [null] has no properties. *)
Definition call_hasOwnProperty (suggested : json) (key : string)
  : Completion bool :=
  match suggested with
  | JNull => Throws "Cannot read properties of null (reading 'hasOwnProperty')"
  | JObj fields =>
      match getOwn "hasOwnProperty" fields with
      | Some _ => Throws "suggested.hasOwnProperty is not a function"
      | None =>
          Normal (match getOwn key fields with Some _ => true | None => false end)
      end
  | _ =>
      Normal (match getOwn key (ownProps suggested) with
              | Some _ => true
              | None => false
              end)
  end.

(** [suggested[key]], reached only after [hasOwnProperty] answered. *)
Definition getProp (suggested : json) (key : string) : option json :=
  getOwn key (ownProps suggested).

(* ===================================================================== *)
(** * Strings                                                             *)
(* ===================================================================== *)

Definition is_space (c : ascii) : bool :=
  let n := nat_of_ascii c in
  ((9 <=? n) && (n <=? 13))%nat || (n =? 32)%nat.

Fixpoint trimStart (s : string) : string :=
  match s with
  | EmptyString => EmptyString
  | String c rest => if is_space c then trimStart rest else s
  end.

Definition string_rev (s : string) : string :=
  string_of_list_ascii (rev (list_ascii_of_string s)).

Definition trimEnd (s : string) : string :=
  string_rev (trimStart (string_rev s)).

(** [s.trim()]. *)
Definition trim (s : string) : string := trimEnd (trimStart s).

Definition suffix (p s : string) : bool :=
  prefix (string_rev p) (string_rev s).

Definition is_empty (s : string) : bool :=
  match s with EmptyString => true | _ => false end.

(** [a || b] on strings: the empty string is falsy. *)
Definition or_else (a : option string) (b : string) : string :=
  match a with
  | Some s => if is_empty s then b else s
  | None => b
  end.

(** [s.split(sep)] for a one-character separator. *)
Fixpoint split (sep : ascii) (s : string) : list string :=
  match s with
  | EmptyString => [EmptyString]
  | String c rest =>
      if Ascii.eqb c sep then EmptyString :: split sep rest
      else match split sep rest with
           | h :: t => String c h :: t
           | [] => [String c EmptyString]
           end
  end.

Definition fence : string := "```".

(** Capture group 1 of [/^```(?:json)?\s*\n?(.*?)\n?\s*```$/s] on [s], or
    [None] when the expression does not match.  The expression matches
    exactly the strings of six characters or more that begin and end with
    the fence; its greedy optional [json] and [\s*] take all they can, and
    the lazy group stops at the last character before the closing run of
    white space. *)
Definition match_fence (s : string) : option string :=
  if prefix fence s && suffix fence s && (6 <=? String.length s)%nat then
    let inner := substring 3 (String.length s - 6) s in
    let inner := if prefix "json" inner
                 then substring 4 (String.length inner - 4) inner
                 else inner in
    Some (trimEnd (trimStart inner))
  else None.

(* ===================================================================== *)
(** * constants.ts and types.ts                                           *)
(* ===================================================================== *)

(** [interface VideoSettings]. *)
Record VideoSettings : Type := mkVideoSettings {
  brightness : Q;
  contrast : Q;
  saturation : Q;
  playbackSpeed : Q;
  volume : Q;
  flipHorizontal : bool;
  enableRotatingLines : bool;
  enablePixelNoise : bool;
  audioPreservesPitch : bool
}.

(** [DEFAULT_VIDEO_SETTINGS], as the object whose keys App.tsx walks. *)
Definition DEFAULT_VIDEO_SETTINGS : JsObject :=
  [ ("brightness", JNum 100);
    ("contrast", JNum 100);
    ("saturation", JNum 100);
    ("playbackSpeed", JNum 1.0);
    ("volume", JNum 100);
    ("flipHorizontal", JBool false);
    ("enableRotatingLines", JBool false);
    ("enablePixelNoise", JBool false);
    ("audioPreservesPitch", JBool true) ].

(** The same defaults under their static type. *)
Definition DEFAULT_SETTINGS_VALUE : VideoSettings :=
  mkVideoSettings 100 100 100 1.0 100 false false false true.

Definition as_number (v : option json) : option Q :=
  match v with Some (JNum q) => Some q | _ => None end.

Definition as_boolean (v : option json) : option bool :=
  match v with Some (JBool b) => Some b | _ => None end.

(** Reading an object at the static type [VideoSettings]: defined when
    every field holds a value of its declared type. *)
Definition toVideoSettings (o : JsObject) : option VideoSettings :=
  match as_number (getOwn "brightness" o), as_number (getOwn "contrast" o),
        as_number (getOwn "saturation" o), as_number (getOwn "playbackSpeed" o),
        as_number (getOwn "volume" o), as_boolean (getOwn "flipHorizontal" o),
        as_boolean (getOwn "enableRotatingLines" o),
        as_boolean (getOwn "enablePixelNoise" o),
        as_boolean (getOwn "audioPreservesPitch" o) with
  | Some b, Some c, Some s, Some p, Some v, Some f, Some r, Some n, Some a =>
      Some (mkVideoSettings b c s p v f r n a)
  | _, _, _, _, _, _, _, _, _ => None
  end.

(* ===================================================================== *)
(** * App.tsx: the settings boundary                                      *)
(* ===================================================================== *)

(** [ranges] of [handleSuggestSettings]: (min, max) per numeric key. *)
Definition ranges : list (string * (Q * Q)) :=
  [ ("brightness", (0, 200));
    ("contrast", (0, 200));
    ("saturation", (0, 200));
    ("playbackSpeed", (0.5, 2.0));
    ("volume", (0, 100)) ].

Fixpoint lookup_range (k : string) (r : list (string * (Q * Q)))
  : option (Q * Q) :=
  match r with
  | [] => None
  | (k', mm) :: rest => if String.eqb k' k then Some mm else lookup_range k rest
  end.

(** [Math.max(range.min, Math.min(range.max, v))]. *)
Definition clamp (range : Q * Q) (v : Q) : Q :=
  Qmax (fst range) (Qmin (snd range) v).

(** One turn of the [forEach] over [Object.keys(DEFAULT_VIDEO_SETTINGS)]:
    the accumulator is ([newSettings], [allFieldsValid]). *)
Definition ingest_key (suggested : json) (acc : JsObject * bool) (key : string)
  : Completion (JsObject * bool) :=
  let '(newSettings, allFieldsValid) := acc in
  match call_hasOwnProperty suggested key with
  | Throws m => Throws m
  | Normal true =>
      let suggestedValue := getProp suggested key in
      if String.eqb (typeof suggestedValue)
                    (typeof (getOwn key DEFAULT_VIDEO_SETTINGS)) then
        match suggestedValue with
        | Some (JNum q) =>
            match lookup_range key ranges with
            | Some range => Normal (setProp key (JNum (clamp range q)) newSettings,
                                    allFieldsValid)
            | None => Normal (setProp key (JNum q) newSettings, allFieldsValid)
            end
        | Some v => Normal (setProp key v newSettings, allFieldsValid)
        | None => Normal (newSettings, allFieldsValid)
        end
      else Normal (newSettings, false)
  | Normal false => Normal (newSettings, false)
  end.

Fixpoint forEach_keys (suggested : json) (keys : list string)
         (acc : JsObject * bool) : Completion (JsObject * bool) :=
  match keys with
  | [] => Normal acc
  | key :: rest =>
      match ingest_key suggested acc key with
      | Normal acc' => forEach_keys suggested rest acc'
      | Throws m => Throws m
      end
  end.

(** [Object.keys(o)]. *)
Definition keys (o : JsObject) : list string := map fst o.

(** The validation block of [handleSuggestSettings], from the copy of the
    defaults to the end of the [forEach]. *)
Definition ingest (suggested : json) : Completion (JsObject * bool) :=
  forEach_keys suggested (keys DEFAULT_VIDEO_SETTINGS)
               (DEFAULT_VIDEO_SETTINGS, true).

(** The state of the [App] component that the settings boundary touches. *)
Record AppState : Type := mkAppState {
  videoFile : option string;      (* [videoFile?.name] *)
  currentSettings : JsObject;
  geminiPrompt : string;
  isSuggestingSettings : bool;
  geminiError : option string
}.

Definition setCurrentSettings (v : JsObject) (a : AppState) : AppState :=
  mkAppState (videoFile a) v (geminiPrompt a) (isSuggestingSettings a)
             (geminiError a).

Definition setIsSuggestingSettings (v : bool) (a : AppState) : AppState :=
  mkAppState (videoFile a) (currentSettings a) (geminiPrompt a) v
             (geminiError a).

Definition setGeminiError (v : option string) (a : AppState) : AppState :=
  mkAppState (videoFile a) (currentSettings a) (geminiPrompt a)
             (isSuggestingSettings a) v.

(** What [ai.models.generateContent] settles to: a rejection, or a response
    whose [text] may be [undefined]. *)
Inductive ApiResult : Type :=
| ApiRejects (message : string)
| ApiText (text : option string).

Definition partially_applied : string :=
  "AI suggestion was partially applied. Some fields were missing or invalid and set to defaults.".

Definition suggestion_failed (message : string) : string :=
  "Failed to get AI suggestions: " ++ or_else (Some message) "Unknown error"
  ++ ". Please try again or adjust settings manually.".

(** [`modified_${videoFile?.name.split('.')[0] || 'video'}.webm`]. *)
Definition downloadName (file : option string) : string :=
  "modified_"
  ++ or_else (option_map (fun name => hd EmptyString (split "." name)) file)
             "video"
  ++ ".webm".

Section SettingsBoundary.

(** [JSON.parse] of the host. *)
Variable JSON_parse : string -> Completion json.

(** The initializer of [currentSettings]: [getItem] may throw, return
    [null] or return the stored text; an empty text is falsy. *)
Definition initialSettings (getItem : Completion (option string))
  : JsObject :=
  match getItem with
  | Normal (Some savedSettings) =>
      if is_empty savedSettings then DEFAULT_VIDEO_SETTINGS
      else match JSON_parse savedSettings with
           | Normal parsed => spread DEFAULT_VIDEO_SETTINGS parsed
           | Throws _ => DEFAULT_VIDEO_SETTINGS
           end
  | Normal None => DEFAULT_VIDEO_SETTINGS
  | Throws _ => DEFAULT_VIDEO_SETTINGS
  end.

(** [handleSuggestSettings] up to the [await]: the two guards, then the
    request is sent ([true]). *)
Definition handleSuggestSettings_request (ai : bool) (a : AppState)
  : AppState * bool :=
  if negb ai then
    (setGeminiError
       (Some "AI features are not available. API key might be missing or invalid.")
       a, false)
  else if is_empty (trim (geminiPrompt a)) then
    (setGeminiError (Some "Please enter a description for AI suggestions.") a,
     false)
  else (setGeminiError None (setIsSuggestingSettings true a), true).

(** The text handed to [JSON.parse]: trimmed, and unwrapped from a code
    fence when the fence encloses something. *)
Definition fenced_json (text : string) : string :=
  let jsonStr := trim text in
  match match_fence jsonStr with
  | Some group => if is_empty group then jsonStr else trim group
  | None => jsonStr
  end.

(** The body of the [try] after the [await]. *)
Definition suggestion_try (r : ApiResult) : Completion (JsObject * bool) :=
  match r with
  | ApiRejects m => Throws m
  | ApiText None => Throws "Cannot read properties of undefined (reading 'trim')"
  | ApiText (Some text) =>
      match JSON_parse (fenced_json text) with
      | Normal suggested => ingest suggested
      | Throws m => Throws m
      end
  end.

(** [handleSuggestSettings] from the [await] on: [try], [catch],
    [finally]. *)
Definition handleSuggestSettings_response (r : ApiResult) (a : AppState)
  : AppState :=
  let a' :=
    match suggestion_try r with
    | Normal (newSettings, allFieldsValid) =>
        let a1 := setCurrentSettings newSettings a in
        if allFieldsValid then a1
        else setGeminiError (Some partially_applied) a1
    | Throws m => setGeminiError (Some (suggestion_failed m)) a
    end in
  setIsSuggestingSettings false a'.

End SettingsBoundary.

(* ===================================================================== *)
(** * hooks/useVideoProcessor.ts: state and host calls                    *)
(* ===================================================================== *)

(** [const FPS] and [const ROTATION_DURATION_SECONDS]. *)
Definition FPS : Q := 30.
Definition ROTATION_DURATION_SECONDS : Q := 30.

(** [Math.PI]: the value of the binary64 constant, 884279719003555 / 2^48. *)
Definition Math_PI : Q := 884279719003555 # 281474976710656.

(** [Math.floor(x)] and [Math.round(x)] (halves round up). *)
Definition Math_floor (x : Q) : Z := Qfloor x.
Definition Math_round (x : Q) : Z := Qfloor (x + (1 # 2)).

(** Truncation toward zero, and [a % b]: the remainder takes the sign of
    the dividend. *)
Definition Qtrunc (x : Q) : Z := Z.quot (Qnum x) (Zpos (Qden x)).
Definition js_rem (a b : Q) : Q := a - b * inject_Z (Qtrunc (a / b)).

Inductive RecorderState : Type := Inactive | Recording | RecorderPaused.
Inductive AudioContextState : Type := Suspended | Running | Closed.
Inductive Track : Type := VideoTrack | AudioTrack.

(** The properties of the source [HTMLVideoElement] that the hook reads
    or writes; [duration] is [None] while it is NaN. *)
Record Video : Type := mkVideo {
  paused : bool;
  ended : bool;
  currentTime : Q;
  duration : option Q;
  playbackRate : Q;
  preservesPitch : bool;
  muted : bool
}.

Record Canvas : Type := mkCanvas { width : Z; height : Z }.

(** An encoded chunk: its size and the host's handle on its bytes. *)
Record Blob : Type := mkBlob { blob_size : Z; blob_data : nat }.

(** A coordinate of a path: a number, or half of
    [Math.hypot(width, height)] with its sign. *)
Inductive Coord : Type :=
| At (q : Q)
| HalfHypot (negative : bool) (w h : Z).

(** Calls on the 2D context. *)
Inductive DrawCmd : Type :=
| Save
| Restore
| Translate (x y : Q)
| Scale (x y : Q)
| Rotate (angle : Q)
| SetFilter (brightness_pct contrast_pct saturate_pct : Q)
| DrawImage (x y w h : Q)
| SetFillStyle (r g b : Z) (alpha : Q)
| FillRect (x y w h : Q)
| BeginPath
| MoveTo (x y : Coord)
| LineTo (x y : Coord)
| SetStrokeStyle (r g b : Z) (alpha : Q)
| SetLineWidth (w : Q)
| Stroke.

(** Calls on the host, in the order the hook makes them. *)
Inductive Event : Type :=
| CancelAnimationFrame (id : Z)
| RequestAnimationFrame (id : Z)
| CreateVideo
| CreateCanvas
| GetContext2d
| NewAudioContext
| VideoSetSrc
| VideoPause
| VideoRemoveSrc
| VideoLoad
| VideoPlay
| AudioContextClose
| AudioContextResume
| CreateMediaElementSource
| CreateGain (gain : Q)
| CreateMediaStreamDestination
| CaptureStream (fps : Q)
| IsTypeSupported (mimeType : string)
| NewMediaRecorder (tracks : list Track) (mimeType : string)
| RecorderStart
| RecorderStop
| NewBlob (chunks : list Blob) (type : string)
| ConsoleWarn (message : string)
| ConsoleError (message : string)
| Resolve (url : string)
| Reject (message : string)
| Draw (c : DrawCmd).

(** The [useState] cells and the [useRef] cells of the hook. *)
Record Hook : Type := mkHook {
  isProcessing : bool;
  processedVideoUrl : option string;
  processingError : option string;
  progress : Z;
  sourceVideoRef : option Video;
  canvasRef : option Canvas;
  mediaRecorderRef : option RecorderState;
  recordedChunksRef : list Blob;
  audioContextRef : option AudioContextState;
  animationFrameIdRef : Z;
  rotationAngle1Ref : Q;
  rotationAngle2Ref : Q
}.

(** The hook before its first call. *)
Definition initialHook : Hook :=
  mkHook false None None 0 None None None [] None 0 0 (Math_PI / 2).

Definition setIsProcessing (v : bool) (h : Hook) : Hook :=
  mkHook v (processedVideoUrl h) (processingError h) (progress h)
         (sourceVideoRef h) (canvasRef h) (mediaRecorderRef h)
         (recordedChunksRef h) (audioContextRef h) (animationFrameIdRef h)
         (rotationAngle1Ref h) (rotationAngle2Ref h).

Definition setProcessedVideoUrl (v : option string) (h : Hook) : Hook :=
  mkHook (isProcessing h) v (processingError h) (progress h)
         (sourceVideoRef h) (canvasRef h) (mediaRecorderRef h)
         (recordedChunksRef h) (audioContextRef h) (animationFrameIdRef h)
         (rotationAngle1Ref h) (rotationAngle2Ref h).

Definition setProcessingError (v : option string) (h : Hook) : Hook :=
  mkHook (isProcessing h) (processedVideoUrl h) v (progress h)
         (sourceVideoRef h) (canvasRef h) (mediaRecorderRef h)
         (recordedChunksRef h) (audioContextRef h) (animationFrameIdRef h)
         (rotationAngle1Ref h) (rotationAngle2Ref h).

Definition setProgress (v : Z) (h : Hook) : Hook :=
  mkHook (isProcessing h) (processedVideoUrl h) (processingError h) v
         (sourceVideoRef h) (canvasRef h) (mediaRecorderRef h)
         (recordedChunksRef h) (audioContextRef h) (animationFrameIdRef h)
         (rotationAngle1Ref h) (rotationAngle2Ref h).

Definition setSourceVideo (v : option Video) (h : Hook) : Hook :=
  mkHook (isProcessing h) (processedVideoUrl h) (processingError h) (progress h)
         v (canvasRef h) (mediaRecorderRef h)
         (recordedChunksRef h) (audioContextRef h) (animationFrameIdRef h)
         (rotationAngle1Ref h) (rotationAngle2Ref h).

Definition setCanvas (v : option Canvas) (h : Hook) : Hook :=
  mkHook (isProcessing h) (processedVideoUrl h) (processingError h) (progress h)
         (sourceVideoRef h) v (mediaRecorderRef h)
         (recordedChunksRef h) (audioContextRef h) (animationFrameIdRef h)
         (rotationAngle1Ref h) (rotationAngle2Ref h).

Definition setMediaRecorder (v : option RecorderState) (h : Hook) : Hook :=
  mkHook (isProcessing h) (processedVideoUrl h) (processingError h) (progress h)
         (sourceVideoRef h) (canvasRef h) v
         (recordedChunksRef h) (audioContextRef h) (animationFrameIdRef h)
         (rotationAngle1Ref h) (rotationAngle2Ref h).

Definition setRecordedChunks (v : list Blob) (h : Hook) : Hook :=
  mkHook (isProcessing h) (processedVideoUrl h) (processingError h) (progress h)
         (sourceVideoRef h) (canvasRef h) (mediaRecorderRef h)
         v (audioContextRef h) (animationFrameIdRef h)
         (rotationAngle1Ref h) (rotationAngle2Ref h).

Definition setAudioContext (v : option AudioContextState) (h : Hook) : Hook :=
  mkHook (isProcessing h) (processedVideoUrl h) (processingError h) (progress h)
         (sourceVideoRef h) (canvasRef h) (mediaRecorderRef h)
         (recordedChunksRef h) v (animationFrameIdRef h)
         (rotationAngle1Ref h) (rotationAngle2Ref h).

Definition setAnimationFrameId (v : Z) (h : Hook) : Hook :=
  mkHook (isProcessing h) (processedVideoUrl h) (processingError h) (progress h)
         (sourceVideoRef h) (canvasRef h) (mediaRecorderRef h)
         (recordedChunksRef h) (audioContextRef h) v
         (rotationAngle1Ref h) (rotationAngle2Ref h).

Definition setRotationAngle1 (v : Q) (h : Hook) : Hook :=
  mkHook (isProcessing h) (processedVideoUrl h) (processingError h) (progress h)
         (sourceVideoRef h) (canvasRef h) (mediaRecorderRef h)
         (recordedChunksRef h) (audioContextRef h) (animationFrameIdRef h)
         v (rotationAngle2Ref h).

Definition setRotationAngle2 (v : Q) (h : Hook) : Hook :=
  mkHook (isProcessing h) (processedVideoUrl h) (processingError h) (progress h)
         (sourceVideoRef h) (canvasRef h) (mediaRecorderRef h)
         (recordedChunksRef h) (audioContextRef h) (animationFrameIdRef h)
         (rotationAngle1Ref h) v.

(** ** A state-and-trace monad for the callbacks of the hook *)

Definition M (A : Type) : Type := Hook -> A * Hook * list Event.

Definition ret {A : Type} (a : A) : M A := fun h => (a, h, []).

Definition bind {A B : Type} (m : M A) (k : A -> M B) : M B :=
  fun h =>
    let '(a, h1, t1) := m h in
    let '(b, h2, t2) := k a h1 in
    (b, h2, (t1 ++ t2)%list).

Definition gets {A : Type} (f : Hook -> A) : M A := fun h => (f h, h, []).
Definition modify (f : Hook -> Hook) : M unit := fun h => (tt, f h, []).
Definition emit (e : Event) : M unit := fun h => (tt, h, [e]).
Definition emits (es : list Event) : M unit := fun h => (tt, h, es).
Definition when (b : bool) (m : M unit) : M unit := if b then m else ret tt.

Declare Scope hook_scope.
Delimit Scope hook_scope with hook.
Notation "x <- m ;; k" := (bind m (fun x => k))
  (at level 61, m at next level, right associativity) : hook_scope.
Notation "m ;; k" := (bind m (fun _ => k))
  (at level 61, right associativity) : hook_scope.
Local Open Scope hook_scope.

Definition state_of {A : Type} (r : A * Hook * list Event) : Hook := snd (fst r).
Definition trace_of {A : Type} (r : A * Hook * list Event) : list Event := snd r.
Definition value_of {A : Type} (r : A * Hook * list Event) : A := fst (fst r).

Definition is_some {A : Type} (o : option A) : bool :=
  match o with Some _ => true | None => false end.

Definition is_recording (r : option RecorderState) : bool :=
  match r with Some Recording => true | _ => false end.

(** ** [cleanup] *)

Definition cleanup : M unit :=
  id <- gets animationFrameIdRef ;;
  when (negb (id =? 0)%Z)
       (emit (CancelAnimationFrame id) ;; modify (setAnimationFrameId 0)) ;;
  recorder <- gets mediaRecorderRef ;;
  when (is_recording recorder) (emit RecorderStop) ;;
  modify (setMediaRecorder None) ;;
  modify (setRecordedChunks []) ;;
  video <- gets sourceVideoRef ;;
  when (is_some video)
       (emit VideoPause ;; emit VideoRemoveSrc ;; emit VideoLoad ;;
        modify (setSourceVideo None)) ;;
  canvas <- gets canvasRef ;;
  when (is_some canvas) (modify (setCanvas None)) ;;
  audio <- gets audioContextRef ;;
  match audio with
  | Some Closed | None => ret tt
  | Some _ => emit AudioContextClose ;; modify (setAudioContext None)
  end.

(** ** What the host answers during one call of [processVideo] *)

(** The three node constructions inside the [try] of the audio block: the
    first that throws, or the graph with the track that
    [getAudioTracks()[0]] yields, if any. *)
Inductive AudioGraph : Type :=
| SourceNodeThrows (message : string)
| GainNodeThrows (message : string)
| DestinationThrows (message : string)
| GraphBuilt (hasTrack : bool).

Record HostEnv : Type := mkHostEnv {
  getContext : bool;                          (* [canvas.getContext] is not null *)
  newAudioContext : option AudioContextState; (* [None]: the constructor throws *)
  videoWidth : Z;
  videoHeight : Z;
  hasAudioTracks : bool;
  hasMozAudio : bool;
  hasWebkitAudio : bool;
  audioGraph : AudioGraph;
  isTypeSupported : string -> bool;
  newMediaRecorder : option string            (* [Some m]: the constructor throws [m] *)
}.

Definition mimeType : string := "video/webm;codecs=vp8,opus".

Definition unsupported_message : string :=
  "MIME type " ++ mimeType
  ++ " not supported for MediaRecorder. Your browser may not support WEBM (VP8/Opus) recording.".

(** A [video] element fresh from [document.createElement]. *)
Definition freshVideo : Video := mkVideo true false 0 None 1 true false.

(** A [canvas] element fresh from [document.createElement]. *)
Definition freshCanvas : Canvas := mkCanvas 300 150.

Definition stop_if_recording : M unit :=
  recorder <- gets mediaRecorderRef ;;
  when (is_recording recorder)
       (emit RecorderStop ;; modify (setMediaRecorder (Some Inactive))).

Definition cancel_frame : M unit :=
  id <- gets animationFrameIdRef ;;
  when (negb (id =? 0)%Z) (emit (CancelAnimationFrame id)) ;;
  modify (setAnimationFrameId 0).

(** The shared tail of every fatal path: error state, teardown, reject. *)
Definition fail (err : string) (rejected : string) : M unit :=
  modify (setProcessingError (Some err)) ;;
  modify (setIsProcessing false) ;;
  cleanup ;;
  emit (Reject rejected).

(** ** [processVideo], up to [video.src = ...] *)

Definition processVideo_start (env : HostEnv) : M bool :=
  modify (setIsProcessing true) ;;
  modify (setProcessedVideoUrl None) ;;
  modify (setProcessingError None) ;;
  modify (setProgress 0) ;;
  cleanup ;;
  modify (setRotationAngle1 0) ;;
  modify (setRotationAngle2 (Math_PI / 2)) ;;
  emit CreateVideo ;;
  modify (setSourceVideo (Some freshVideo)) ;;
  emit CreateCanvas ;;
  modify (setCanvas (Some freshCanvas)) ;;
  emit GetContext2d ;;
  if negb (getContext env) then
    fail "Could not get canvas context." "Could not get canvas context." ;;
    ret false
  else
    emit NewAudioContext ;;
    match newAudioContext env with
    | None =>
        fail "AudioContext not supported." "AudioContext not supported." ;;
        ret false
    | Some s =>
        modify (setAudioContext (Some s)) ;;
        emit VideoSetSrc ;;
        ret true
    end.

(** ** [video.onloadedmetadata] *)

(** The audio block: probe, then the guarded construction of the graph.
    The result is [audioTrack], [None] standing for [undefined]. *)
Definition audio_block (env : HostEnv) (settings : VideoSettings)
  : M (option Track) :=
  if hasAudioTracks env || hasMozAudio env || hasWebkitAudio env then
    let warn m := emit (ConsoleWarn ("Could not process audio track: " ++ m)) in
    emit CreateMediaElementSource ;;
    match audioGraph env with
    | SourceNodeThrows m => warn m ;; ret None
    | g =>
        emit (CreateGain (volume settings / 100)) ;;
        match g with
        | GainNodeThrows m => warn m ;; ret None
        | g' =>
            emit CreateMediaStreamDestination ;;
            match g' with
            | DestinationThrows m => warn m ;; ret None
            | GraphBuilt true => ret (Some AudioTrack)
            | _ => ret None
            end
        end
    end
  else ret None.

Definition onloadedmetadata (env : HostEnv) (settings : VideoSettings)
  : M bool :=
  modify (fun h => setCanvas
            (option_map (fun _ => mkCanvas (videoWidth env) (videoHeight env))
                        (canvasRef h)) h) ;;
  modify (fun h => setSourceVideo
            (option_map (fun v => mkVideo (paused v) (ended v) (currentTime v)
                                          (duration v) (playbackSpeed settings)
                                          (audioPreservesPitch settings) true)
                        (sourceVideoRef h)) h) ;;
  audioTrack <- audio_block env settings ;;
  emit (CaptureStream FPS) ;;
  let tracks := (VideoTrack :: match audioTrack with
                               | Some t => [t]
                               | None => []
                               end)%list in
  emit (IsTypeSupported mimeType) ;;
  if negb (isTypeSupported env mimeType) then
    emit (ConsoleError unsupported_message) ;;
    fail unsupported_message unsupported_message ;;
    ret false
  else
    emit (NewMediaRecorder tracks mimeType) ;;
    match newMediaRecorder env with
    | Some m =>
        let err := "Failed to create MediaRecorder: " ++ m ++ "." in
        emit (ConsoleError err) ;;
        fail err err ;;
        ret false
    | None =>
        modify (setMediaRecorder (Some Inactive)) ;;
        modify (setRecordedChunks []) ;;
        emit RecorderStart ;;
        modify (setMediaRecorder (Some Recording)) ;;
        emit VideoPlay ;;
        ret true
    end.

(** [processVideo] with the metadata event delivered at once. *)
Definition processVideo (env : HostEnv) (settings : VideoSettings) : M bool :=
  waiting <- processVideo_start env ;;
  if waiting then onloadedmetadata env settings else ret false.

(** ** The recorder's and the element's handlers *)

(** [mediaRecorder.ondataavailable]. *)
Definition ondataavailable (data : Blob) : M unit :=
  when (0 <? blob_size data)%Z
       (modify (fun h => setRecordedChunks (recordedChunksRef h ++ [data])%list h)).

(** [mediaRecorder.onstop]; [url] is what [URL.createObjectURL] returns
    and [type] is [mediaRecorder.mimeType]. *)
Definition onstop (type url : string) : M unit :=
  chunks <- gets recordedChunksRef ;;
  emit (NewBlob chunks type) ;;
  modify (setProcessedVideoUrl (Some url)) ;;
  modify (setIsProcessing false) ;;
  modify (setProgress 100) ;;
  emit (Resolve url) ;;
  modify (setMediaRecorder None) ;;
  cancel_frame.

(** The [error] carried by the recorder's error event. *)
Inductive RecorderError : Type :=
| ErrorInstance (name message : string)
| ErrorNamed (name : string) (message : string)
| ErrorOther.

Definition recorder_onerror (e : RecorderError) : M unit :=
  let '(text, rejected) :=
    match e with
    | ErrorInstance n m => ("MediaRecorder error: " ++ n ++ " - " ++ m, m)
    | ErrorNamed n m =>
        let t := "MediaRecorder error: " ++ n
                 ++ (if is_empty m then "" else " - " ++ m) in
        (t, t)
    | ErrorOther =>
        ("MediaRecorder unspecified error", "MediaRecorder unspecified error")
    end in
  emit (ConsoleError text) ;;
  fail text rejected.

(** [video.onplay]; [id] is what [requestAnimationFrame] returns. *)
Definition onplay (id : Z) : M unit :=
  audio <- gets audioContextRef ;;
  when (match audio with Some Suspended => true | _ => false end)
       (emit AudioContextResume) ;;
  emit (RequestAnimationFrame id) ;;
  modify (setAnimationFrameId id).

(** [video.onended]. *)
Definition onended : M unit :=
  stop_if_recording ;;
  cancel_frame.

(** [video.onerror] as installed inside [onloadedmetadata]. *)
Definition video_onerror (message : option string) : M unit :=
  let err := "Error playing source video: "
             ++ or_else message "Unknown video playback error" in
  emit (ConsoleError err) ;;
  modify (setProcessingError (Some err)) ;;
  modify (setIsProcessing false) ;;
  stop_if_recording ;;
  cleanup ;;
  emit (Reject err).

(** [video.onerror] as installed before the metadata arrives. *)
Definition video_onerror_loading (message : option string) : M unit :=
  let err := "Error loading video: " ++ or_else message "Failed to load video file." in
  emit (ConsoleError err) ;;
  fail err err.

(** The rejection handler of [video.play()]. *)
Definition play_rejected (message : string) : M unit :=
  let errorMsg := "Could not start video playback: " ++ message in
  emit (ConsoleError errorMsg) ;;
  modify (setProcessingError (Some errorMsg)) ;;
  modify (setIsProcessing false) ;;
  stop_if_recording ;;
  cleanup ;;
  emit (Reject message).

(** ** [drawFrame] *)

(** What the host supplies to one call of [drawFrame]: the successive
    results of [Math.random()] and the id that [requestAnimationFrame]
    returns. *)
Record FrameEnv : Type := mkFrameEnv {
  random : nat -> Q;
  rafId : Z
}.

(** [rotationIncrementPerFrame]. *)
Definition rotationIncrementPerFrame : Q :=
  (2 * Math_PI) / (ROTATION_DURATION_SECONDS * FPS).

(** [numNoisePixels]. *)
Definition numNoisePixels (canvas : Canvas) : Z :=
  Math_floor (inject_Z (width canvas * height canvas) * 0.001).

(** One noise mark: [x], [y], [intensity], [alpha], from the four draws of
    turn [i] of the loop. *)
Record NoiseMark : Type := mkNoiseMark {
  mark_x : Q;
  mark_y : Q;
  mark_intensity : Z;
  mark_alpha : Q
}.

Definition noise_mark (rnd : nat -> Q) (canvas : Canvas) (i : nat) : NoiseMark :=
  let x := rnd (4 * i)%nat * inject_Z (width canvas) in
  let y := rnd (4 * i + 1)%nat * inject_Z (height canvas) in
  let intensity := if Qle_bool (rnd (4 * i + 2)%nat) 0.5 then 30%Z else 220%Z in
  let alpha := rnd (4 * i + 3)%nat * 0.05 + 0.02 in
  mkNoiseMark x y intensity alpha.

(** The two context calls of one turn of the loop. *)
Definition mark_cmds (m : NoiseMark) : list DrawCmd :=
  [ SetFillStyle (mark_intensity m) (mark_intensity m) (mark_intensity m)
                 (mark_alpha m);
    FillRect (mark_x m) (mark_y m) 1 1 ].

(** The marks of one frame, turn by turn. *)
Definition noise_marks (rnd : nat -> Q) (canvas : Canvas) : list NoiseMark :=
  map (noise_mark rnd canvas) (seq 0 (Z.to_nat (numNoisePixels canvas))).

Definition pixel_noise (rnd : nat -> Q) (canvas : Canvas) : list DrawCmd :=
  flat_map mark_cmds (noise_marks rnd canvas).

(** The four assignments that advance and wrap the two phase angles. *)
Definition advance_angle1 (a : Q) : Q :=
  js_rem (a + rotationIncrementPerFrame) (2 * Math_PI).

Definition advance_angle2 (a : Q) : Q :=
  js_rem (js_rem (a - rotationIncrementPerFrame) (2 * Math_PI) + 2 * Math_PI)
         (2 * Math_PI).

(** One line of the overlay, inside its own save/restore. *)
Definition line_cmds (canvas : Canvas) (angle : Q) (vertical : bool)
  : list DrawCmd :=
  let w := width canvas in
  let h := height canvas in
  [ Save;
    Translate (inject_Z w / 2) (inject_Z h / 2);
    Rotate angle;
    BeginPath;
    (if vertical then MoveTo (At 0) (HalfHypot true w h)
     else MoveTo (HalfHypot true w h) (At 0));
    (if vertical then LineTo (At 0) (HalfHypot false w h)
     else LineTo (HalfHypot false w h) (At 0));
    SetStrokeStyle 255 255 255 0.75;
    SetLineWidth 1.5;
    Stroke;
    Restore ].

Definition draws (cs : list DrawCmd) : M unit := emits (map Draw cs).

(** The progress that a frame reports for a position and a duration. *)
Definition frame_progress (position total : Q) : Z :=
  Z.min 100 (Math_round (position / total * 100)).

Definition drawFrame (settings : VideoSettings) (fe : FrameEnv) : M unit :=
  source <- gets sourceVideoRef ;;
  target <- gets canvasRef ;;
  match source, target with
  | Some video, Some canvas =>
      if paused video || ended video then
        stop_if_recording ;; cancel_frame
      else
        draws [Save] ;;
        when (flipHorizontal settings)
             (draws [Translate (inject_Z (width canvas)) 0; Scale (-1) 1]) ;;
        draws [SetFilter (brightness settings) (contrast settings)
                         (saturation settings);
               DrawImage 0 0 (inject_Z (width canvas)) (inject_Z (height canvas));
               Restore] ;;
        when (enablePixelNoise settings)
             (draws (pixel_noise (random fe) canvas)) ;;
        when (enableRotatingLines settings)
             (modify (fun h => setRotationAngle1
                                 (advance_angle1 (rotationAngle1Ref h)) h) ;;
              modify (fun h => setRotationAngle2
                                 (advance_angle2 (rotationAngle2Ref h)) h) ;;
              a1 <- gets rotationAngle1Ref ;;
              a2 <- gets rotationAngle2Ref ;;
              draws (line_cmds canvas a1 false) ;;
              draws (line_cmds canvas a2 true)) ;;
        match duration video with
        | Some total =>
            when (negb (Qle_bool total 0))
                 (modify (setProgress (frame_progress (currentTime video) total)))
        | None => ret tt
        end ;;
        emit (RequestAnimationFrame (rafId fe)) ;;
        modify (setAnimationFrameId (rafId fe))
  | _, _ => stop_if_recording ;; cancel_frame
  end.

(** The host moves the source element between two frames. *)
Definition host_video (v : Video) : M unit :=
  modify (fun h => setSourceVideo (option_map (fun _ => v) (sourceVideoRef h)) h).

(** One frame of a session: the element as the host shows it, then
    [drawFrame]. *)
Definition frame (settings : VideoSettings) (input : Video * FrameEnv) : M unit :=
  host_video (fst input) ;;
  drawFrame settings (snd input).

Fixpoint frames (settings : VideoSettings) (inputs : list (Video * FrameEnv))
  : M unit :=
  match inputs with
  | [] => ret tt
  | input :: rest => frame settings input ;; frames settings rest
  end.

(* ===================================================================== *)
(** * The application: settings boundary and processor side by side       *)
(* ===================================================================== *)

Record System : Type := mkSystem {
  app : AppState;
  processor : Hook
}.

(** [handleProcessVideo]: the file and the settings that a render started
    now would receive, if a file is selected. *)
Definition handleProcessVideo (s : System) : option (string * JsObject) :=
  match videoFile (app s) with
  | Some file => Some (file, currentSettings (app s))
  | None => None
  end.

(** [handleSuggestSettings] settling inside the application. *)
Definition suggestion_settles (parse : string -> Completion json)
           (r : ApiResult) (s : System) : System :=
  mkSystem (handleSuggestSettings_response parse r (app s)) (processor s).

(* ===================================================================== *)
(** * components/ModificationControls.tsx                                 *)
(* ===================================================================== *)

(** The [min] and [max] props of the five [SliderControl] elements.  A
    range input hands to [onChange] a value between the two; its steps are
    not modelled. *)
Definition sliders : list (string * (Q * Q)) :=
  [ ("brightness", (0, 200));
    ("contrast", (0, 200));
    ("saturation", (0, 200));
    ("playbackSpeed", (0.5, 2.0));
    ("volume", (0, 100)) ].

(** The ids of the four toggle buttons. *)
Definition toggles : list string :=
  [ "flipHorizontal"; "enableRotatingLines"; "enablePixelNoise";
    "audioPreservesPitch" ].

(** [!!v]: the truthiness of a value, [None] being [undefined]. *)
Definition truthy (v : option json) : bool :=
  match v with
  | None => false
  | Some JNull => false
  | Some (JBool b) => b
  | Some (JNum q) => negb (Qeq_bool q 0)
  | Some (JStr s) => negb (is_empty s)
  | Some (JArr _) => true
  | Some (JObj _) => true
  end.

(** [{ ...settings, [key]: value }]. *)
Definition with_field (settings : JsObject) (key : string) (value : json)
  : JsObject :=
  setProp key value (spread [] (JObj settings)).

(** [handleSliderChange] and [handleToggleChange]: the object handed to
    [onSettingsChange]. *)
Definition handleSliderChange (key : string) (value : Q) (settings : JsObject)
  : JsObject :=
  with_field settings key (JNum value).

Definition handleToggleChange (key : string) (value : bool)
           (settings : JsObject) : JsObject :=
  with_field settings key (JBool value).

(** The [onClick] of a toggle button:
    [handleToggleChange(key, !settings[key])]. *)
Definition toggle_click (key : string) (settings : JsObject) : JsObject :=
  handleToggleChange key (negb (truthy (getOwn key settings))) settings.

(** [handleReset]: the object handed to [onSettingsChange]. *)
Definition handleReset : JsObject := DEFAULT_VIDEO_SETTINGS.

(* ===================================================================== *)
(** * App.tsx: the other handlers, and what is disabled                   *)
(* ===================================================================== *)

(** [handleSettingsChange]. *)
Definition handleSettingsChange (newSettings : JsObject) (a : AppState)
  : AppState :=
  setCurrentSettings newSettings a.

(** The effect that saves the settings: [setItem] stores the text that
    [JSON.stringify] gives, unless it throws ([quota] is [false]). *)
Definition saveSettings (JSON_stringify : JsObject -> string) (quota : bool)
           (store : option string) (settings : JsObject) : option string :=
  if quota then Some (JSON_stringify settings) else store.

(** The changes of the application state that the controls and the
    assistant can make: a slider moved within its bounds, a toggle
    clicked, the reset button, a suggestion requested, and a suggestion
    that settles. *)
Inductive settings_step (parse : string -> Completion json) (a : AppState)
  : AppState -> Prop :=
| slider_moved (key : string) (lo hi value : Q) :
    lookup_range key sliders = Some (lo, hi) ->
    lo <= value <= hi ->
    settings_step parse a
      (handleSettingsChange
         (handleSliderChange key value (currentSettings a)) a)
| toggle_clicked (key : string) :
    In key toggles ->
    settings_step parse a
      (handleSettingsChange (toggle_click key (currentSettings a)) a)
| reset_clicked :
    settings_step parse a (handleSettingsChange handleReset a)
| suggestion_requested (ai : bool) :
    settings_step parse a (fst (handleSuggestSettings_request ai a))
| suggestion_settled (r : ApiResult) :
    settings_step parse a (handleSuggestSettings_response parse r a).

Inductive settings_steps (parse : string -> Completion json) (a : AppState)
  : AppState -> Prop :=
| steps_none : settings_steps parse a a
| steps_more (b c : AppState) :
    settings_steps parse a b -> settings_step parse b c ->
    settings_steps parse a c.

(** [controlsDisabled] of [App]. *)
Definition controlsDisabled (s : System) : bool :=
  negb (is_some (videoFile (app s))) || isProcessing (processor s)
  || isSuggestingSettings (app s).

(** [commonDisabledState] of [ModificationControls], which receives
    [controlsDisabled] as [disabled]. *)
Definition commonDisabledState (s : System) : bool :=
  controlsDisabled s || isSuggestingSettings (app s).

(** The [disabled] of the suggest button and of the process button. *)
Definition suggest_disabled (s : System) : bool :=
  commonDisabledState s || is_empty (trim (geminiPrompt (app s))).

Definition process_disabled (s : System) : bool :=
  controlsDisabled s || isProcessing (processor s).

(** The [disabled] of the uploader and of the upload-different button. *)
Definition upload_disabled (s : System) : bool :=
  isProcessing (processor s) || isSuggestingSettings (app s).

(** A click on the suggest button, up to the [await]. *)
Definition suggestion_starts (ai : bool) (s : System) : System :=
  mkSystem (fst (handleSuggestSettings_request ai (app s))) (processor s).

(** A click on the process button, with the metadata delivered at once. *)
Definition render_starts (env : HostEnv) (settings : VideoSettings)
           (s : System) : System :=
  mkSystem (app s) (state_of (processVideo env settings (processor s))).

(* ===================================================================== *)
(** * components/VideoPlayer.tsx                                          *)
(* ===================================================================== *)

(** [style.filter] and [style.transform] as the effect writes them. *)
Inductive CssFilter : Type :=
| FilterNone
| FilterChain (brightness_pct contrast_pct saturate_pct : Q).

Inductive CssTransform : Type :=
| TransformNone
| ScaleX (x : Q).

(** The properties of the preview element that the effect writes. *)
Record Preview : Type := mkPreview {
  style_filter : CssFilter;
  style_transform : CssTransform;
  preview_playbackRate : Q;
  preview_volume : Q
}.

(** The effect of [VideoPlayer]: [mounted] says that [videoRef.current]
    is set; an empty [src] is falsy. *)
Definition VideoPlayer_effect (mounted : bool) (src : option string)
           (settings : VideoSettings) (isOriginal : bool) (el : Preview)
  : Preview :=
  if mounted && match src with
                | Some url => negb (is_empty url)
                | None => false
                end then
    if isOriginal then mkPreview FilterNone TransformNone 1.0 1.0
    else mkPreview
           (FilterChain (brightness settings) (contrast settings)
                        (saturation settings))
           (if flipHorizontal settings then ScaleX (-1) else TransformNone)
           (playbackSpeed settings)
           (volume settings / 100)
  else el.

(* ===================================================================== *)
(** * hooks/useVideoProcessor.ts: the fatal handlers and the chunks       *)
(* ===================================================================== *)

(** The four handlers that end a session with an error. *)
Inductive Fatal : Type :=
| RecorderFails (e : RecorderError)
| PlaybackFails (message : option string)
| LoadingFails (message : option string)
| PlayRejected (message : string).

Definition fatal (f : Fatal) : M unit :=
  match f with
  | RecorderFails e => recorder_onerror e
  | PlaybackFails m => video_onerror m
  | LoadingFails m => video_onerror_loading m
  | PlayRejected m => play_rejected m
  end.

(** The recorder delivers a run of chunks. *)
Fixpoint deliver (chunks : list Blob) : M unit :=
  match chunks with
  | [] => ret tt
  | data :: rest => ondataavailable data ;; deliver rest
  end.

(* ===================================================================== *)
(** * The drawing state of the 2D context                                 *)
(* ===================================================================== *)







(* ===================================================================== *)
(** * Vocabulary of the statements                                        *)
(* ===================================================================== *)

(** Closed forms of the callbacks, the hosts and inputs of the examples,
    and the predicates that the theorems below are stated with. *)

(** What the loop assigns to [key], or [None] when it keeps the default. *)
Definition field_result (suggested : json) (key : string) : option json :=
  match getProp suggested key with
  | Some v =>
      if String.eqb (typeof (Some v)) (typeof (getOwn key DEFAULT_VIDEO_SETTINGS))
      then match v with
           | JNum q => match lookup_range key ranges with
                       | Some range => Some (JNum (clamp range q))
                       | None => Some v
                       end
           | _ => Some v
           end
      else None
  | None => None
  end.

(** The assignment [newSettings[key] = v], when the loop makes one. *)
Definition assign (key : string) (r : option json) (o : JsObject) : JsObject :=
  match r with Some v => setProp key v o | None => o end.

(** A stored object that carries an out-of-range number and a value of the
    wrong basic type, as [JSON.parse] hands it to the initializer. *)
Definition tampered_store : json :=
  JObj [("brightness", JNum 500); ("contrast", JStr "high")].

(** The base name that the claim describes: the name with its final
    extension removed. *)
Definition strip_final_extension (name : string) : string :=
  match rev (split "." name) with
  | _ :: (_ :: _) as front => String.concat "." (rev front)
  | _ => name
  end.

(** The file name that the claim describes. *)
Definition derived_filename (name : string) : string :=
  "modified_" ++ strip_final_extension name ++ ".webm".

(** The name contains a dot. *)
Fixpoint has_dot (s : string) : bool :=
  match s with
  | EmptyString => false
  | String c rest => Ascii.eqb c "." || has_dot rest
  end.

(** The suggestion of the scenario of the specification: brightness 500,
    contrast a string, a negative volume, the other fields valid. *)
Definition scenario : json :=
  JObj [ ("brightness", JNum 500); ("contrast", JStr "high");
         ("saturation", JNum 120); ("playbackSpeed", JNum 1.5);
         ("volume", JNum (-3)); ("flipHorizontal", JBool true);
         ("enableRotatingLines", JBool false);
         ("enablePixelNoise", JBool true);
         ("audioPreservesPitch", JBool false) ].

(** The settings that the boundary builds from [scenario]. *)
Definition scenario_settings : JsObject :=
  [ ("brightness", JNum 200); ("contrast", JNum 100);
    ("saturation", JNum 120); ("playbackSpeed", JNum 1.5);
    ("volume", JNum 0); ("flipHorizontal", JBool true);
    ("enableRotatingLines", JBool false);
    ("enablePixelNoise", JBool true);
    ("audioPreservesPitch", JBool false) ].

(** The application waiting for the answer to a suggestion request. *)
Definition scenario_app : AppState :=
  mkAppState (Some "clip.mp4") DEFAULT_VIDEO_SETTINGS "warmer" true None.

(** Every cell that can hold a resource of a session is empty; a context
    that was closed before teardown began may stay in its cell. *)
Definition released (before after : Hook) : Prop :=
  animationFrameIdRef after = 0%Z
  /\ mediaRecorderRef after = None
  /\ recordedChunksRef after = []
  /\ sourceVideoRef after = None
  /\ canvasRef after = None
  /\ (audioContextRef after = None
      \/ (audioContextRef before = Some Closed
          /\ audioContextRef after = Some Closed)).

(** The state that [cleanup] leaves and the calls that it makes, in
    closed form. *)
Definition cleaned (h : Hook) : Hook :=
  mkHook (isProcessing h) (processedVideoUrl h) (processingError h)
         (progress h) None None None []
         (match audioContextRef h with Some Closed => Some Closed | _ => None end)
         0 (rotationAngle1Ref h) (rotationAngle2Ref h).

(** The calls that [cleanup] makes in state [h]. *)
Definition teardown (h : Hook) : list Event :=
  ((if (animationFrameIdRef h =? 0)%Z then []
    else [CancelAnimationFrame (animationFrameIdRef h)])
   ++ (if is_recording (mediaRecorderRef h) then [RecorderStop] else [])
   ++ (if is_some (sourceVideoRef h)
       then [VideoPause; VideoRemoveSrc; VideoLoad] else [])
   ++ (match audioContextRef h with
       | Some Suspended | Some Running => [AudioContextClose]
       | _ => []
       end))%list.

(** The angle cells after the overlay block of one frame. *)
Definition rotate_state (settings : VideoSettings) (h : Hook) : Hook :=
  if enableRotatingLines settings then
    setRotationAngle2 (advance_angle2 (rotationAngle2Ref h))
                      (setRotationAngle1 (advance_angle1 (rotationAngle1Ref h)) h)
  else h.

(** The progress cell after the report of one frame. *)
Definition report_state (v : Video) (h : Hook) : Hook :=
  match duration v with
  | Some total =>
      if Qle_bool total 0 then h
      else setProgress (frame_progress (currentTime v) total) h
  | None => h
  end.

(** The calls that one frame makes on the 2D context, with the angles
    [a1] and [a2] that it has just advanced to. *)
Definition frame_draws (settings : VideoSettings) (fe : FrameEnv) (c : Canvas)
           (a1 a2 : Q) : list DrawCmd :=
  ([Save]
   ++ (if flipHorizontal settings
       then [Translate (inject_Z (width c)) 0; Scale (-1) 1] else [])
   ++ [SetFilter (brightness settings) (contrast settings) (saturation settings);
       DrawImage 0 0 (inject_Z (width c)) (inject_Z (height c));
       Restore]
   ++ (if enablePixelNoise settings then pixel_noise (random fe) c else [])
   ++ (if enableRotatingLines settings
       then line_cmds c a1 false ++ line_cmds c a2 true else []))%list.

(** The source is neither paused nor ended. *)
Definition playing (v : Video) : Prop := paused v = false /\ ended v = false.

(** A session whose element and canvas are in place. *)
Definition live (h : Hook) : Prop :=
  sourceVideoRef h <> None /\ canvasRef h <> None.

(** A host on which every stage succeeds: a 1000 by 1000 source without
    an audio track. *)
Definition studio : HostEnv :=
  mkHostEnv true (Some Suspended) 1000 1000 false false false (GraphBuilt false)
            (fun _ => true) None.

(** Default settings with both overlays switched on. *)
Definition overlay_settings : VideoSettings :=
  mkVideoSettings 100 100 100 1 100 false true true true.

(** The hook right after [processVideo] started recording on [studio]. *)
Definition started : Hook :=
  state_of (processVideo studio overlay_settings initialHook).

(** The source element playing at position [t] of [d] seconds. *)
Definition playing_at (t d : Q) : Video := mkVideo false false t (Some d) 1 true true.

(** A frame whose every random draw is one third. *)
Definition thirds : FrameEnv := mkFrameEnv (fun _ => 1 # 3) 7.

(** The progress values that the caller observes, one per frame. *)
Fixpoint progress_log (settings : VideoSettings)
         (inputs : list (Video * FrameEnv)) (h : Hook) : list Z :=
  match inputs with
  | [] => []
  | input :: rest =>
      let h1 := state_of (frame settings input h) in
      progress h1 :: progress_log settings rest h1
  end.



(** The state cells as [processVideo] sets them before teardown. *)
Definition announced (h : Hook) : Hook :=
  setProgress 0
    (setProcessingError None (setProcessedVideoUrl None (setIsProcessing true h))).

(** The state once the element and the canvas of the new session exist. *)
Definition equipped (h : Hook) : Hook :=
  setCanvas (Some freshCanvas)
    (setSourceVideo (Some freshVideo)
       (setRotationAngle2 (Math_PI / 2)
          (setRotationAngle1 0 (cleaned (announced h))))).

(** The state that a fatal path entered in state [h] leaves. *)
Definition failed (err : string) (h : Hook) : Hook :=
  cleaned (setIsProcessing false (setProcessingError (Some err) h)).

(** The calls of a fatal path entered in state [h]. *)
Definition failing (err rejected : string) (h : Hook) : list Event :=
  (teardown (setIsProcessing false (setProcessingError (Some err) h))
   ++ [Reject rejected])%list.

(** The state once the metadata has been applied to canvas and element. *)
Definition prepared (env : HostEnv) (settings : VideoSettings) (h : Hook)
  : Hook :=
  let h1 := setCanvas
              (option_map (fun _ => mkCanvas (videoWidth env) (videoHeight env))
                          (canvasRef h)) h in
  setSourceVideo
    (option_map (fun v => mkVideo (paused v) (ended v) (currentTime v)
                                  (duration v) (playbackSpeed settings)
                                  (audioPreservesPitch settings) true)
                (sourceVideoRef h1)) h1.

(** The track that the audio block yields. *)
Definition audio_track (env : HostEnv) : option Track :=
  if hasAudioTracks env || hasMozAudio env || hasWebkitAudio env then
    match audioGraph env with
    | GraphBuilt true => Some AudioTrack
    | _ => None
    end
  else None.

(** The warning of the [catch] of the audio block. *)
Definition audio_warning (m : string) : Event :=
  ConsoleWarn ("Could not process audio track: " ++ m).

(** The calls of the audio block. *)
Definition audio_trace (env : HostEnv) (settings : VideoSettings) : list Event :=
  if hasAudioTracks env || hasMozAudio env || hasWebkitAudio env then
    match audioGraph env with
    | SourceNodeThrows m => [CreateMediaElementSource; audio_warning m]
    | GainNodeThrows m =>
        [CreateMediaElementSource; CreateGain (volume settings / 100);
         audio_warning m]
    | DestinationThrows m =>
        [CreateMediaElementSource; CreateGain (volume settings / 100);
         CreateMediaStreamDestination; audio_warning m]
    | GraphBuilt _ =>
        [CreateMediaElementSource; CreateGain (volume settings / 100);
         CreateMediaStreamDestination]
    end
  else [].

(** The tracks of [combinedStream]. *)
Definition tracks_of (env : HostEnv) : list Track :=
  VideoTrack :: match audio_track env with Some t => [t] | None => [] end.

(** The error shown when the recorder constructor throws [m]. *)
Definition constructor_message (m : string) : string :=
  "Failed to create MediaRecorder: " ++ m ++ ".".

(** The calls that construct or start the encoder, or start playback. *)
Definition recorder_call (e : Event) : bool :=
  match e with
  | NewMediaRecorder _ _ | RecorderStart | VideoPlay => true
  | _ => false
  end.

(** The call that constructs the encoder. *)
Definition constructs (e : Event) : bool :=
  match e with NewMediaRecorder _ _ => true | _ => false end.

(** The message of the exception that stops the construction of the audio
    graph, if one does. *)
Definition audio_failure (g : AudioGraph) : option string :=
  match g with
  | SourceNodeThrows m | GainNodeThrows m | DestinationThrows m => Some m
  | GraphBuilt _ => None
  end.

(** The same host with none of the three audio-presence signals. *)
Definition silent (env : HostEnv) : HostEnv :=
  mkHostEnv (getContext env) (newAudioContext env) (videoWidth env)
            (videoHeight env) false false false (audioGraph env)
            (isTypeSupported env) (newMediaRecorder env).

(** One of the three audio-presence signals is positive. *)
Definition has_audio_signal (env : HostEnv) : bool :=
  hasAudioTracks env || hasMozAudio env || hasWebkitAudio env.

(** The call that rejects the promise of [processVideo]. *)
Definition rejects (e : Event) : bool :=
  match e with Reject _ => true | _ => false end.

(** Two frames of a 10 s source, at 2.5 s and at 5 s. *)
Definition two_frames : list (Video * FrameEnv) :=
  [(playing_at 2.5 10, thirds); (playing_at 5 10, thirds)].

(** The rectangles filled by a trace. *)
Definition fill_rects (t : list Event) : list (Q * Q * Q * Q) :=
  flat_map (fun e => match e with
                     | Draw (FillRect x y w h) => [(x, y, w, h)]
                     | _ => []
                     end) t.

(** The fill styles set by a trace. *)
Definition fill_styles (t : list Event) : list (Z * Z * Z * Q) :=
  flat_map (fun e => match e with
                     | Draw (SetFillStyle r g b a) => [(r, g, b, a)]
                     | _ => []
                     end) t.

(** What the claim asks of one mark, less the rounding of coordinates. *)
Definition mark_in_bounds (rnd : nat -> Q) (c : Canvas) (i : nat)
           (m : NoiseMark) : Prop :=
  (mark_intensity m = 220%Z \/ mark_intensity m = 30%Z)
  /\ (mark_intensity m = 220%Z <-> 0.5 < rnd (4 * i + 2)%nat)
  /\ 0.02 <= mark_alpha m < 0.07
  /\ 0 <= mark_x m < inject_Z (width c)
  /\ 0 <= mark_y m < inject_Z (height c).

(** A host whose recorder does not support the WebM/VP8/Opus type. *)
Definition no_webm : HostEnv :=
  mkHostEnv true (Some Suspended) 1000 1000 true false false (GraphBuilt true)
            (fun _ => false) None.

(** A host that reports an audio track and fails to build the gain node. *)
Definition deaf : HostEnv :=
  mkHostEnv true (Some Suspended) 1000 1000 true false false
            (GainNodeThrows "InvalidStateError") (fun _ => true) None.

(** A hook in the middle of a session. *)
Definition recording_hook : Hook :=
  mkHook true None None 40 (Some (playing_at 4 10)) (Some (mkCanvas 1000 1000))
         (Some Recording) [mkBlob 512 0] (Some Running) 7 0 (Math_PI / 2).

(** The host suspends or resumes the audio context of the session. *)
Definition host_audio (running : bool) : M unit :=
  modify (fun h => setAudioContext
                     (option_map (fun s => match s with
                                           | Closed => Closed
                                           | _ => if running then Running
                                                  else Suspended
                                           end)
                                 (audioContextRef h)) h).

(** One callback of the hook, or one move of the host. *)
Inductive step (h : Hook) : Hook -> Prop :=
| step_processVideo (env : HostEnv) :
    newAudioContext env <> Some Closed ->
    step h (state_of (processVideo_start env h))
| step_onloadedmetadata (env : HostEnv) (settings : VideoSettings) :
    step h (state_of (onloadedmetadata env settings h))
| step_loading_error (message : option string) :
    step h (state_of (video_onerror_loading message h))
| step_onplay (id : Z) : step h (state_of (onplay id h))
| step_frame (settings : VideoSettings) (input : Video * FrameEnv) :
    step h (state_of (frame settings input h))
| step_ondataavailable (data : Blob) :
    step h (state_of (ondataavailable data h))
| step_onended : step h (state_of (onended h))
| step_onstop (type url : string) : step h (state_of (onstop type url h))
| step_recorder_onerror (e : RecorderError) :
    step h (state_of (recorder_onerror e h))
| step_video_onerror (message : option string) :
    step h (state_of (video_onerror message h))
| step_play_rejected (message : string) :
    step h (state_of (play_rejected message h))
| step_cleanup : step h (state_of (cleanup h))
| step_host_audio (running : bool) : step h (state_of (host_audio running h)).

(** The states of the hook that its callbacks reach from [initialHook]. *)
Inductive reachable : Hook -> Prop :=
| reachable_initial : reachable initialHook
| reachable_step (h h' : Hook) : reachable h -> step h h' -> reachable h'.

(** The audio cell does not hold a closed context. *)
Definition audio_open (h : Hook) : Prop := audioContextRef h <> Some Closed.

(** ** Further vocabulary: settings, strings, traces, states *)

(** The documented ranges, on a value of the static type. *)
Definition in_ranges (s : VideoSettings) : Prop :=
  0 <= brightness s <= 200
  /\ 0 <= contrast s <= 200
  /\ 0 <= saturation s <= 200
  /\ 0.5 <= playbackSpeed s <= 2.0
  /\ 0 <= volume s <= 100.

(** A settings object with exactly the nine keys of the defaults, in
    their order, each holding a value of its type and range. *)
Definition well_formed (o : JsObject) : Prop :=
  keys o = keys DEFAULT_VIDEO_SETTINGS
  /\ exists s, toVideoSettings o = Some s /\ in_ranges s.





(** The state after the guarded [mediaRecorderRef.current.stop()]. *)
Definition stopped (h : Hook) : Hook :=
  if is_recording (mediaRecorderRef h)
  then setMediaRecorder (Some Inactive) h else h.

(** The calls of the guarded stop and of the guarded cancel. *)
Definition stop_calls (h : Hook) : list Event :=
  if is_recording (mediaRecorderRef h) then [RecorderStop] else [].

Definition cancel_calls (h : Hook) : list Event :=
  if (animationFrameIdRef h =? 0)%Z then []
  else [CancelAnimationFrame (animationFrameIdRef h)].

Definition is_stop (e : Event) : bool :=
  match e with RecorderStop => true | _ => false end.

Definition resolves (e : Event) : bool :=
  match e with Resolve _ => true | _ => false end.

(** How many calls of a trace satisfy [p]. *)
Definition count (p : Event -> bool) (t : list Event) : nat :=
  List.length (filter p t).

(** The text that a fatal handler logs and shows. *)
Definition fatal_text (f : Fatal) : string :=
  match f with
  | RecorderFails (ErrorInstance n m) =>
      "MediaRecorder error: " ++ n ++ " - " ++ m
  | RecorderFails (ErrorNamed n m) =>
      "MediaRecorder error: " ++ n ++ (if is_empty m then "" else " - " ++ m)
  | RecorderFails ErrorOther => "MediaRecorder unspecified error"
  | PlaybackFails m =>
      "Error playing source video: "
      ++ or_else m "Unknown video playback error"
  | LoadingFails m =>
      "Error loading video: " ++ or_else m "Failed to load video file."
  | PlayRejected m => "Could not start video playback: " ++ m
  end.

(** The message of the error that it rejects with. *)
Definition fatal_reason (f : Fatal) : string :=
  match f with
  | RecorderFails (ErrorInstance n m) => m
  | PlayRejected m => m
  | _ => fatal_text f
  end.

(** The error of the first stage of [processVideo] that fails on a host:
    the 2D context, the audio context, the recorder type, the recorder
    constructor; [None] when recording starts. *)
Definition first_failure (env : HostEnv) : option string :=
  if negb (getContext env) then Some "Could not get canvas context."
  else match newAudioContext env with
       | None => Some "AudioContext not supported."
       | Some _ =>
           if negb (isTypeSupported env mimeType) then Some unsupported_message
           else match newMediaRecorder env with
                | Some m => Some (constructor_message m)
                | None => None
                end
       end.

(** The host calls that mark the stages: the audio context is asked for,
    the file is handed to the element, the canvas is captured, the
    recorder is started. *)
Definition asks_audio (e : Event) : bool :=
  match e with NewAudioContext => true | _ => false end.

Definition loads (e : Event) : bool :=
  match e with VideoSetSrc => true | _ => false end.

Definition captures (e : Event) : bool :=
  match e with CaptureStream _ => true | _ => false end.

Definition starts (e : Event) : bool :=
  match e with RecorderStart => true | _ => false end.

(** The chunks that [ondataavailable] keeps. *)
Definition kept (chunks : list Blob) : list Blob :=
  filter (fun data => (0 <? blob_size data)%Z) chunks.

(** A frame that finds the source paused, ended or gone. *)
Definition idle (h : Hook) : Prop :=
  match sourceVideoRef h, canvasRef h with
  | Some v, Some _ => paused v || ended v = true
  | _, _ => True
  end.

Definition draws_or_schedules (e : Event) : bool :=
  match e with Draw _ | RequestAnimationFrame _ => true | _ => false end.

(** What holds of the state cells whatever the callbacks do: the buffer
    holds no empty chunk, progress does not exceed 100, and nothing is in
    progress while an error or a result is shown. *)
Definition settled (h : Hook) : Prop :=
  Forall (fun data => (0 < blob_size data)%Z) (recordedChunksRef h)
  /\ (progress h <= 100)%Z
  /\ (processingError h <> None -> isProcessing h = false)
  /\ (processedVideoUrl h <> None -> isProcessing h = false).






(** The cells of the hook that a playing frame leaves alone. *)
Definition session_cells (h : Hook)
  : bool * option string * option string * option Canvas
    * option RecorderState * list Blob * option AudioContextState :=
  (isProcessing h, processedVideoUrl h, processingError h, canvasRef h,
   mediaRecorderRef h, recordedChunksRef h, audioContextRef h).

(* ===================================================================== *)
(** * Properties of the settings boundary                                 *)
(* ===================================================================== *)

(** ** Objects and the loop over the keys *)

Lemma getOwn_setProp_same (k : string) (v : json) (o : JsObject) :
  getOwn k (setProp k v o) = Some v.
Proof.
  induction o as [|[k' v'] rest IH]; simpl.
  - now rewrite String.eqb_refl.
  - destruct (String.eqb k' k) eqn:E; simpl; rewrite E; auto.
Qed.

Lemma getOwn_setProp_other (k k' : string) (v : json) (o : JsObject) :
  k <> k' -> getOwn k' (setProp k v o) = getOwn k' o.
Proof.
  intros Hne. induction o as [|[k0 v0] rest IH]; simpl.
  - destruct (String.eqb k k') eqn:E; auto.
    apply String.eqb_eq in E. contradiction.
  - destruct (String.eqb k0 k) eqn:E; simpl.
    + apply String.eqb_eq in E. subst k0.
      destruct (String.eqb k k') eqn:E'; auto.
      apply String.eqb_eq in E'. contradiction.
    + now rewrite IH.
Qed.

Lemma hasOwnProperty_getProp (suggested : json) (key : string) (b : bool) :
  call_hasOwnProperty suggested key = Normal b ->
  b = is_some (getProp suggested key).
Proof.
  unfold call_hasOwnProperty, getProp.
  destruct suggested; try discriminate;
    try (destruct (getOwn key (ownProps _)); intros [= <-]; reflexivity).
  cbn [ownProps enumerableProps].
  destruct (getOwn "hasOwnProperty" fields); try discriminate.
  destruct (getOwn key fields); intros [= <-]; reflexivity.
Qed.

Lemma ingest_key_assign (suggested : json) (o o' : JsObject) (b b' : bool)
      (key : string) :
  ingest_key suggested (o, b) key = Normal (o', b') ->
  o' = assign key (field_result suggested key) o
  /\ b' = b && is_some (field_result suggested key).
Proof.
  unfold ingest_key, field_result.
  destruct (call_hasOwnProperty suggested key) as [h|m] eqn:Hc; try discriminate.
  apply hasOwnProperty_getProp in Hc.
  destruct (getProp suggested key) as [v|]; simpl in Hc; subst h.
  - destruct (String.eqb (typeof (Some v)) _).
    + destruct v; try (intros [= <- <-]; simpl; now rewrite andb_true_r).
      destruct (lookup_range key ranges);
        intros [= <- <-]; simpl; now rewrite andb_true_r.
    + intros [= <- <-]. simpl. now rewrite andb_false_r.
  - intros [= <- <-]. simpl. now rewrite andb_false_r.
Qed.

Lemma forEach_keys_get (suggested : json) (ks : list string) :
  forall (o o' : JsObject) (b b' : bool),
    forEach_keys suggested ks (o, b) = Normal (o', b') ->
    NoDup ks ->
    forall k,
      (In k ks -> getOwn k o' = getOwn k (assign k (field_result suggested k) o))
      /\ (~ In k ks -> getOwn k o' = getOwn k o).
Proof.
  induction ks as [|key rest IH]; intros o o' b b' Hrun Hnd k.
  - cbn [forEach_keys] in Hrun. injection Hrun as <- <-.
    split; [intros []|reflexivity].
  - cbn [forEach_keys] in Hrun.
    destruct (ingest_key suggested (o, b) key) as [[o1 b1]|m] eqn:Hk;
      try discriminate.
    apply ingest_key_assign in Hk. destruct Hk as [-> ->].
    inversion Hnd as [|? ? Hnotin Hnd']; subst.
    destruct (IH _ _ _ _ Hrun Hnd' k) as [Hin Hout].
    split.
    + intros [<-|Hk].
      * rewrite (Hout Hnotin). reflexivity.
      * rewrite (Hin Hk).
        assert (key <> k) by (intros ->; contradiction).
        destruct (field_result suggested k) as [v|]; simpl.
        -- now rewrite !getOwn_setProp_same.
        -- destruct (field_result suggested key); simpl; auto.
           now apply getOwn_setProp_other.
    + intros Hno. rewrite Hout by (intros Hk; apply Hno; now right).
      assert (key <> k) by (intros ->; apply Hno; now left).
      destruct (field_result suggested key); simpl; auto.
      now apply getOwn_setProp_other.
Qed.

Lemma keys_default_NoDup : NoDup (keys DEFAULT_VIDEO_SETTINGS).
Proof.
  unfold keys, DEFAULT_VIDEO_SETTINGS; simpl.
  repeat (constructor; [simpl; intuition discriminate|]). constructor.
Qed.

(** The value of a field after ingestion, for every key of the defaults. *)
Lemma ingest_get (suggested : json) (newSettings : JsObject) (valid : bool)
      (k : string) :
  ingest suggested = Normal (newSettings, valid) ->
  In k (keys DEFAULT_VIDEO_SETTINGS) ->
  getOwn k newSettings
  = match field_result suggested k with
    | Some v => Some v
    | None => getOwn k DEFAULT_VIDEO_SETTINGS
    end.
Proof.
  intros Hrun Hin. unfold ingest in Hrun.
  destruct (forEach_keys_get _ _ _ _ _ _ Hrun keys_default_NoDup k) as [H _].
  rewrite (H Hin).
  destruct (field_result suggested k); cbn [assign];
    [apply getOwn_setProp_same | reflexivity].
Qed.

Lemma clamp_bounds (lo hi q : Q) : lo <= hi -> lo <= clamp (lo, hi) q <= hi.
Proof.
  intros Hle. unfold clamp; simpl. split.
  - apply Q.le_max_l.
  - apply Q.max_lub; [exact Hle | apply Q.le_min_l].
Qed.

(** [clamp] leaves a value of the range alone and moves any other value to
    the nearer end. *)
Lemma clamp_cases (lo hi q : Q) :
  lo <= hi ->
  (lo <= q <= hi -> clamp (lo, hi) q == q)
  /\ (q < lo -> clamp (lo, hi) q == lo)
  /\ (hi < q -> clamp (lo, hi) q == hi).
Proof.
  intros Hle. unfold clamp; simpl. repeat split.
  - intros [H1 H2]. rewrite (Q.min_r hi q H2). now apply Q.max_r.
  - intros H. apply Q.max_l.
    apply Qle_trans with q; [apply Q.le_min_r | now apply Qlt_le_weak].
  - intros H. rewrite (Q.min_l hi q) by now apply Qlt_le_weak.
    now apply Q.max_r.
Qed.

Lemma ingest_number_field (suggested : json) (newSettings : JsObject)
      (valid : bool) (key : string) (lo hi d : Q) :
  ingest suggested = Normal (newSettings, valid) ->
  In key (keys DEFAULT_VIDEO_SETTINGS) ->
  getOwn key DEFAULT_VIDEO_SETTINGS = Some (JNum d) ->
  lookup_range key ranges = Some (lo, hi) ->
  lo <= d <= hi ->
  exists q, getOwn key newSettings = Some (JNum q) /\ lo <= q <= hi.
Proof.
  intros Hrun Hin Hd Hr Hb.
  rewrite (ingest_get _ _ _ _ Hrun Hin). unfold field_result.
  rewrite Hd, Hr.
  assert (lo <= hi) as Hle by (destruct Hb; eapply Qle_trans; eauto).
  destruct (getProp suggested key) as [[| | q | | |]|]; cbn;
    try (exists d; split; [reflexivity | exact Hb]).
  exists (clamp (lo, hi) q). split; [reflexivity | now apply clamp_bounds].
Qed.

Lemma ingest_boolean_field (suggested : json) (newSettings : JsObject)
      (valid : bool) (key : string) (d : bool) :
  ingest suggested = Normal (newSettings, valid) ->
  In key (keys DEFAULT_VIDEO_SETTINGS) ->
  getOwn key DEFAULT_VIDEO_SETTINGS = Some (JBool d) ->
  exists b, getOwn key newSettings = Some (JBool b).
Proof.
  intros Hrun Hin Hd.
  rewrite (ingest_get _ _ _ _ Hrun Hin). unfold field_result. rewrite Hd.
  destruct (getProp suggested key) as [[| b | | | |]|]; cbn;
    try (exists d; reflexivity).
  exists b; reflexivity.
Qed.

Ltac default_key := unfold keys, DEFAULT_VIDEO_SETTINGS; simpl; tauto.

(** C1, as amended.  Every settings object that [handleSuggestSettings]
    builds from a parsed AI suggestion reads at the type [VideoSettings]:
    brightness, contrast and saturation lie in [0,200], playbackSpeed in
    [0.5,2.0], volume in [0,100], and the four flags are booleans.  A
    suggested number is replaced by its clamp to the range of its field,
    and a field whose suggested value has another basic type than the
    default (or is missing) holds its default. *)
Theorem C1_suggestion_settings_valid (suggested : json)
        (newSettings : JsObject) (valid : bool) :
  ingest suggested = Normal (newSettings, valid) ->
  (exists s : VideoSettings,
      toVideoSettings newSettings = Some s
      /\ 0 <= brightness s <= 200
      /\ 0 <= contrast s <= 200
      /\ 0 <= saturation s <= 200
      /\ 0.5 <= playbackSpeed s <= 2.0
      /\ 0 <= volume s <= 100)
  /\ (forall key lo hi q,
         lookup_range key ranges = Some (lo, hi) ->
         getProp suggested key = Some (JNum q) ->
         getOwn key newSettings = Some (JNum (clamp (lo, hi) q))
         /\ (lo <= q <= hi -> clamp (lo, hi) q == q)
         /\ (q < lo -> clamp (lo, hi) q == lo)
         /\ (hi < q -> clamp (lo, hi) q == hi))
  /\ (forall key,
         In key (keys DEFAULT_VIDEO_SETTINGS) ->
         typeof (getProp suggested key)
         <> typeof (getOwn key DEFAULT_VIDEO_SETTINGS) ->
         getOwn key newSettings = getOwn key DEFAULT_VIDEO_SETTINGS).
Proof.
  intros Hrun. split; [|split].
  - destruct (ingest_number_field _ _ _ "brightness" 0 200 100 Hrun)
      as (b & Eb & Hb); [default_key | reflexivity | reflexivity | lra |].
    destruct (ingest_number_field _ _ _ "contrast" 0 200 100 Hrun)
      as (c & Ec & Hc); [default_key | reflexivity | reflexivity | lra |].
    destruct (ingest_number_field _ _ _ "saturation" 0 200 100 Hrun)
      as (s & Es & Hs); [default_key | reflexivity | reflexivity | lra |].
    destruct (ingest_number_field _ _ _ "playbackSpeed" 0.5 2.0 1.0 Hrun)
      as (p & Ep & Hp); [default_key | reflexivity | reflexivity | lra |].
    destruct (ingest_number_field _ _ _ "volume" 0 100 100 Hrun)
      as (v & Ev & Hv); [default_key | reflexivity | reflexivity | lra |].
    destruct (ingest_boolean_field _ _ _ "flipHorizontal" false Hrun)
      as (f & Ef); [default_key | reflexivity |].
    destruct (ingest_boolean_field _ _ _ "enableRotatingLines" false Hrun)
      as (r & Er); [default_key | reflexivity |].
    destruct (ingest_boolean_field _ _ _ "enablePixelNoise" false Hrun)
      as (n & En); [default_key | reflexivity |].
    destruct (ingest_boolean_field _ _ _ "audioPreservesPitch" true Hrun)
      as (a & Ea); [default_key | reflexivity |].
    exists (mkVideoSettings b c s p v f r n a).
    unfold toVideoSettings.
    rewrite Eb, Ec, Es, Ep, Ev, Ef, Er, En, Ea. cbn.
    repeat split; tauto.
  - intros key lo hi q Hr Hq.
    assert (In key (keys DEFAULT_VIDEO_SETTINGS)
            /\ (exists d, getOwn key DEFAULT_VIDEO_SETTINGS = Some (JNum d))
            /\ lo <= hi) as (Hin & (d & Hd) & Hle).
    { revert Hr. unfold ranges, lookup_range.
      repeat match goal with
             | |- context [String.eqb ?a key] =>
                 destruct (String.eqb a key) eqn:?E;
                 [ apply String.eqb_eq in E; subst key; intros [= <- <-];
                   split; [default_key | split; [eexists; reflexivity | lra]]
                 | clear E ]
             end.
      discriminate. }
    split; [|now apply clamp_cases].
    rewrite (ingest_get _ _ _ _ Hrun Hin). unfold field_result.
    rewrite Hq, Hd, Hr. reflexivity.
  - intros key Hin Hty.
    rewrite (ingest_get _ _ _ _ Hrun Hin). unfold field_result.
    destruct (getProp suggested key) as [v|]; [|reflexivity].
    destruct (String.eqb (typeof (Some v)) _) eqn:E; [|reflexivity].
    apply String.eqb_eq in E. contradiction.
Qed.

(** C1, as stated, fails on the persisted path: the initializer of
    [currentSettings] spreads the stored object over the defaults and
    keeps brightness 500, above 200, and the string held by contrast. *)
Lemma C1_persisted_settings_unchecked :
  let parse := fun _ : string => Normal tampered_store in
  let loaded := initialSettings parse (Normal (Some "saved")) in
  getOwn "brightness" loaded = Some (JNum 500)
  /\ ~ (500 <= 200)
  /\ getOwn "contrast" loaded = Some (JStr "high")
  /\ toVideoSettings loaded = None.
Proof.
  cbv zeta. split; [reflexivity|]. split; [lra|]. split; reflexivity.
Qed.

(** The flag [allFieldsValid] after the loop: every key was accepted. *)
Lemma forEach_keys_flag (suggested : json) (ks : list string) :
  forall (o o' : JsObject) (b b' : bool),
    forEach_keys suggested ks (o, b) = Normal (o', b') ->
    b' = b && forallb (fun k => is_some (field_result suggested k)) ks.
Proof.
  induction ks as [|key rest IH]; intros o o' b b' Hrun.
  - cbn [forEach_keys] in Hrun. injection Hrun as <- <-.
    cbn. now rewrite andb_true_r.
  - cbn [forEach_keys] in Hrun.
    destruct (ingest_key suggested (o, b) key) as [[o1 b1]|m] eqn:Hk;
      try discriminate.
    apply ingest_key_assign in Hk. destruct Hk as [-> ->].
    rewrite (IH _ _ _ _ Hrun). cbn [forallb]. now rewrite andb_assoc.
Qed.

(** The loop completes on every parsed value on which [hasOwnProperty]
    can be called, and throws on the others at its first turn. *)
Lemma ingest_total (suggested : json) :
  (exists o b, ingest suggested = Normal (o, b))
  \/ (exists m, ingest suggested = Throws m
                /\ forall key, call_hasOwnProperty suggested key = Throws m).
Proof.
  assert (forall ks acc,
             (forall key, exists b, call_hasOwnProperty suggested key = Normal b) ->
             exists o b, forEach_keys suggested ks acc = Normal (o, b)) as Hloop.
  { induction ks as [|key rest IH]; intros [o b] Hcall.
    - exists o, b. reflexivity.
    - cbn [forEach_keys]. unfold ingest_key.
      destruct (Hcall key) as [h ->].
      destruct h; [|apply IH, Hcall].
      destruct (String.eqb _ _); [|apply IH, Hcall].
      destruct (getProp suggested key) as [[| | q | | |]|];
        try apply IH, Hcall.
      destruct (lookup_range key ranges); apply IH, Hcall. }
  destruct suggested as [| b | q | s | items | fields].
  - right. eexists. split; [reflexivity|]. intros key. reflexivity.
  - left. apply Hloop. intros key. eexists. reflexivity.
  - left. apply Hloop. intros key. eexists. reflexivity.
  - left. apply Hloop. intros key. eexists. reflexivity.
  - left. apply Hloop. intros key. eexists. reflexivity.
  - destruct (getOwn "hasOwnProperty" fields) as [v|] eqn:E.
    + right. eexists. split.
      * unfold ingest. cbn [keys DEFAULT_VIDEO_SETTINGS map fst forEach_keys].
        unfold ingest_key, call_hasOwnProperty. rewrite E. reflexivity.
      * intros key. unfold call_hasOwnProperty. now rewrite E.
    + left. apply Hloop. intros key. unfold call_hasOwnProperty. rewrite E.
      eexists. reflexivity.
Qed.


(** C8.  When the text of the response, trimmed and unwrapped from its
    fence, does not parse, the suggestion alone fails: its error message
    is shown, the current settings are the ones held before, the
    processor is untouched, and a render started afterwards receives the
    same file and settings as one started before. *)
Theorem C8_unparsable_suggestion_fails_alone
        (parse : string -> Completion json) (text message : string)
        (s : System) :
  parse (fenced_json text) = Throws message ->
  let s' := suggestion_settles parse (ApiText (Some text)) s in
  geminiError (app s') = Some (suggestion_failed message)
  /\ currentSettings (app s') = currentSettings (app s)
  /\ isSuggestingSettings (app s') = false
  /\ processor s' = processor s
  /\ handleProcessVideo s' = handleProcessVideo s.
Proof.
  intros Hparse.
  unfold suggestion_settles, handleSuggestSettings_response, suggestion_try,
    handleProcessVideo.
  rewrite Hparse. cbn. repeat split; reflexivity.
Qed.

(** ** The download name *)

(** C9 at a name with two dots: the anchor cuts the name at its first dot,
    where the claim removes only the final extension. *)
Theorem C9_downloadName_cuts_at_first_dot :
  downloadName (Some "my.video.mp4") = "modified_my.webm"
  /\ derived_filename "my.video.mp4" = "modified_my.video.webm"
  /\ downloadName (Some "my.video.mp4") <> derived_filename "my.video.mp4".
Proof.
  repeat split; try reflexivity. cbv. discriminate.
Qed.

Lemma split_no_dot (s : string) : has_dot s = false -> split "." s = [s].
Proof.
  induction s as [|c rest IH]; simpl; [reflexivity|].
  destruct (Ascii.eqb c ".") eqn:E; simpl; [discriminate|].
  intros H. now rewrite (IH H).
Qed.

Lemma split_stem (stem ext : string) :
  has_dot stem = false ->
  split "." (stem ++ String "." ext) = stem :: split "." ext.
Proof.
  induction stem as [|c rest IH]; simpl.
  - reflexivity.
  - destruct (Ascii.eqb c ".") eqn:E; simpl; [discriminate|].
    intros H. now rewrite (IH H).
Qed.

(** On a name with a single extension the anchor and the claim agree. *)
Lemma downloadName_single_extension (stem ext : string) :
  has_dot stem = false -> has_dot ext = false -> stem <> EmptyString ->
  downloadName (Some (stem ++ String "." ext)) = "modified_" ++ stem ++ ".webm"
  /\ derived_filename (stem ++ String "." ext) = "modified_" ++ stem ++ ".webm".
Proof.
  intros Hs He Hne. unfold downloadName, derived_filename, strip_final_extension.
  cbn [option_map].
  rewrite (split_stem _ _ Hs), (split_no_dot _ He).
  destruct stem; [contradiction|]. split; reflexivity.
Qed.

(** ** The scenario of the specification, run through the boundary *)

Example scenario_ingested : ingest scenario = Normal (scenario_settings, false).
Proof. reflexivity. Qed.

Example scenario_reported :
  geminiError
    (handleSuggestSettings_response (fun _ => Normal scenario)
                                    (ApiText (Some "{}")) scenario_app)
  = Some partially_applied.
Proof. reflexivity. Qed.

Example null_suggestion_rejected :
  handleSuggestSettings_response (fun _ => Normal JNull) (ApiText (Some "null"))
                                 scenario_app
  = mkAppState (Some "clip.mp4") DEFAULT_VIDEO_SETTINGS "warmer" false
      (Some (suggestion_failed
               "Cannot read properties of null (reading 'hasOwnProperty')")).
Proof. reflexivity. Qed.

Example fence_unwrapped :
  fenced_json "```json
{}
```" = "{}".
Proof. reflexivity. Qed.

Lemma C1_suggestion_settings_valid_witness :
  ingest scenario = Normal (scenario_settings, false)
  /\ exists s : VideoSettings,
      toVideoSettings scenario_settings = Some s
      /\ 0 <= brightness s <= 200
      /\ 0 <= contrast s <= 200
      /\ 0 <= saturation s <= 200
      /\ 0.5 <= playbackSpeed s <= 2.0
      /\ 0 <= volume s <= 100.
Proof.
  split; [reflexivity|].
  exact (proj1 (C1_suggestion_settings_valid scenario scenario_settings false
                                             eq_refl)).
Defined.


Lemma C8_unparsable_suggestion_fails_alone_witness :
  let parse := fun _ : string => Throws "Unexpected token o in JSON" in
  let s := mkSystem scenario_app initialHook in
  parse (fenced_json "not json") = Throws "Unexpected token o in JSON"
  /\ geminiError (app (suggestion_settles parse (ApiText (Some "not json")) s))
     = Some (suggestion_failed "Unexpected token o in JSON").
Proof.
  cbv zeta. split; [reflexivity|].
  exact (proj1 (C8_unparsable_suggestion_fails_alone
                  (fun _ => Throws "Unexpected token o in JSON") "not json"
                  "Unexpected token o in JSON"
                  (mkSystem scenario_app initialHook) eq_refl)).
Defined.

(* ===================================================================== *)
(** * Properties of the processor                                         *)
(* ===================================================================== *)

(** ** Teardown in closed form *)

Lemma cleanup_run (h : Hook) : cleanup h = (tt, cleaned h, teardown h).
Proof.
  destruct h as [ip url err pr [v|] [c|] [[| |]|] ch [[| |]|] [|id|id] a1 a2];
    reflexivity.
Qed.

Lemma cleaned_twice (h : Hook) :
  cleaned (cleaned h) = cleaned h /\ teardown (cleaned h) = [].
Proof.
  unfold cleaned, teardown; cbn.
  destruct (audioContextRef h) as [[| |]|]; split; reflexivity.
Qed.

(** ** One frame in closed form *)

Lemma drawFrame_playing (settings : VideoSettings) (fe : FrameEnv) (h : Hook)
      (v : Video) (c : Canvas) :
  sourceVideoRef h = Some v -> canvasRef h = Some c -> playing v ->
  drawFrame settings fe h
  = (tt,
     setAnimationFrameId (rafId fe) (report_state v (rotate_state settings h)),
     (map Draw (frame_draws settings fe c
                  (rotationAngle1Ref (rotate_state settings h))
                  (rotationAngle2Ref (rotate_state settings h)))
      ++ [RequestAnimationFrame (rafId fe)])%list).
Proof.
  intros Hv Hc [Hp He].
  destruct h as [ip url err pr sv cv rec ch au id a1 a2]; cbn in Hv, Hc.
  subst sv cv.
  unfold drawFrame, bind, gets, modify, emit, emits, draws, when, ret,
    rotate_state, report_state, frame_draws.
  cbn [sourceVideoRef canvasRef]. rewrite Hp, He. cbn [orb].
  destruct settings as [sb sc ss sp svol flip lines noise pitch];
    cbn [flipHorizontal enablePixelNoise enableRotatingLines brightness
         contrast saturation].
  destruct (duration v) as [total|]; [destruct (Qle_bool total 0)|];
    destruct flip, lines, noise; cbn [negb];
    rewrite ?map_app, <- ?app_assoc; reflexivity.
Qed.

(** ** Truncation and remainder over the rationals *)







(** ** The two phase angles *)





Lemma frame_playing (settings : VideoSettings) (v : Video) (fe : FrameEnv)
      (h : Hook) :
  live h -> playing v ->
  state_of (frame settings (v, fe) h)
  = setAnimationFrameId (rafId fe)
      (report_state v (rotate_state settings (setSourceVideo (Some v) h)))
  /\ exists c, canvasRef h = Some c
     /\ trace_of (frame settings (v, fe) h)
        = (map Draw
             (frame_draws settings fe c
                (rotationAngle1Ref (rotate_state settings h))
                (rotationAngle2Ref (rotate_state settings h)))
           ++ [RequestAnimationFrame (rafId fe)])%list.
Proof.
  intros [Hv Hc] Hplay.
  destruct (sourceVideoRef h) as [v0|] eqn:Ev; [|contradiction].
  destruct (canvasRef h) as [c|] eqn:Ec; [|contradiction].
  unfold frame, host_video, bind, modify; cbn [fst snd].
  rewrite Ev; cbn [option_map].
  rewrite (drawFrame_playing settings fe (setSourceVideo (Some v) h) v c);
    [|reflexivity|exact Ec|exact Hplay].
  split; [reflexivity|]. exists c. split; [reflexivity|].
  unfold trace_of, rotate_state; cbn [snd app].
  destruct (enableRotatingLines settings); reflexivity.
Qed.


Lemma frames_cons (settings : VideoSettings) (input : Video * FrameEnv)
      (rest : list (Video * FrameEnv)) (h : Hook) :
  state_of (frames settings (input :: rest) h)
  = state_of (frames settings rest (state_of (frame settings input h))).
Proof.
  cbn [frames]. unfold bind, state_of.
  destruct (frame settings input h) as [[u h1] t1]; cbn [fst snd].
  destruct (frames settings rest h1) as [[u2 h2] t2]; reflexivity.
Qed.







(** ** Progress *)






(** ** [processVideo] in closed form *)

Lemma fail_run (err rejected : string) (h : Hook) :
  fail err rejected h = (tt, failed err h, failing err rejected h).
Proof.
  unfold fail, bind, modify, emit. rewrite cleanup_run.
  unfold failed, failing. now rewrite app_nil_l.
Qed.

Lemma processVideo_start_run (env : HostEnv) (h : Hook) :
  processVideo_start env h
  = if getContext env then
      match newAudioContext env with
      | Some s =>
          (true, setAudioContext (Some s) (equipped h),
           (teardown (announced h)
            ++ [CreateVideo; CreateCanvas; GetContext2d; NewAudioContext;
                VideoSetSrc])%list)
      | None =>
          (false, failed "AudioContext not supported." (equipped h),
           (teardown (announced h)
            ++ [CreateVideo; CreateCanvas; GetContext2d; NewAudioContext]
            ++ failing "AudioContext not supported."
                       "AudioContext not supported." (equipped h))%list)
      end
    else
      (false, failed "Could not get canvas context." (equipped h),
       (teardown (announced h)
        ++ [CreateVideo; CreateCanvas; GetContext2d]
        ++ failing "Could not get canvas context."
                   "Could not get canvas context." (equipped h))%list).
Proof.
  unfold processVideo_start, bind, modify, emit, ret.
  rewrite cleanup_run.
  destruct (getContext env); cbn [negb].
  - destruct (newAudioContext env) as [s|].
    + unfold equipped, announced. now rewrite !app_nil_l, !app_nil_r.
    + rewrite fail_run. unfold equipped, announced.
      now rewrite !app_nil_l, !app_nil_r.
  - rewrite fail_run. unfold equipped, announced.
    now rewrite !app_nil_l, !app_nil_r.
Qed.

Lemma audio_block_run (env : HostEnv) (settings : VideoSettings) (h : Hook) :
  audio_block env settings h = (audio_track env, h, audio_trace env settings).
Proof.
  unfold audio_block, audio_track, audio_trace, audio_warning.
  destruct (hasAudioTracks env || hasMozAudio env || hasWebkitAudio env);
    [|reflexivity].
  destruct (audioGraph env) as [m|m|m|[|]]; reflexivity.
Qed.

Lemma onloadedmetadata_run (env : HostEnv) (settings : VideoSettings)
      (h : Hook) :
  onloadedmetadata env settings h
  = let h1 := prepared env settings h in
    if isTypeSupported env mimeType then
      match newMediaRecorder env with
      | None =>
          (true,
           setMediaRecorder (Some Recording)
             (setRecordedChunks [] (setMediaRecorder (Some Inactive) h1)),
           (audio_trace env settings
            ++ [CaptureStream FPS; IsTypeSupported mimeType;
                NewMediaRecorder (tracks_of env) mimeType;
                RecorderStart; VideoPlay])%list)
      | Some m =>
          (false, failed (constructor_message m) h1,
           (audio_trace env settings
            ++ [CaptureStream FPS; IsTypeSupported mimeType;
                NewMediaRecorder (tracks_of env) mimeType;
                ConsoleError (constructor_message m)]
            ++ failing (constructor_message m) (constructor_message m) h1)%list)
      end
    else
      (false, failed unsupported_message h1,
       (audio_trace env settings
        ++ [CaptureStream FPS; IsTypeSupported mimeType;
            ConsoleError unsupported_message]
        ++ failing unsupported_message unsupported_message h1)%list).
Proof.
  unfold onloadedmetadata, bind, modify, emit, ret.
  rewrite audio_block_run. fold (prepared env settings h).
  unfold tracks_of, constructor_message.
  destruct (isTypeSupported env mimeType); cbn [negb].
  - destruct (newMediaRecorder env) as [m|].
    + rewrite fail_run. cbv zeta. now rewrite !app_nil_l, !app_nil_r.
    + cbv zeta. now rewrite !app_nil_l, !app_nil_r.
  - rewrite fail_run. cbv zeta. now rewrite !app_nil_l, !app_nil_r.
Qed.

Lemma processVideo_run (env : HostEnv) (settings : VideoSettings) (h : Hook) :
  processVideo env settings h
  = let start := processVideo_start env h in
    if value_of start then
      let loaded := onloadedmetadata env settings (state_of start) in
      (value_of loaded, state_of loaded,
       (trace_of start ++ trace_of loaded)%list)
    else (false, state_of start, trace_of start).
Proof.
  unfold processVideo, bind, ret, value_of, state_of, trace_of.
  destruct (processVideo_start env h) as [[[|] h1] t1]; cbn [fst snd].
  - destruct (onloadedmetadata env settings h1) as [[b h2] t2]. reflexivity.
  - now rewrite app_nil_r.
Qed.

(** ** The type check and the recorder *)

Lemma teardown_no_recorder_call (h : Hook) :
  existsb recorder_call (teardown h) = false.
Proof.
  unfold teardown.
  destruct (animationFrameIdRef h =? 0)%Z, (is_recording (mediaRecorderRef h)),
    (is_some (sourceVideoRef h)), (audioContextRef h) as [[| |]|]; reflexivity.
Qed.

Lemma audio_trace_no_recorder_call (env : HostEnv) (settings : VideoSettings) :
  existsb recorder_call (audio_trace env settings) = false.
Proof.
  unfold audio_trace.
  destruct (hasAudioTracks env || hasMozAudio env || hasWebkitAudio env);
    [|reflexivity].
  destruct (audioGraph env) as [m|m|m|b]; reflexivity.
Qed.

Lemma failing_no_recorder_call (err rejected : string) (h : Hook) :
  existsb recorder_call (failing err rejected h) = false.
Proof.
  unfold failing. now rewrite existsb_app, teardown_no_recorder_call.
Qed.

Lemma start_no_recorder_call (env : HostEnv) (h : Hook) :
  existsb recorder_call (trace_of (processVideo_start env h)) = false.
Proof.
  rewrite processVideo_start_run.
  destruct (getContext env); [destruct (newAudioContext env)|];
    unfold trace_of; cbn [snd];
    rewrite !existsb_app, ?teardown_no_recorder_call,
      ?failing_no_recorder_call; reflexivity.
Qed.

Lemma no_recorder_call (t : list Event) :
  existsb recorder_call t = false ->
  (forall tracks type, ~ In (NewMediaRecorder tracks type) t)
  /\ ~ In RecorderStart t
  /\ ~ In VideoPlay t.
Proof.
  intros H.
  assert (forall e, In e t -> recorder_call e = false) as Hall.
  { intros e He. destruct (recorder_call e) eqn:E; [|reflexivity].
    rewrite <- H. symmetry. apply existsb_exists. now exists e. }
  repeat split; intros; intros Hin; apply Hall in Hin; discriminate.
Qed.

Lemma value_of_mk {A : Type} (a : A) (h : Hook) (t : list Event) :
  value_of (a, h, t) = a.
Proof. reflexivity. Qed.

Lemma state_of_mk {A : Type} (a : A) (h : Hook) (t : list Event) :
  state_of (a, h, t) = h.
Proof. reflexivity. Qed.

Lemma trace_of_mk {A : Type} (a : A) (h : Hook) (t : list Event) :
  trace_of (a, h, t) = t.
Proof. reflexivity. Qed.

Lemma loaded_unsupported (env : HostEnv) (settings : VideoSettings) (h : Hook) :
  isTypeSupported env mimeType = false ->
  let r := onloadedmetadata env settings h in
  value_of r = false
  /\ state_of r = failed unsupported_message (prepared env settings h)
  /\ existsb recorder_call (trace_of r) = false
  /\ In (ConsoleError unsupported_message) (trace_of r)
  /\ In (Reject unsupported_message) (trace_of r).
Proof.
  intros Hun. cbv zeta. rewrite onloadedmetadata_run. cbv zeta. rewrite Hun.
  rewrite value_of_mk, state_of_mk, trace_of_mk.
  split; [reflexivity|]. split; [reflexivity|]. split; [|split].
  - now rewrite !existsb_app, audio_trace_no_recorder_call,
      failing_no_recorder_call.
  - rewrite !in_app_iff. right. left. cbn. tauto.
  - unfold failing. rewrite !in_app_iff. right. right. right. now left.
Qed.

Lemma loaded_supported (env : HostEnv) (settings : VideoSettings) (h : Hook) :
  isTypeSupported env mimeType = true ->
  exists after,
    trace_of (onloadedmetadata env settings h)
    = ((audio_trace env settings ++ [CaptureStream FPS])
         ++ IsTypeSupported mimeType
         :: NewMediaRecorder (tracks_of env) mimeType :: after)%list
    /\ existsb constructs after = false.
Proof.
  intros Hs. rewrite onloadedmetadata_run. cbv zeta. rewrite Hs.
  destruct (newMediaRecorder env) as [m|]; unfold trace_of; cbn [snd].
  - eexists. split; [rewrite <- app_assoc; cbn [app]; reflexivity|].
    cbn [existsb constructs orb]. unfold failing. rewrite existsb_app.
    unfold teardown.
    destruct (animationFrameIdRef _ =? 0)%Z, (is_recording _), (is_some _),
      (audioContextRef _) as [[| |]|]; reflexivity.
  - eexists. split; [rewrite <- app_assoc; cbn [app]; reflexivity|].
    reflexivity.
Qed.

Lemma constructs_of_call (t : list Event) :
  existsb recorder_call t = false -> existsb constructs t = false.
Proof.
  induction t as [|e t IH]; [reflexivity|]. cbn [existsb].
  intros H. apply orb_false_iff in H. destruct H as [He Ht].
  rewrite (IH Ht). destruct e; try reflexivity; discriminate.
Qed.

Lemma not_constructed (t : list Event) (tracks : list Track) (type : string) :
  existsb constructs t = false -> ~ In (NewMediaRecorder tracks type) t.
Proof.
  intros H Hin.
  assert (existsb constructs t = true) as Ht
      by (apply existsb_exists; eexists; split; [exact Hin | reflexivity]).
  congruence.
Qed.

(** C5.  In every call of [processVideo], the recorder constructor is
    called only after [isTypeSupported] was asked about the fixed
    WebM/VP8/Opus type and answered yes: the query is the call immediately
    before the construction, and no encoder call precedes it.  When the
    type is unsupported the call fails: it returns without constructing or
    starting a recorder and without starting playback, the recorder cell
    is empty, and, when canvas and audio context were obtained, the error
    shown and rejected is the message that names the type. *)
Theorem C5_type_checked_before_recorder (env : HostEnv)
        (settings : VideoSettings) (h : Hook) :
  let r := processVideo env settings h in
  (forall tracks type,
      In (NewMediaRecorder tracks type) (trace_of r) ->
      isTypeSupported env mimeType = true
      /\ exists before after,
          trace_of r
          = (before ++ IsTypeSupported mimeType
                    :: NewMediaRecorder tracks type :: after)%list
          /\ existsb recorder_call before = false)
  /\ (isTypeSupported env mimeType = false ->
      value_of r = false
      /\ (forall tracks type, ~ In (NewMediaRecorder tracks type) (trace_of r))
      /\ ~ In RecorderStart (trace_of r)
      /\ ~ In VideoPlay (trace_of r)
      /\ mediaRecorderRef (state_of r) = None
      /\ isProcessing (state_of r) = false
      /\ (getContext env = true -> newAudioContext env <> None ->
          processingError (state_of r) = Some unsupported_message
          /\ In (ConsoleError unsupported_message) (trace_of r)
          /\ In (Reject unsupported_message) (trace_of r)))
  /\ unsupported_message
     = "MIME type " ++ mimeType
       ++ " not supported for MediaRecorder. Your browser may not support WEBM (VP8/Opus) recording.".
Proof.
  cbv zeta. rewrite processVideo_run. cbv zeta.
  pose proof (start_no_recorder_call env h) as Hstart.
  set (start := processVideo_start env h) in *.
  split; [|split; [|reflexivity]].
  - intros tracks type Hin.
    destruct (value_of start) eqn:Ev; rewrite trace_of_mk in Hin |- *.
    2:{ exfalso. revert Hin. apply not_constructed.
        now apply constructs_of_call. }
    apply in_app_or in Hin. destruct Hin as [Hin|Hin].
    { exfalso. revert Hin. apply not_constructed.
      now apply constructs_of_call. }
    destruct (isTypeSupported env mimeType) eqn:Hs.
    2:{ exfalso. revert Hin. apply not_constructed, constructs_of_call.
        apply (loaded_unsupported env settings (state_of start) Hs). }
    split; [reflexivity|].
    destruct (loaded_supported env settings (state_of start) Hs)
      as (after & Et & Hafter).
    rewrite Et in Hin |- *.
    apply in_app_or in Hin. destruct Hin as [Hin|Hin].
    { exfalso. revert Hin. apply not_constructed, constructs_of_call.
      now rewrite existsb_app, audio_trace_no_recorder_call. }
    destruct Hin as [Hin|[Hin|Hin]]; [discriminate| |].
    + injection Hin as <- <-.
      exists (trace_of start ++ audio_trace env settings ++ [CaptureStream FPS])%list,
        after.
      split; [now rewrite <- !app_assoc|].
      now rewrite !existsb_app, Hstart, audio_trace_no_recorder_call.
    + exfalso. revert Hin. now apply not_constructed.
  - intros Hun.
    destruct (loaded_unsupported env settings (state_of start) Hun)
      as (Lv & Ls & Lt & Lc & Lr).
    assert (existsb recorder_call
              (trace_of
                 (if value_of start
                  then
                    (value_of (onloadedmetadata env settings (state_of start)),
                     state_of (onloadedmetadata env settings (state_of start)),
                     (trace_of start
                      ++ trace_of (onloadedmetadata env settings
                                     (state_of start)))%list)
                  else (false, state_of start, trace_of start))) = false)
      as Hno.
    { destruct (value_of start); rewrite trace_of_mk; [|exact Hstart].
      now rewrite existsb_app, Hstart, Lt. }
    destruct (no_recorder_call _ Hno) as (N1 & N2 & N3).
    split; [|split; [exact N1|split; [exact N2|split; [exact N3|]]]].
    { destruct (value_of start); [exact Lv | reflexivity]. }
    clear Hno N1 N2 N3 Hstart.
    destruct (value_of start) eqn:Ev.
    + rewrite !state_of_mk, !trace_of_mk, !Ls. split; [reflexivity|]. split; [reflexivity|].
      intros _ _. split; [reflexivity|].
      split; rewrite in_app_iff; now right.
    + subst start. rewrite processVideo_start_run in Ev |- *.
      destruct (getContext env); [destruct (newAudioContext env)|];
        try discriminate; repeat split; try reflexivity; congruence.
Qed.

(** ** The audio block *)

Lemma audio_failure_track (env : HostEnv) (m : string) :
  audio_failure (audioGraph env) = Some m ->
  audio_track env = None /\ tracks_of env = [VideoTrack].
Proof.
  unfold tracks_of, audio_track. intros H.
  destruct (hasAudioTracks env || hasMozAudio env || hasWebkitAudio env);
    destruct (audioGraph env); try discriminate; split; reflexivity.
Qed.

Lemma audio_failure_warns (env : HostEnv) (settings : VideoSettings)
      (m : string) :
  has_audio_signal env = true ->
  audio_failure (audioGraph env) = Some m ->
  In (audio_warning m) (audio_trace env settings)
  /\ forall e, In e (audio_trace env settings) ->
               match e with
               | CreateMediaElementSource | CreateGain _
               | CreateMediaStreamDestination | ConsoleWarn _ => True
               | _ => False
               end.
Proof.
  unfold has_audio_signal, audio_trace. intros -> H.
  destruct (audioGraph env); try discriminate; injection H as ->;
    (split; [cbn; tauto|]);
    intros e He; cbn in He;
    repeat (destruct He as [<-|He]; [exact I|]); destruct He.
Qed.

Lemma not_rejected (t : list Event) (message : string) :
  existsb rejects t = false -> ~ In (Reject message) t.
Proof.
  intros H Hin.
  assert (existsb rejects t = true) as Ht
      by (apply existsb_exists; eexists; split; [exact Hin | reflexivity]).
  congruence.
Qed.

Lemma teardown_no_reject (h : Hook) : existsb rejects (teardown h) = false.
Proof.
  unfold teardown.
  destruct (animationFrameIdRef h =? 0)%Z, (is_recording (mediaRecorderRef h)),
    (is_some (sourceVideoRef h)), (audioContextRef h) as [[| |]|]; reflexivity.
Qed.

Lemma audio_trace_no_reject (env : HostEnv) (settings : VideoSettings) :
  existsb rejects (audio_trace env settings) = false.
Proof.
  unfold audio_trace.
  destruct (hasAudioTracks env || hasMozAudio env || hasWebkitAudio env);
    [|reflexivity].
  destruct (audioGraph env) as [m|m|m|b]; reflexivity.
Qed.

Lemma loaded_without_audio (env : HostEnv) (settings : VideoSettings)
      (h : Hook) (m : string) :
  audio_failure (audioGraph env) = Some m ->
  let r := onloadedmetadata env settings h in
  let quiet := onloadedmetadata (silent env) settings h in
  value_of r = value_of quiet
  /\ state_of r = state_of quiet
  /\ trace_of r = (audio_trace env settings ++ trace_of quiet)%list.
Proof.
  intros Hf. cbv zeta. rewrite !onloadedmetadata_run. cbv zeta.
  destruct (audio_failure_track env m Hf) as [_ Ht]. rewrite Ht.
  change (tracks_of (silent env)) with [VideoTrack].
  change (audio_trace (silent env) settings) with (@nil Event).
  change (isTypeSupported (silent env)) with (isTypeSupported env).
  change (newMediaRecorder (silent env)) with (newMediaRecorder env).
  change (prepared (silent env) settings h) with (prepared env settings h).
  destruct (isTypeSupported env mimeType);
    [destruct (newMediaRecorder env)|];
    rewrite !value_of_mk, !state_of_mk, !trace_of_mk;
    repeat split; reflexivity.
Qed.

(** C6.  When a positive audio signal is present and the construction of
    the audio graph throws, at whichever of its three nodes, [processVideo]
    ends with the same result and in the same state as on the host without
    any audio signal, and makes the same calls apart from the audio calls:
    the failure adds a console warning and no rejection.  When the other
    stages succeed the session records the video track alone, no error is
    set, and the recorder's stop handler resolves it.  Without any positive
    signal the audio block makes no call and reports nothing. *)
Theorem C6_audio_failure_continues (env : HostEnv) (settings : VideoSettings)
        (h : Hook) (m : string) :
  has_audio_signal env = true ->
  audio_failure (audioGraph env) = Some m ->
  let r := processVideo env settings h in
  let quiet := processVideo (silent env) settings h in
  value_of r = value_of quiet
  /\ state_of r = state_of quiet
  /\ (exists before audio after,
         trace_of r = (before ++ audio ++ after)%list
         /\ trace_of quiet = (before ++ after)%list
         /\ (audio = [] \/ audio = audio_trace env settings))
  /\ (forall message, In (Reject message) (trace_of r) ->
                      In (Reject message) (trace_of quiet))
  /\ (getContext env = true -> newAudioContext env <> None ->
      In (audio_warning m) (trace_of r))
  /\ (getContext env = true -> newAudioContext env <> None ->
      isTypeSupported env mimeType = true -> newMediaRecorder env = None ->
      value_of r = true
      /\ processingError (state_of r) = None
      /\ isProcessing (state_of r) = true
      /\ mediaRecorderRef (state_of r) = Some Recording
      /\ In (NewMediaRecorder [VideoTrack] mimeType) (trace_of r)
      /\ (forall message, ~ In (Reject message) (trace_of r))
      /\ forall type url,
          In (Resolve url) (trace_of (onstop type url (state_of r)))
          /\ processedVideoUrl (state_of (onstop type url (state_of r)))
             = Some url
          /\ processingError (state_of (onstop type url (state_of r))) = None)
  /\ audio_block (silent env) settings h = (None, h, []).
Proof.
  intros Hsig Hf. cbv zeta.
  destruct (audio_failure_warns env settings m Hsig Hf) as [Hwarn Hcalls].
  rewrite !processVideo_run. cbv zeta.
  change (processVideo_start (silent env) h) with (processVideo_start env h).
  set (start := processVideo_start env h).
  destruct (loaded_without_audio env settings (state_of start) m Hf)
    as (Lv & Ls & Lt).
  assert (forall message,
             ~ In (Reject message) (audio_trace env settings)) as Hnorej
      by (intros message; apply not_rejected, audio_trace_no_reject).
  split; [|split; [|split; [|split; [|split; [|split]]]]].
  - destruct (value_of start); rewrite !value_of_mk; [exact Lv|reflexivity].
  - destruct (value_of start); rewrite !state_of_mk; [exact Ls|reflexivity].
  - destruct (value_of start); rewrite !trace_of_mk.
    + exists (trace_of start), (audio_trace env settings),
        (trace_of (onloadedmetadata (silent env) settings (state_of start))).
      rewrite Lt. split; [reflexivity|]. split; [reflexivity|]. now right.
    + exists (trace_of start), [], [].
      split; [now rewrite !app_nil_r|]. split; [now rewrite app_nil_r|].
      now left.
  - intros message.
    destruct (value_of start); rewrite !trace_of_mk; [|tauto].
    rewrite Lt, !in_app_iff. intros [H|[H|H]]; [tauto| |tauto].
    now apply Hnorej in H.
  - intros Hctx Haud. subst start. rewrite processVideo_start_run, Hctx.
    destruct (newAudioContext env) as [s|]; [|contradiction].
    rewrite value_of_mk, !trace_of_mk, state_of_mk.
    rewrite in_app_iff. right.
    destruct (loaded_without_audio
                env settings (setAudioContext (Some s) (equipped h)) m Hf)
      as (_ & _ & ->).
    rewrite in_app_iff. now left.
  - intros Hctx Haud Hsup Hrec. subst start.
    rewrite processVideo_start_run, Hctx.
    destruct (newAudioContext env) as [s|]; [|contradiction].
    rewrite !value_of_mk, !trace_of_mk, !state_of_mk.
    rewrite onloadedmetadata_run. cbv zeta. rewrite Hsup, Hrec.
    rewrite !value_of_mk, !trace_of_mk, !state_of_mk.
    destruct (audio_failure_track env m Hf) as [_ ->].
    split; [reflexivity|]. split; [reflexivity|]. split; [reflexivity|].
    split; [reflexivity|]. split; [|split].
    + rewrite !in_app_iff. right. right. cbn. tauto.
    + intros message. apply not_rejected.
      now rewrite !existsb_app, teardown_no_reject, audio_trace_no_reject.
    + intros type url. unfold onstop, cancel_frame, bind, gets, modify, emit,
        when. cbn. repeat split; try reflexivity.
      right. now left.
  - reflexivity.
Qed.

(** A call of [processVideo] that reaches [mediaRecorder.start()] leaves a
    live session: progress 0, angles reset, recorder recording. *)
Lemma processVideo_started (env : HostEnv) (settings : VideoSettings)
      (h : Hook) :
  value_of (processVideo env settings h) = true ->
  let h' := state_of (processVideo env settings h) in
  live h'
  /\ progress h' = 0%Z
  /\ rotationAngle1Ref h' = 0
  /\ rotationAngle2Ref h' = Math_PI / 2
  /\ mediaRecorderRef h' = Some Recording
  /\ isProcessing h' = true
  /\ processingError h' = None
  /\ processedVideoUrl h' = None
  /\ canvasRef h' = Some (mkCanvas (videoWidth env) (videoHeight env)).
Proof.
  cbv zeta. rewrite processVideo_run. cbv zeta.
  rewrite processVideo_start_run.
  destruct (getContext env); [destruct (newAudioContext env) as [s|]|];
    rewrite !value_of_mk, ?state_of_mk; try discriminate.
  rewrite onloadedmetadata_run. cbv zeta.
  destruct (isTypeSupported env mimeType);
    [destruct (newMediaRecorder env)|];
    rewrite !value_of_mk, ?state_of_mk; try discriminate.
  intros _. unfold live. cbn. repeat split; discriminate.
Qed.






Example two_frames_progress :
  progress_log DEFAULT_SETTINGS_VALUE two_frames
               (state_of (processVideo studio DEFAULT_SETTINGS_VALUE initialHook))
  = [25%Z; 50%Z].
Proof. vm_compute. reflexivity. Qed.

(** ** Pixel noise *)

Lemma noise_mark_in_bounds (rnd : nat -> Q) (c : Canvas) (i : nat) :
  (forall k, 0 <= rnd k < 1) -> (0 < width c)%Z -> (0 < height c)%Z ->
  mark_in_bounds rnd c i (noise_mark rnd c i).
Proof.
  intros Hr Hw Hh. unfold mark_in_bounds, noise_mark.
  cbn [mark_intensity mark_alpha mark_x mark_y].
  assert (0 < inject_Z (width c)) as Hw'
      by (change 0 with (inject_Z 0); now rewrite <- Zlt_Qlt).
  assert (0 < inject_Z (height c)) as Hh'
      by (change 0 with (inject_Z 0); now rewrite <- Zlt_Qlt).
  pose proof (Hr (4 * i)%nat) as [X0 X1].
  pose proof (Hr (4 * i + 1)%nat) as [Y0 Y1].
  pose proof (Hr (4 * i + 3)%nat) as [A0 A1].
  split; [|split; [|split; [|split]]].
  - destruct (Qle_bool _ 0.5); auto.
  - destruct (Qle_bool (rnd (4 * i + 2)%nat) 0.5) eqn:E; cbv iota.
    + apply Qle_bool_iff in E. split; [discriminate | intros; lra].
    + split; [intros _|reflexivity].
      apply Qnot_le_lt. intros Hle. apply Qle_bool_iff in Hle. congruence.
  - split; lra.
  - split; [apply Qmult_le_0_compat; lra|].
    setoid_replace (inject_Z (width c)) with (1 * inject_Z (width c)) at 2
      by ring.
    apply Qmult_lt_compat_r; assumption.
  - split; [apply Qmult_le_0_compat; lra|].
    setoid_replace (inject_Z (height c)) with (1 * inject_Z (height c)) at 2
      by ring.
    apply Qmult_lt_compat_r; assumption.
Qed.

Lemma fill_rects_app (a b : list Event) :
  fill_rects (a ++ b) = (fill_rects a ++ fill_rects b)%list.
Proof. apply flat_map_app. Qed.

Lemma fill_styles_app (a b : list Event) :
  fill_styles (a ++ b) = (fill_styles a ++ fill_styles b)%list.
Proof. apply flat_map_app. Qed.

Lemma fills_of_marks (ms : list NoiseMark) :
  fill_rects (map Draw (flat_map mark_cmds ms))
  = map (fun m => (mark_x m, mark_y m, 1, 1)) ms
  /\ fill_styles (map Draw (flat_map mark_cmds ms))
     = map (fun m => (mark_intensity m, mark_intensity m, mark_intensity m,
                      mark_alpha m)) ms.
Proof.
  induction ms as [|m ms [IH1 IH2]]; [split; reflexivity|].
  cbn. rewrite <- IH1, <- IH2. split; reflexivity.
Qed.

Lemma frame_fills (settings : VideoSettings) (fe : FrameEnv) (c : Canvas)
      (a1 a2 : Q) :
  enablePixelNoise settings = true ->
  let t := (map Draw (frame_draws settings fe c a1 a2)
            ++ [RequestAnimationFrame (rafId fe)])%list in
  fill_rects t
  = map (fun m => (mark_x m, mark_y m, 1, 1)) (noise_marks (random fe) c)
  /\ fill_styles t
     = map (fun m => (mark_intensity m, mark_intensity m, mark_intensity m,
                      mark_alpha m)) (noise_marks (random fe) c).
Proof.
  intros Hon. cbv zeta. unfold frame_draws. rewrite Hon.
  destruct (fills_of_marks (noise_marks (random fe) c)) as [F1 F2].
  fold (pixel_noise (random fe) c) in F1, F2.
  rewrite !map_app, !fill_rects_app, !fill_styles_app, F1, F2.
  destruct (flipHorizontal settings), (enableRotatingLines settings);
    cbn; rewrite !app_nil_r; split; reflexivity.
Qed.

(** C4, as amended.  With [enablePixelNoise] set, a frame drawn while the
    source plays on a canvas of positive size fills exactly
    floor(width * height * 0.001) rectangles, one per mark and each of
    size 1 by 1, after setting a gray fill style whose three channels are
    the intensity of the mark; that is 1000 marks on a 1000 by 1000
    canvas.  With every draw of the random source in [0,1), mark i has
    intensity 220 when its third draw exceeds 0.5 and 30 otherwise, an
    alpha in [0.02, 0.07), and coordinates x in [0, width) and y in
    [0, height), each the product of its own draw and the size; the
    coordinates are not rounded. *)
Theorem C4_pixel_noise_marks (settings : VideoSettings) (v : Video)
        (fe : FrameEnv) (h : Hook) (c : Canvas) :
  enablePixelNoise settings = true ->
  sourceVideoRef h <> None ->
  canvasRef h = Some c ->
  playing v ->
  (0 < width c)%Z -> (0 < height c)%Z ->
  (forall k, 0 <= random fe k < 1) ->
  let t := trace_of (frame settings (v, fe) h) in
  let marks := noise_marks (random fe) c in
  Z.of_nat (List.length marks)
  = Math_floor (inject_Z (width c * height c) * 0.001)
  /\ fill_rects t = map (fun m => (mark_x m, mark_y m, 1, 1)) marks
  /\ fill_styles t
     = map (fun m => (mark_intensity m, mark_intensity m, mark_intensity m,
                      mark_alpha m)) marks
  /\ List.length (fill_rects t) = List.length marks
  /\ (forall i, (i < List.length marks)%nat ->
                nth_error marks i = Some (noise_mark (random fe) c i)
                /\ mark_in_bounds (random fe) c i (noise_mark (random fe) c i))
  /\ numNoisePixels (mkCanvas 1000 1000) = 1000%Z.
Proof.
  intros Hon Hv Hc Hplay Hw Hh Hr. cbv zeta.
  assert (live h) as Hlive by (split; [exact Hv | rewrite Hc; discriminate]).
  destruct (frame_playing settings v fe h Hlive Hplay)
    as (_ & c' & Ec & ->).
  rewrite Hc in Ec. injection Ec as <-.
  destruct (frame_fills settings fe c
              (rotationAngle1Ref (rotate_state settings h))
              (rotationAngle2Ref (rotate_state settings h)) Hon) as [F1 F2].
  assert (List.length (noise_marks (random fe) c)
          = Z.to_nat (numNoisePixels c)) as Hlen
      by (unfold noise_marks; now rewrite length_map, length_seq).
  split; [|split; [exact F1|split; [exact F2|split; [|split]]]].
  - rewrite Hlen. unfold numNoisePixels.
    assert (0 <= Math_floor (inject_Z (width c * height c) * 0.001))%Z.
    { change 0%Z with (Qfloor 0). apply Qfloor_resp_le.
      apply Qmult_le_0_compat; [|discriminate].
      change 0 with (inject_Z 0). rewrite <- Zle_Qle. nia. }
    lia.
  - rewrite F1. apply length_map.
  - intros i Hi. split; [|now apply noise_mark_in_bounds].
    unfold noise_marks in *. rewrite nth_error_map.
    rewrite length_map, length_seq in Hi.
    rewrite nth_error_nth' with (d := 0%nat) by (now rewrite length_seq).
    now rewrite seq_nth.
  - reflexivity.
Qed.

(** C4, as stated, fails on the coordinates: with every draw equal to one
    third, the first mark of a frame on the 1000 by 1000 canvas is filled
    at x = 1000/3, which is no integer. *)
Lemma C4_coordinates_not_rounded :
  let t := trace_of (frame overlay_settings (playing_at 0 10, thirds) started) in
  let m := noise_mark (random thirds) (mkCanvas 1000 1000) 0 in
  nth_error (fill_rects t) 0 = Some (mark_x m, mark_y m, 1, 1)
  /\ mark_x m == 1000 # 3
  /\ ~ exists z : Z, mark_x m == inject_Z z.
Proof.
  cbv zeta. split; [vm_compute; reflexivity|]. split; [reflexivity|].
  intros [z Hz]. unfold Qeq in Hz. cbn in Hz. lia.
Qed.

Lemma C4_pixel_noise_marks_witness :
  List.length
    (fill_rects (trace_of (frame overlay_settings (playing_at 0 10, thirds)
                                 started)))
  = 1000%nat.
Proof.
  assert (sourceVideoRef started <> None) as Hv by discriminate.
  assert (playing (playing_at 0 10)) as Hp by (split; reflexivity).
  assert (forall k : nat, 0 <= random thirds k < 1) as Hr
      by (intros k; split; [discriminate | reflexivity]).
  destruct (C4_pixel_noise_marks overlay_settings (playing_at 0 10) thirds
              started (mkCanvas 1000 1000) eq_refl Hv eq_refl Hp
              eq_refl eq_refl Hr) as (_ & _ & _ & H & _).
  rewrite H. vm_compute. reflexivity.
Defined.

(** ** Runs on the hosts of the examples *)

Lemma C5_type_checked_before_recorder_witness :
  isTypeSupported no_webm mimeType = false
  /\ processingError
       (state_of (processVideo no_webm overlay_settings recording_hook))
     = Some unsupported_message.
Proof.
  split; [reflexivity|].
  destruct (C5_type_checked_before_recorder no_webm overlay_settings
                                            recording_hook) as (_ & H & _).
  destruct (H eq_refl) as (_ & _ & _ & _ & _ & _ & Hmsg).
  apply Hmsg; [reflexivity | discriminate].
Defined.

Lemma C6_audio_failure_continues_witness :
  has_audio_signal deaf = true
  /\ audio_failure (audioGraph deaf) = Some "InvalidStateError"
  /\ value_of (processVideo deaf overlay_settings initialHook)
     = value_of (processVideo (silent deaf) overlay_settings initialHook).
Proof.
  split; [reflexivity|]. split; [reflexivity|].
  exact (proj1 (C6_audio_failure_continues deaf overlay_settings initialHook
                  "InvalidStateError" eq_refl eq_refl)).
Defined.

Example teardown_of_a_session :
  cleanup recording_hook
  = (tt,
     mkHook true None None 40 None None None [] None 0 0 (Math_PI / 2),
     [CancelAnimationFrame 7; RecorderStop; VideoPause; VideoRemoveSrc;
      VideoLoad; AudioContextClose]).
Proof. reflexivity. Qed.

Example unsupported_run :
  trace_of (processVideo no_webm overlay_settings initialHook)
  = [CreateVideo; CreateCanvas; GetContext2d; NewAudioContext; VideoSetSrc;
     CreateMediaElementSource; CreateGain (100 / 100);
     CreateMediaStreamDestination;
     CaptureStream 30; IsTypeSupported mimeType;
     ConsoleError unsupported_message;
     VideoPause; VideoRemoveSrc; VideoLoad; AudioContextClose;
     Reject unsupported_message].
Proof. reflexivity. Qed.

Example degraded_run :
  trace_of (processVideo deaf overlay_settings initialHook)
  = [CreateVideo; CreateCanvas; GetContext2d; NewAudioContext; VideoSetSrc;
     CreateMediaElementSource; CreateGain (100 / 100);
     audio_warning "InvalidStateError";
     CaptureStream 30; IsTypeSupported mimeType;
     NewMediaRecorder [VideoTrack] mimeType; RecorderStart; VideoPlay].
Proof. reflexivity. Qed.

(** ** The states that the callbacks reach *)

Lemma cleaned_audio_open (h : Hook) :
  audio_open h -> audioContextRef (cleaned h) = None.
Proof.
  unfold audio_open, cleaned; cbn.
  destruct (audioContextRef h) as [[| |]|]; congruence.
Qed.

(** A frame that finds no playing source, or no canvas, does what
    [onended] does. *)
Lemma drawFrame_cases (settings : VideoSettings) (fe : FrameEnv) (h : Hook) :
  (exists v c, sourceVideoRef h = Some v /\ canvasRef h = Some c /\ playing v)
  \/ drawFrame settings fe h = onended h.
Proof.
  destruct (sourceVideoRef h) as [v|] eqn:Ev;
    [destruct (canvasRef h) as [c|] eqn:Ec;
     [destruct (paused v || ended v) eqn:Ep|]|].
  - right. unfold drawFrame, bind at 1 2, gets. rewrite Ev, Ec, Ep.
    unfold onended.
    destruct ((stop_if_recording ;; cancel_frame) h) as [[u h2] t2].
    reflexivity.
  - left. exists v, c. apply orb_false_iff in Ep. now repeat split.
  - right. unfold drawFrame, bind at 1 2, gets. rewrite Ev, Ec.
    unfold onended.
    destruct ((stop_if_recording ;; cancel_frame) h) as [[u h2] t2].
    reflexivity.
  - right. unfold drawFrame, bind at 1 2, gets. rewrite Ev.
    unfold onended.
    destruct (canvasRef h);
      destruct ((stop_if_recording ;; cancel_frame) h) as [[u h2] t2];
      reflexivity.
Qed.

Lemma onended_audio (h : Hook) :
  audioContextRef (state_of (onended h)) = audioContextRef h.
Proof.
  unfold onended, stop_if_recording, cancel_frame, bind, gets, modify, emit,
    when.
  destruct (is_recording (mediaRecorderRef h)); cbn;
    destruct (negb (animationFrameIdRef h =? 0)%Z); reflexivity.
Qed.

Lemma drawFrame_audio (settings : VideoSettings) (fe : FrameEnv) (h : Hook) :
  audioContextRef (state_of (drawFrame settings fe h)) = audioContextRef h.
Proof.
  destruct (drawFrame_cases settings fe h) as [(v & c & Ev & Ec & Hp)| ->];
    [|apply onended_audio].
  rewrite (drawFrame_playing settings fe h v c Ev Ec Hp), state_of_mk.
  unfold report_state, rotate_state.
  destruct (enableRotatingLines settings);
    (destruct (duration v) as [total|]; [destruct (Qle_bool total 0)|]);
    reflexivity.
Qed.

Lemma frame_audio (settings : VideoSettings) (input : Video * FrameEnv)
      (h : Hook) :
  audioContextRef (state_of (frame settings input h)) = audioContextRef h.
Proof.
  unfold frame, host_video, bind, modify.
  pose proof (drawFrame_audio settings (snd input)
                (setSourceVideo (option_map (fun _ => fst input)
                                            (sourceVideoRef h)) h)) as H.
  destruct (drawFrame settings (snd input) _) as [[u h1] t1].
  exact H.
Qed.

Lemma bind_state {A B : Type} (m : M A) (k : A -> M B) (h : Hook) :
  state_of (bind m k h) = state_of (k (value_of (m h)) (state_of (m h))).
Proof.
  unfold bind, state_of, value_of. destruct (m h) as [[a h1] t1]; cbn [fst snd].
  destruct (k a h1) as [[b h2] t2]. reflexivity.
Qed.

Lemma emit_state (e : Event) (h : Hook) : state_of (emit e h) = h.
Proof. reflexivity. Qed.

Lemma modify_state (f : Hook -> Hook) (h : Hook) : state_of (modify f h) = f h.
Proof. reflexivity. Qed.

Lemma stop_if_recording_audio (h : Hook) :
  audioContextRef (state_of (stop_if_recording h)) = audioContextRef h.
Proof.
  unfold stop_if_recording, bind, gets, modify, emit, when.
  destruct (is_recording (mediaRecorderRef h)); reflexivity.
Qed.

Lemma step_audio_open (h h' : Hook) : step h h' -> audio_open h -> audio_open h'.
Proof.
  intros Hstep Hopen. unfold audio_open.
  destruct Hstep.
  - rewrite processVideo_start_run. unfold audio_open in Hopen.
    destruct (getContext env); [destruct (newAudioContext env) as [s|] eqn:Es|];
      rewrite state_of_mk.
    + cbn. congruence.
    + unfold failed, cleaned, equipped, announced; cbn.
      destruct (audioContextRef h) as [[| |]|]; congruence.
    + unfold failed, cleaned, equipped, announced; cbn.
      destruct (audioContextRef h) as [[| |]|]; congruence.
  - rewrite onloadedmetadata_run. cbv zeta. unfold audio_open in Hopen.
    destruct (isTypeSupported env mimeType);
      [destruct (newMediaRecorder env)|]; rewrite state_of_mk;
      unfold failed, cleaned, prepared; cbn;
      destruct (audioContextRef h) as [[| |]|]; congruence.
  - unfold video_onerror_loading, bind, emit. rewrite fail_run.
    rewrite state_of_mk. unfold failed. cbn [state_of fst snd].
    rewrite cleaned_audio_open; [discriminate | exact Hopen].
  - unfold onplay, bind, gets, modify, emit, when.
    destruct (audioContextRef h) as [[| |]|] eqn:E; cbn; rewrite E;
      congruence.
  - now rewrite frame_audio.
  - unfold ondataavailable, when.
    destruct (0 <? blob_size data)%Z; exact Hopen.
  - now rewrite onended_audio.
  - unfold onstop, cancel_frame, bind, gets, modify, emit, when.
    cbn. destruct (negb (animationFrameIdRef h =? 0)%Z); exact Hopen.
  - unfold recorder_onerror. destruct e; unfold bind, emit; rewrite fail_run;
      rewrite state_of_mk; unfold failed;
      (rewrite cleaned_audio_open; [discriminate | exact Hopen]).
  - unfold video_onerror.
    rewrite !bind_state, !emit_state, !modify_state, cleanup_run, state_of_mk.
    rewrite cleaned_audio_open; [discriminate|].
    unfold audio_open. now rewrite stop_if_recording_audio.
  - unfold play_rejected.
    rewrite !bind_state, !emit_state, !modify_state, cleanup_run, state_of_mk.
    rewrite cleaned_audio_open; [discriminate|].
    unfold audio_open. now rewrite stop_if_recording_audio.
  - rewrite cleanup_run, state_of_mk.
    rewrite cleaned_audio_open; [discriminate | exact Hopen].
  - unfold host_audio, modify. cbn. unfold audio_open in Hopen.
    destruct (audioContextRef h) as [[| |]|]; destruct running; cbn;
      congruence.
Qed.

(** No callback leaves a closed context in the audio cell. *)
Lemma reachable_audio_open (h : Hook) : reachable h -> audio_open h.
Proof.
  induction 1 as [|h h' _ IH Hstep].
  - discriminate.
  - exact (step_audio_open h h' Hstep IH).
Qed.

(** C7.  [cleanup] never throws (it is a total function of the state).
    Run a second time, or on the hook that has no session, it makes no
    call on the host and changes nothing.  After one run the frame handle
    is cancelled and zero, the recorder cell, the chunk buffer, the source
    element and the canvas are empty, and the audio cell is empty unless
    it held an already closed context, which no state that the callbacks
    reach does.  The recorder is stopped exactly when it was recording,
    the element is paused and detached exactly when there was one, and the
    context is closed exactly when there was one that was not closed. *)
Theorem C7_cleanup_idempotent (h : Hook) :
  let once := cleanup h in
  let twice := cleanup (state_of once) in
  state_of twice = state_of once
  /\ trace_of twice = []
  /\ cleanup initialHook = (tt, initialHook, [])
  /\ released h (state_of once)
  /\ (audioContextRef h <> Some Closed ->
      audioContextRef (state_of once) = None)
  /\ (reachable h -> audioContextRef (state_of once) = None)
  /\ (In RecorderStop (trace_of once) <-> mediaRecorderRef h = Some Recording)
  /\ (In VideoPause (trace_of once) <-> sourceVideoRef h <> None)
  /\ (In VideoRemoveSrc (trace_of once) <-> sourceVideoRef h <> None)
  /\ (In AudioContextClose (trace_of once)
      <-> audioContextRef h = Some Suspended
          \/ audioContextRef h = Some Running)
  /\ (In (CancelAnimationFrame (animationFrameIdRef h)) (trace_of once)
      <-> animationFrameIdRef h <> 0%Z).
Proof.
  cbv zeta. rewrite (cleanup_run h). unfold state_of, trace_of; cbn [fst snd].
  rewrite (cleanup_run (cleaned h)); cbn [fst snd].
  destruct (cleaned_twice h) as [-> ->].
  split; [reflexivity|]. split; [reflexivity|]. split; [reflexivity|].
  split.
  { unfold released, cleaned; cbn.
    repeat split. destruct (audioContextRef h) as [[| |]|]; auto. }
  split.
  { unfold cleaned; cbn. destruct (audioContextRef h) as [[| |]|]; congruence. }
  split.
  { intros Hr. now apply cleaned_audio_open, reachable_audio_open. }
  unfold teardown.
  destruct (Z.eqb_spec (animationFrameIdRef h) 0) as [Hid|Hid];
    destruct (mediaRecorderRef h) as [[| |]|];
    destruct (sourceVideoRef h) as [v|];
    destruct (audioContextRef h) as [[| |]|];
    cbn; repeat split; intros;
    repeat match goal with
           | H : _ \/ _ |- _ => destruct H
           | H : False |- _ => destruct H
           end;
    try discriminate; try congruence; try tauto.
Qed.

Lemma recording_hook_reachable : reachable recording_hook.
Proof.
  pose (env := mkHostEnv true (Some Running) 1000 1000 false false false
                         (GraphBuilt false) (fun _ => true) None).
  pose (h0 := state_of (processVideo_start env initialHook)).
  pose (h1 := state_of (onloadedmetadata env overlay_settings h0)).
  pose (h2 := state_of (onplay 7 h1)).
  pose (h3 := state_of (frame (mkVideoSettings 100 100 100 1 100 false false
                                               false true)
                              (playing_at 4 10, thirds) h2)).
  pose (h4 := state_of (ondataavailable (mkBlob 512 0) h3)).
  assert (h4 = recording_hook) as <- by reflexivity.
  apply (reachable_step h3); [|apply step_ondataavailable].
  apply (reachable_step h2); [|apply step_frame].
  apply (reachable_step h1); [|apply step_onplay].
  apply (reachable_step h0); [|apply step_onloadedmetadata].
  apply (reachable_step initialHook);
    [apply reachable_initial | apply step_processVideo; discriminate].
Qed.

Lemma C7_cleanup_idempotent_witness :
  reachable recording_hook
  /\ audioContextRef (state_of (cleanup recording_hook)) = None.
Proof.
  split; [exact recording_hook_reachable|].
  destruct (C7_cleanup_idempotent recording_hook)
    as (_ & _ & _ & _ & _ & Hc & _).
  exact (Hc recording_hook_reachable).
Defined.

(* ===================================================================== *)
(** * Properties of the controls, of loading and of saving                *)
(* ===================================================================== *)

Lemma keys_setProp_in (k : string) (v : json) (o : JsObject) :
  In k (keys o) -> keys (setProp k v o) = keys o.
Proof.
  unfold keys. induction o as [|[k' v'] rest IH]; [intros []|].
  cbn. destruct (String.eqb k' k) eqn:E; [reflexivity|].
  intros [H|H]; [apply String.eqb_neq in E; contradiction|].
  cbn. now rewrite IH.
Qed.

Lemma setProp_fresh (k : string) (v : json) (o : JsObject) :
  ~ In k (keys o) -> setProp k v o = (o ++ [(k, v)])%list.
Proof.
  unfold keys. induction o as [|[k' v'] rest IH]; [reflexivity|].
  cbn. intros H. destruct (String.eqb k' k) eqn:E.
  - apply String.eqb_eq in E. tauto.
  - rewrite IH; [reflexivity | tauto].
Qed.

Lemma getOwn_in_keys (k : string) (o : JsObject) :
  In k (keys o) <-> getOwn k o <> None.
Proof.
  unfold keys. induction o as [|[k' v'] rest IH]; cbn.
  - tauto.
  - destruct (String.eqb k' k) eqn:E.
    + apply String.eqb_eq in E. split; [discriminate | auto].
    + apply String.eqb_neq in E. rewrite <- IH. tauto.
Qed.

(** Copying an object by spread gives the object back. *)
Lemma spread_nil (o : JsObject) : NoDup (keys o) -> spread [] (JObj o) = o.
Proof.
  unfold spread. cbn [enumerableProps].
  assert (forall acc, NoDup (keys (acc ++ o)%list) ->
                      fold_left (fun o kv => setProp (fst kv) (snd kv) o) o acc
                      = (acc ++ o)%list) as H.
  { induction o as [|[k v] rest IH]; intros acc Hnd; cbn.
    - now rewrite app_nil_r.
    - rewrite setProp_fresh.
      + rewrite IH; rewrite <- app_assoc; [reflexivity | exact Hnd].
      + unfold keys in *. rewrite map_app in Hnd. cbn in Hnd.
        apply NoDup_remove_2 in Hnd. rewrite in_app_iff in Hnd.
        intros Hin. apply Hnd. now left. }
  intros Hnd. apply (H []). exact Hnd.
Qed.

(** Two objects with the same keys that agree at every key are equal. *)
Lemma object_ext (o1 o2 : JsObject) :
  keys o1 = keys o2 -> NoDup (keys o1) ->
  (forall k, In k (keys o1) -> getOwn k o1 = getOwn k o2) ->
  o1 = o2.
Proof.
  unfold keys. revert o2.
  induction o1 as [|[k v] rest IH]; intros [|[k2 v2] rest2] Hk Hnd Hget;
    try discriminate; [reflexivity|].
  cbn in Hk. injection Hk as <- Hk.
  inversion Hnd as [|? ? Hnotin Hnd']; subst.
  assert (v = v2) as <-.
  { specialize (Hget k (or_introl eq_refl)). cbn in Hget.
    rewrite String.eqb_refl in Hget. congruence. }
  f_equal. apply IH; [exact Hk | exact Hnd'|].
  intros k' Hin. specialize (Hget k' (or_intror Hin)). cbn in Hget.
  destruct (String.eqb k k') eqn:E; [|exact Hget].
  apply String.eqb_eq in E. subst. contradiction.
Qed.

Lemma forEach_keys_keys (suggested : json) (ks : list string) :
  forall (o o' : JsObject) (b b' : bool),
    forEach_keys suggested ks (o, b) = Normal (o', b') ->
    (forall k, In k ks -> In k (keys o)) ->
    keys o' = keys o.
Proof.
  induction ks as [|key rest IH]; intros o o' b b' Hrun Hin.
  - cbn [forEach_keys] in Hrun. now injection Hrun as <- <-.
  - cbn [forEach_keys] in Hrun.
    destruct (ingest_key suggested (o, b) key) as [[o1 b1]|m] eqn:Hk;
      try discriminate.
    apply ingest_key_assign in Hk. destruct Hk as [-> ->].
    assert (keys (assign key (field_result suggested key) o) = keys o) as E.
    { destruct (field_result suggested key); cbn [assign]; [|reflexivity].
      apply keys_setProp_in, Hin. now left. }
    rewrite (IH _ _ _ _ Hrun); [exact E|].
    intros k Hk. rewrite E. apply Hin. now right.
Qed.

(** The loop never adds, drops or reorders a key. *)
Lemma ingest_keys (suggested : json) (o : JsObject) (b : bool) :
  ingest suggested = Normal (o, b) -> keys o = keys DEFAULT_VIDEO_SETTINGS.
Proof.
  intros H. apply (forEach_keys_keys _ _ _ _ _ _ H). auto.
Qed.

Lemma default_keys_cases (k : string) :
  In k (keys DEFAULT_VIDEO_SETTINGS) ->
  k = "brightness" \/ k = "contrast" \/ k = "saturation"
  \/ k = "playbackSpeed" \/ k = "volume" \/ k = "flipHorizontal"
  \/ k = "enableRotatingLines" \/ k = "enablePixelNoise"
  \/ k = "audioPreservesPitch".
Proof.
  unfold keys, DEFAULT_VIDEO_SETTINGS. simpl. intuition auto.
Qed.

(** What ingestion produces is well formed. *)
Lemma ingest_well_formed (suggested : json) (o : JsObject) (b : bool) :
  ingest suggested = Normal (o, b) -> well_formed o.
Proof.
  intros Hrun. split; [exact (ingest_keys _ _ _ Hrun)|].
  destruct (ingest_number_field _ _ _ "brightness" 0 200 100 Hrun)
    as (x1 & E1 & H1); [default_key | reflexivity | reflexivity | lra |].
  destruct (ingest_number_field _ _ _ "contrast" 0 200 100 Hrun)
    as (x2 & E2 & H2); [default_key | reflexivity | reflexivity | lra |].
  destruct (ingest_number_field _ _ _ "saturation" 0 200 100 Hrun)
    as (x3 & E3 & H3); [default_key | reflexivity | reflexivity | lra |].
  destruct (ingest_number_field _ _ _ "playbackSpeed" 0.5 2.0 1.0 Hrun)
    as (x4 & E4 & H4); [default_key | reflexivity | reflexivity | lra |].
  destruct (ingest_number_field _ _ _ "volume" 0 100 100 Hrun)
    as (x5 & E5 & H5); [default_key | reflexivity | reflexivity | lra |].
  destruct (ingest_boolean_field _ _ _ "flipHorizontal" false Hrun)
    as (x6 & E6); [default_key | reflexivity |].
  destruct (ingest_boolean_field _ _ _ "enableRotatingLines" false Hrun)
    as (x7 & E7); [default_key | reflexivity |].
  destruct (ingest_boolean_field _ _ _ "enablePixelNoise" false Hrun)
    as (x8 & E8); [default_key | reflexivity |].
  destruct (ingest_boolean_field _ _ _ "audioPreservesPitch" true Hrun)
    as (x9 & E9); [default_key | reflexivity |].
  exists (mkVideoSettings x1 x2 x3 x4 x5 x6 x7 x8 x9).
  unfold toVideoSettings, in_ranges.
  rewrite E1, E2, E3, E4, E5, E6, E7, E8, E9. cbn. tauto.
Qed.

Lemma default_well_formed : well_formed DEFAULT_VIDEO_SETTINGS.
Proof.
  split; [reflexivity|]. exists DEFAULT_SETTINGS_VALUE.
  split; [reflexivity|]. unfold in_ranges; cbn. lra.
Qed.

Lemma well_formed_NoDup (o : JsObject) : well_formed o -> NoDup (keys o).
Proof. intros [-> _]. exact keys_default_NoDup. Qed.

(** The fields of a well-formed object. *)
Lemma well_formed_fields (o : JsObject) :
  well_formed o ->
  exists s, in_ranges s
    /\ getOwn "brightness" o = Some (JNum (brightness s))
    /\ getOwn "contrast" o = Some (JNum (contrast s))
    /\ getOwn "saturation" o = Some (JNum (saturation s))
    /\ getOwn "playbackSpeed" o = Some (JNum (playbackSpeed s))
    /\ getOwn "volume" o = Some (JNum (volume s))
    /\ getOwn "flipHorizontal" o = Some (JBool (flipHorizontal s))
    /\ getOwn "enableRotatingLines" o = Some (JBool (enableRotatingLines s))
    /\ getOwn "enablePixelNoise" o = Some (JBool (enablePixelNoise s))
    /\ getOwn "audioPreservesPitch" o = Some (JBool (audioPreservesPitch s)).
Proof.
  intros [_ (s & Hs & Hr)]. exists s. split; [exact Hr|].
  unfold toVideoSettings in Hs.
  destruct (getOwn "brightness" o) as [[| | x1 | | |]|]; try discriminate.
  destruct (getOwn "contrast" o) as [[| | x2 | | |]|]; try discriminate.
  destruct (getOwn "saturation" o) as [[| | x3 | | |]|]; try discriminate.
  destruct (getOwn "playbackSpeed" o) as [[| | x4 | | |]|]; try discriminate.
  destruct (getOwn "volume" o) as [[| | x5 | | |]|]; try discriminate.
  destruct (getOwn "flipHorizontal" o) as [[| x6 | | | |]|]; try discriminate.
  destruct (getOwn "enableRotatingLines" o) as [[| x7 | | | |]|];
    try discriminate.
  destruct (getOwn "enablePixelNoise" o) as [[| x8 | | | |]|];
    try discriminate.
  destruct (getOwn "audioPreservesPitch" o) as [[| x9 | | | |]|];
    try discriminate.
  cbn in Hs. injection Hs as <-. cbn. repeat split; reflexivity.
Qed.

Lemma toVideoSettings_fields (o : JsObject) (s : VideoSettings) :
  getOwn "brightness" o = Some (JNum (brightness s)) ->
  getOwn "contrast" o = Some (JNum (contrast s)) ->
  getOwn "saturation" o = Some (JNum (saturation s)) ->
  getOwn "playbackSpeed" o = Some (JNum (playbackSpeed s)) ->
  getOwn "volume" o = Some (JNum (volume s)) ->
  getOwn "flipHorizontal" o = Some (JBool (flipHorizontal s)) ->
  getOwn "enableRotatingLines" o = Some (JBool (enableRotatingLines s)) ->
  getOwn "enablePixelNoise" o = Some (JBool (enablePixelNoise s)) ->
  getOwn "audioPreservesPitch" o = Some (JBool (audioPreservesPitch s)) ->
  toVideoSettings o = Some s.
Proof.
  intros E1 E2 E3 E4 E5 E6 E7 E8 E9. unfold toVideoSettings.
  rewrite E1, E2, E3, E4, E5, E6, E7, E8, E9. cbn. now destruct s.
Qed.

Lemma with_field_set (o : JsObject) (key : string) (v : json) :
  NoDup (keys o) -> with_field o key v = setProp key v o.
Proof. intros H. unfold with_field. now rewrite spread_nil. Qed.

Ltac fields := cbn [brightness contrast saturation playbackSpeed volume flipHorizontal 
    enableRotatingLines enablePixelNoise audioPreservesPitch].
Ltac fields_in H := cbn [brightness contrast saturation playbackSpeed volume flipHorizontal 
    enableRotatingLines enablePixelNoise audioPreservesPitch] in H.

Ltac other_field :=
  rewrite getOwn_setProp_other by discriminate; assumption.

Lemma slider_cases (key : string) (lo hi : Q) :
  lookup_range key sliders = Some (lo, hi) ->
  (key = "brightness" /\ lo = 0 /\ hi = 200)
  \/ (key = "contrast" /\ lo = 0 /\ hi = 200)
  \/ (key = "saturation" /\ lo = 0 /\ hi = 200)
  \/ (key = "playbackSpeed" /\ lo = 0.5 /\ hi = 2.0)
  \/ (key = "volume" /\ lo = 0 /\ hi = 100).
Proof.
  unfold sliders, lookup_range.
  repeat match goal with
         | |- context [String.eqb ?a key] =>
             destruct (String.eqb a key) eqn:?E;
             [ apply String.eqb_eq in E; subst key; intros [= <- <-]; tauto
             | clear E ]
         end.
  discriminate.
Qed.

Lemma slider_well_formed (key : string) (lo hi value : Q) (o : JsObject) :
  well_formed o ->
  lookup_range key sliders = Some (lo, hi) ->
  lo <= value <= hi ->
  well_formed (handleSliderChange key value o).
Proof.
  intros Hwf Hr Hv. pose proof (well_formed_NoDup _ Hwf) as Hnd.
  unfold handleSliderChange. rewrite with_field_set by exact Hnd.
  destruct (well_formed_fields _ Hwf)
    as (s & Hs & E1 & E2 & E3 & E4 & E5 & E6 & E7 & E8 & E9).
  destruct Hwf as [Hk _].
  destruct s as [x1 x2 x3 x4 x5 x6 x7 x8 x9]. unfold in_ranges in *.
  fields_in E1; fields_in E2; fields_in E3; fields_in E4; fields_in E5;
  fields_in E6; fields_in E7; fields_in E8; fields_in E9; fields_in Hs.
  destruct (slider_cases _ _ _ Hr)
    as [(-> & -> & ->)|[(-> & -> & ->)|[(-> & -> & ->)|[(-> & -> & ->)
                                                       |(-> & -> & ->)]]]].
  - split; [rewrite keys_setProp_in; [exact Hk | rewrite Hk; default_key]|].
    exists (mkVideoSettings value x2 x3 x4 x5 x6 x7 x8 x9).
    split; [|unfold in_ranges; fields; tauto].
    apply toVideoSettings_fields; fields;
      try apply getOwn_setProp_same; other_field.
  - split; [rewrite keys_setProp_in; [exact Hk | rewrite Hk; default_key]|].
    exists (mkVideoSettings x1 value x3 x4 x5 x6 x7 x8 x9).
    split; [|unfold in_ranges; fields; tauto].
    apply toVideoSettings_fields; fields;
      try apply getOwn_setProp_same; other_field.
  - split; [rewrite keys_setProp_in; [exact Hk | rewrite Hk; default_key]|].
    exists (mkVideoSettings x1 x2 value x4 x5 x6 x7 x8 x9).
    split; [|unfold in_ranges; fields; tauto].
    apply toVideoSettings_fields; fields;
      try apply getOwn_setProp_same; other_field.
  - split; [rewrite keys_setProp_in; [exact Hk | rewrite Hk; default_key]|].
    exists (mkVideoSettings x1 x2 x3 value x5 x6 x7 x8 x9).
    split; [|unfold in_ranges; fields; tauto].
    apply toVideoSettings_fields; fields;
      try apply getOwn_setProp_same; other_field.
  - split; [rewrite keys_setProp_in; [exact Hk | rewrite Hk; default_key]|].
    exists (mkVideoSettings x1 x2 x3 x4 value x6 x7 x8 x9).
    split; [|unfold in_ranges; fields; tauto].
    apply toVideoSettings_fields; fields;
      try apply getOwn_setProp_same; other_field.
Qed.

Lemma toggle_well_formed (key : string) (b : bool) (o : JsObject) :
  well_formed o -> In key toggles ->
  well_formed (handleToggleChange key b o).
Proof.
  intros Hwf Hin. pose proof (well_formed_NoDup _ Hwf) as Hnd.
  unfold handleToggleChange. rewrite with_field_set by exact Hnd.
  destruct (well_formed_fields _ Hwf)
    as (s & Hs & E1 & E2 & E3 & E4 & E5 & E6 & E7 & E8 & E9).
  destruct Hwf as [Hk _].
  destruct s as [x1 x2 x3 x4 x5 x6 x7 x8 x9]. unfold in_ranges in *.
  fields_in E1; fields_in E2; fields_in E3; fields_in E4; fields_in E5;
  fields_in E6; fields_in E7; fields_in E8; fields_in E9; fields_in Hs.
  destruct Hin as [<-|[<-|[<-|[<-|[]]]]].
  - split; [rewrite keys_setProp_in; [exact Hk | rewrite Hk; default_key]|].
    exists (mkVideoSettings x1 x2 x3 x4 x5 b x7 x8 x9).
    split; [|unfold in_ranges; fields; tauto].
    apply toVideoSettings_fields; fields;
      try apply getOwn_setProp_same; other_field.
  - split; [rewrite keys_setProp_in; [exact Hk | rewrite Hk; default_key]|].
    exists (mkVideoSettings x1 x2 x3 x4 x5 x6 b x8 x9).
    split; [|unfold in_ranges; fields; tauto].
    apply toVideoSettings_fields; fields;
      try apply getOwn_setProp_same; other_field.
  - split; [rewrite keys_setProp_in; [exact Hk | rewrite Hk; default_key]|].
    exists (mkVideoSettings x1 x2 x3 x4 x5 x6 x7 b x9).
    split; [|unfold in_ranges; fields; tauto].
    apply toVideoSettings_fields; fields;
      try apply getOwn_setProp_same; other_field.
  - split; [rewrite keys_setProp_in; [exact Hk | rewrite Hk; default_key]|].
    exists (mkVideoSettings x1 x2 x3 x4 x5 x6 x7 x8 b).
    split; [|unfold in_ranges; fields; tauto].
    apply toVideoSettings_fields; fields;
      try apply getOwn_setProp_same; other_field.
Qed.

Lemma response_settings (parse : string -> Completion json) (r : ApiResult)
      (a : AppState) :
  currentSettings (handleSuggestSettings_response parse r a)
  = match suggestion_try parse r with
    | Normal (o, _) => o
    | Throws _ => currentSettings a
    end.
Proof.
  unfold handleSuggestSettings_response.
  destruct (suggestion_try parse r) as [[o [|]]|m]; reflexivity.
Qed.

Lemma suggestion_try_ingest (parse : string -> Completion json)
      (r : ApiResult) (o : JsObject) (b : bool) :
  suggestion_try parse r = Normal (o, b) ->
  exists suggested, ingest suggested = Normal (o, b).
Proof.
  unfold suggestion_try. destruct r as [m|[text|]]; try discriminate.
  destruct (parse (fenced_json text)) as [suggested|m]; try discriminate.
  intros H. now exists suggested.
Qed.

Lemma settings_step_well_formed (parse : string -> Completion json)
      (a b : AppState) :
  settings_step parse a b ->
  well_formed (currentSettings a) -> well_formed (currentSettings b).
Proof.
  intros Hstep Hwf. destruct Hstep as [key lo hi value Hr Hv|key Hin| |ai|r].
  - cbn. now apply (slider_well_formed key lo hi).
  - cbn. now apply toggle_well_formed.
  - cbn. exact default_well_formed.
  - unfold handleSuggestSettings_request.
    destruct (negb ai); [exact Hwf|].
    destruct (is_empty _); exact Hwf.
  - rewrite response_settings.
    destruct (suggestion_try parse r) as [[o v]|m] eqn:E; [|exact Hwf].
    destruct (suggestion_try_ingest _ _ _ _ E) as [s Hs].
    exact (ingest_well_formed _ _ _ Hs).
Qed.

(** X1.  Starting from well-formed settings (the defaults, say), whatever
    the user does with the sliders within their bounds, the toggles and
    the reset button, and whatever the assistant answers, [currentSettings]
    stays an object with exactly the nine keys of the defaults, every
    number within its documented range and every flag a boolean. *)
Theorem settings_stay_well_formed (parse : string -> Completion json)
        (a b : AppState) :
  well_formed (currentSettings a) ->
  settings_steps parse a b ->
  well_formed (currentSettings b).
Proof.
  intros Hwf Hsteps. induction Hsteps as [|b c _ IH Hstep]; [exact Hwf|].
  exact (settings_step_well_formed parse b c Hstep IH).
Qed.

Lemma settings_stay_well_formed_witness :
  let parse := fun _ : string => Normal JNull in
  let a := mkAppState None DEFAULT_VIDEO_SETTINGS "" false None in
  let b := handleSettingsChange
             (handleSliderChange "volume" 40 (currentSettings a)) a in
  let c := handleSettingsChange
             (toggle_click "flipHorizontal" (currentSettings b)) b in
  well_formed (currentSettings c).
Proof.
  intros parse a b c.
  apply (settings_stay_well_formed parse a c).
  - exact default_well_formed.
  - apply (steps_more parse a b c).
    + apply (steps_more parse a a b); [apply steps_none|].
      apply (slider_moved parse a "volume" 0 100 40); [reflexivity | lra].
    + apply (toggle_clicked parse b "flipHorizontal"). simpl. tauto.
Defined.

Lemma Qcompare_refl (x : Q) : (x ?= x) = Eq.
Proof. apply Qeq_alt. reflexivity. Qed.

Ltac compare_facts :=
  repeat match goal with
         | H : (_ ?= _) = Eq |- _ => apply Qeq_alt in H
         | H : (_ ?= _) = Lt |- _ => apply Qlt_alt in H
         | H : (_ ?= _) = Gt |- _ => apply Qgt_alt in H
         end.

(** Clamping twice is clamping once, as an identity of values. *)
Lemma clamp_idempotent (lo hi q : Q) :
  lo <= hi -> clamp (lo, hi) (clamp (lo, hi) q) = clamp (lo, hi) q.
Proof.
  intros Hle. unfold clamp, Qmax, Qmin, GenericMinMax.gmax, GenericMinMax.gmin.
  cbn [fst snd].
  repeat (match goal with
          | |- context [?a ?= ?a] => rewrite (Qcompare_refl a)
          | H : (?a ?= ?b) = _ |- context [?a ?= ?b] => rewrite H
          | |- context [?a ?= ?b] =>
              is_var a; is_var b; destruct (a ?= b) eqn:?
          end; cbv iota);
    try reflexivity; exfalso; compare_facts; lra.
Qed.

(** On the object that ingestion built, every field is accepted as it
    is. *)
Lemma ingested_field_settled (suggested : json) (o : JsObject) (b : bool)
      (k : string) :
  ingest suggested = Normal (o, b) ->
  In k (keys DEFAULT_VIDEO_SETTINGS) ->
  field_result (JObj o) k = getOwn k o /\ getOwn k o <> None.
Proof.
  intros Hrun Hin.
  assert (getProp (JObj o) k = getOwn k o) as Hp by reflexivity.
  pose proof (ingest_get _ _ _ _ Hrun Hin) as Hget.
  unfold field_result in *. rewrite Hp.
  apply default_keys_cases in Hin.
  destruct Hin as [->|[->|[->|[->|[->|[->|[->|[->| ->]]]]]]]];
    cbn [getOwn DEFAULT_VIDEO_SETTINGS String.eqb Ascii.eqb Bool.eqb typeof
         lookup_range ranges] in Hget |- *;
    destruct (getProp suggested _) as [[| x | x | x | x | x]|];
    cbn [typeof String.eqb Ascii.eqb Bool.eqb] in Hget; rewrite Hget;
    cbn [typeof String.eqb Ascii.eqb Bool.eqb];
    try (split; [reflexivity | discriminate]);
    (split; [|discriminate]); rewrite clamp_idempotent by lra; reflexivity.
Qed.

(** X2.  Ingestion is idempotent: fed the settings object it has just
    built, the validation loop of [handleSuggestSettings] returns that same
    object and reports every field valid. *)
Theorem ingest_idempotent (suggested : json) (o : JsObject) (b : bool) :
  ingest suggested = Normal (o, b) ->
  ingest (JObj o) = Normal (o, true).
Proof.
  intros Hrun.
  assert (getOwn "hasOwnProperty" o = None) as Hown.
  { destruct (getOwn "hasOwnProperty" o) eqn:E; [|reflexivity].
    assert (In "hasOwnProperty" (keys o)) as Hin
        by (apply getOwn_in_keys; congruence).
    rewrite (ingest_keys _ _ _ Hrun) in Hin.
    apply default_keys_cases in Hin.
    repeat (destruct Hin as [Hin|Hin]; [discriminate|]). discriminate. }
  destruct (ingest_total (JObj o)) as [(o' & b' & Hrun')|(m & _ & Hthrow)].
  - rewrite Hrun'. f_equal. f_equal.
    + apply object_ext.
      * rewrite (ingest_keys _ _ _ Hrun'). symmetry.
        exact (ingest_keys _ _ _ Hrun).
      * rewrite (ingest_keys _ _ _ Hrun'). exact keys_default_NoDup.
      * intros k Hin. rewrite (ingest_keys _ _ _ Hrun') in Hin.
        rewrite (ingest_get _ _ _ _ Hrun' Hin).
        destruct (ingested_field_settled _ _ _ k Hrun Hin) as [-> Hsome].
        destruct (getOwn k o); [reflexivity | contradiction].
    + unfold ingest in Hrun'. rewrite (forEach_keys_flag _ _ _ _ _ _ Hrun').
      cbn [andb]. apply forallb_forall. intros k Hin.
      destruct (ingested_field_settled _ _ _ k Hrun Hin) as [-> Hsome].
      destruct (getOwn k o); [reflexivity | contradiction].
  - specialize (Hthrow "brightness"). cbn in Hthrow. rewrite Hown in Hthrow.
    destruct (getOwn "brightness" o); discriminate.
Qed.

Lemma ingest_idempotent_witness :
  ingest (JObj [("brightness", JNum 500); ("volume", JStr "loud")])
  = Normal (setProp "brightness" (JNum 200) DEFAULT_VIDEO_SETTINGS, false)
  /\ ingest (JObj (setProp "brightness" (JNum 200) DEFAULT_VIDEO_SETTINGS))
     = Normal (setProp "brightness" (JNum 200) DEFAULT_VIDEO_SETTINGS, true).
Proof.
  assert (ingest (JObj [("brightness", JNum 500); ("volume", JStr "loud")])
          = Normal (setProp "brightness" (JNum 200) DEFAULT_VIDEO_SETTINGS,
                    false)) as H by reflexivity.
  split; [exact H|].
  exact (ingest_idempotent _ _ _ H).
Defined.

Lemma setProp_twice (k : string) (v w : json) (o : JsObject) :
  setProp k v (setProp k w o) = setProp k v o.
Proof.
  induction o as [|[k' v'] rest IH]; cbn.
  - now rewrite String.eqb_refl.
  - destruct (String.eqb k' k) eqn:E; cbn; rewrite E; [reflexivity|].
    now rewrite IH.
Qed.

Lemma setProp_same_value (k : string) (v : json) (o : JsObject) :
  getOwn k o = Some v -> setProp k v o = o.
Proof.
  induction o as [|[k' v'] rest IH]; cbn; [discriminate|].
  destruct (String.eqb k' k) eqn:E.
  - now intros [= ->].
  - intros H. now rewrite IH.
Qed.

Lemma keys_setProp_NoDup (k : string) (v : json) (o : JsObject) :
  NoDup (keys o) -> NoDup (keys (setProp k v o)).
Proof.
  intros Hnd. destruct (in_dec string_dec k (keys o)) as [Hin|Hout].
  - now rewrite keys_setProp_in.
  - rewrite setProp_fresh by exact Hout. unfold keys in *.
    rewrite map_app. cbn.
    apply (NoDup_Add (a := k) (l := (map fst o ++ [])%list)).
    + apply Add_app.
    + rewrite app_nil_r. split; [exact Hnd | exact Hout].
Qed.

(** X3.  A change made by a control touches its own key and nothing
    else: the object handed to [onSettingsChange] holds the new value at
    that key, every other key reads as before, and the keys and their
    order are those of the settings it was built from. *)
Theorem control_changes_one_field (settings : JsObject) (key : string)
        (value : json) :
  NoDup (keys settings) ->
  In key (keys settings) ->
  getOwn key (with_field settings key value) = Some value
  /\ (forall k, k <> key ->
                getOwn k (with_field settings key value) = getOwn k settings)
  /\ keys (with_field settings key value) = keys settings.
Proof.
  intros Hnd Hin. rewrite with_field_set by exact Hnd. repeat split.
  - apply getOwn_setProp_same.
  - intros k Hk. apply getOwn_setProp_other. congruence.
  - now apply keys_setProp_in.
Qed.

Lemma control_changes_one_field_witness :
  getOwn "volume" (with_field DEFAULT_VIDEO_SETTINGS "volume" (JNum 40))
  = Some (JNum 40)
  /\ (forall k, k <> "volume" ->
        getOwn k (with_field DEFAULT_VIDEO_SETTINGS "volume" (JNum 40))
        = getOwn k DEFAULT_VIDEO_SETTINGS)
  /\ keys (with_field DEFAULT_VIDEO_SETTINGS "volume" (JNum 40))
     = keys DEFAULT_VIDEO_SETTINGS.
Proof.
  apply (control_changes_one_field DEFAULT_VIDEO_SETTINGS "volume" (JNum 40)).
  - exact keys_default_NoDup.
  - simpl. tauto.
Defined.

(** X4.  Clicking a toggle twice restores the settings object, when the
    field holds a boolean. *)
Theorem toggle_click_twice (key : string) (b : bool) (settings : JsObject) :
  NoDup (keys settings) ->
  getOwn key settings = Some (JBool b) ->
  getOwn key (toggle_click key settings) = Some (JBool (negb b))
  /\ toggle_click key (toggle_click key settings) = settings.
Proof.
  intros Hnd Hget.
  assert (toggle_click key settings = setProp key (JBool (negb b)) settings)
    as E1.
  { unfold toggle_click, handleToggleChange. rewrite with_field_set by exact Hnd.
    now rewrite Hget. }
  split; [rewrite E1; apply getOwn_setProp_same|].
  unfold toggle_click at 1. unfold handleToggleChange. rewrite E1.
  rewrite with_field_set by now apply keys_setProp_NoDup.
  rewrite getOwn_setProp_same. cbn [truthy]. rewrite negb_involutive.
  rewrite setProp_twice. now apply setProp_same_value.
Qed.

Lemma toggle_click_twice_witness :
  getOwn "enablePixelNoise"
         (toggle_click "enablePixelNoise" DEFAULT_VIDEO_SETTINGS)
  = Some (JBool (negb false))
  /\ toggle_click "enablePixelNoise"
       (toggle_click "enablePixelNoise" DEFAULT_VIDEO_SETTINGS)
     = DEFAULT_VIDEO_SETTINGS.
Proof.
  apply (toggle_click_twice "enablePixelNoise" false DEFAULT_VIDEO_SETTINGS).
  - exact keys_default_NoDup.
  - reflexivity.
Defined.

(** ** Loading and saving the settings *)

Lemma getOwn_app (k : string) (o1 o2 : JsObject) :
  getOwn k (o1 ++ o2)%list
  = match getOwn k o1 with Some v => Some v | None => getOwn k o2 end.
Proof.
  induction o1 as [|[k' v'] rest IH]; cbn; [reflexivity|].
  destruct (String.eqb k' k); [reflexivity | exact IH].
Qed.

Lemma getOwn_setProp (k k' : string) (v : json) (o : JsObject) :
  getOwn k (setProp k' v o)
  = if String.eqb k' k then Some v else getOwn k o.
Proof.
  destruct (String.eqb k' k) eqn:E.
  - apply String.eqb_eq in E. subst. apply getOwn_setProp_same.
  - apply String.eqb_neq in E. now apply getOwn_setProp_other.
Qed.

(** Reading a spread: the last property of the source with that key, or
    else the property of the target. *)
Lemma getOwn_fold_setProp (k : string) (props : JsObject) :
  forall target,
    getOwn k (fold_left (fun o kv => setProp (fst kv) (snd kv) o) props target)
    = match getOwn k (rev props) with
      | Some v => Some v
      | None => getOwn k target
      end.
Proof.
  induction props as [|[k' v'] rest IH]; intros target; [reflexivity|].
  cbn [fold_left fst snd rev]. rewrite IH, getOwn_app, getOwn_setProp.
  destruct (getOwn k (rev rest)); [reflexivity|]. cbn.
  destruct (String.eqb k' k); reflexivity.
Qed.

Lemma getOwn_absent (k : string) (o : JsObject) :
  ~ In k (keys o) -> getOwn k o = None.
Proof.
  intros H. destruct (getOwn k o) eqn:E; [|reflexivity].
  exfalso. apply H, getOwn_in_keys. congruence.
Qed.

Lemma getOwn_rev (k : string) (o : JsObject) :
  NoDup (keys o) -> getOwn k (rev o) = getOwn k o.
Proof.
  unfold keys. induction o as [|[k' v'] rest IH]; intros Hnd; [reflexivity|].
  cbn in Hnd. inversion Hnd as [|? ? Hout Hnd']; subst.
  cbn [rev]. rewrite getOwn_app, (IH Hnd'). cbn.
  destruct (String.eqb k' k) eqn:E; [|now destruct (getOwn k rest)].
  apply String.eqb_eq in E. subst.
  now rewrite (getOwn_absent k rest Hout).
Qed.

Lemma getOwn_spread (k : string) (target fields : JsObject) :
  NoDup (keys fields) ->
  getOwn k (spread target (JObj fields))
  = match getOwn k fields with
    | Some v => Some v
    | None => getOwn k target
    end.
Proof.
  intros Hnd. unfold spread. cbn [enumerableProps].
  now rewrite getOwn_fold_setProp, getOwn_rev.
Qed.

Lemma getOwn_spread_absent (k : string) (target : JsObject) (source : json) :
  ~ In k (keys (enumerableProps source)) ->
  getOwn k (spread target source) = getOwn k target.
Proof.
  intros Hout. unfold spread. rewrite getOwn_fold_setProp.
  rewrite getOwn_absent; [reflexivity|].
  unfold keys in *. now rewrite map_rev, <- in_rev.
Qed.

(** An index key is empty or begins with a digit. *)
Lemma index_key_digit (i : nat) :
  match index_key i with
  | EmptyString => True
  | String c _ => (48 <=? nat_of_ascii c)%nat && (nat_of_ascii c <=? 57)%nat
                  = true
  end.
Proof.
  unfold index_key. destruct (Nat.to_uint i); cbn; reflexivity || exact I.
Qed.

Lemma indexed_keys {A : Type} (f : A -> json) (l : list A) :
  forall i k, In k (keys (indexed f i l)) -> exists j, k = index_key j.
Proof.
  unfold keys. induction l as [|x rest IH]; intros i k; cbn; [intros []|].
  intros [<-|H]; [now exists i | exact (IH _ _ H)].
Qed.

Lemma default_key_not_index (k : string) (source : json) :
  In k (keys DEFAULT_VIDEO_SETTINGS) ->
  (forall fields, source <> JObj fields) ->
  ~ In k (keys (enumerableProps source)).
Proof.
  intros Hk Hobj Hin.
  assert (exists j, k = index_key j) as [j ->].
  { destruct source as [| | | s | items | fields]; cbn in Hin;
      try contradiction.
    - exact (indexed_keys _ _ _ _ Hin).
    - exact (indexed_keys _ _ _ _ Hin).
    - now contradiction (Hobj fields). }
  pose proof (index_key_digit j) as Hd.
  apply default_keys_cases in Hk.
  destruct Hk as [E|[E|[E|[E|[E|[E|[E|[E|E]]]]]]]];
    rewrite E in Hd; cbn in Hd; discriminate.
Qed.

(** X5.  A stored text that does not parse to an object of named fields
    (no text, an empty text, a text that [JSON.parse] rejects, or one that
    parses to [null], a boolean, a number, a string or an array) leaves
    every setting at its default when the application starts. *)
Theorem load_without_object_gives_defaults
        (parse : string -> Completion json)
        (getItem : Completion (option string)) :
  (forall text fields,
      getItem = Normal (Some text) -> parse text <> Normal (JObj fields)) ->
  toVideoSettings (initialSettings parse getItem) = Some DEFAULT_SETTINGS_VALUE.
Proof.
  intros Hobj. unfold initialSettings.
  destruct getItem as [[text|]|m]; try reflexivity.
  destruct (is_empty text); [reflexivity|].
  destruct (parse text) as [parsed|m] eqn:Hp; [|reflexivity].
  assert (forall fields, parsed <> JObj fields) as Hno.
  { intros fields ->. exact (Hobj text fields eq_refl Hp). }
  apply toVideoSettings_fields;
    (rewrite getOwn_spread_absent;
     [reflexivity | apply default_key_not_index; [default_key | exact Hno]]).
Qed.

Lemma load_without_object_gives_defaults_witness :
  toVideoSettings
    (initialSettings (fun _ => Normal (JArr [JNum 1; JStr "x"]))
                     (Normal (Some "saved")))
  = Some DEFAULT_SETTINGS_VALUE.
Proof.
  apply (load_without_object_gives_defaults
           (fun _ => Normal (JArr [JNum 1; JStr "x"]))
           (Normal (Some "saved"))).
  intros text fields _. discriminate.
Defined.

(** X6.  A stored object is laid over the defaults field by field, as it
    is: a key that the stored object has reads as stored, whatever its
    value, and any other key reads as in the defaults.  So every key of
    the defaults is present after loading. *)
Theorem load_overrides_defaults (parse : string -> Completion json)
        (text : string) (fields : JsObject) (k : string) :
  is_empty text = false ->
  parse text = Normal (JObj fields) ->
  NoDup (keys fields) ->
  getOwn k (initialSettings parse (Normal (Some text)))
  = match getOwn k fields with
    | Some v => Some v
    | None => getOwn k DEFAULT_VIDEO_SETTINGS
    end.
Proof.
  intros He Hp Hnd. unfold initialSettings. rewrite He, Hp.
  now apply getOwn_spread.
Qed.

Lemma load_overrides_defaults_witness :
  getOwn "volume"
    (initialSettings (fun _ => Normal (JObj [("volume", JNum 250)]))
                     (Normal (Some "saved")))
  = match getOwn "volume" [("volume", JNum 250)] with
    | Some v => Some v
    | None => getOwn "volume" DEFAULT_VIDEO_SETTINGS
    end.
Proof.
  apply (load_overrides_defaults
           (fun _ => Normal (JObj [("volume", JNum 250)])) "saved"
           [("volume", JNum 250)] "volume").
  - reflexivity.
  - reflexivity.
  - repeat constructor. simpl. tauto.
Defined.

Lemma fold_setProp_present (k : string) (props : JsObject) :
  forall target,
    getOwn k target <> None ->
    getOwn k (fold_left (fun o kv => setProp (fst kv) (snd kv) o) props target)
    <> None.
Proof.
  intros target H. rewrite getOwn_fold_setProp.
  destruct (getOwn k (rev props)); [discriminate | exact H].
Qed.

(** X7.  Whatever the storage holds and whatever [JSON.parse] does with
    it, every key of the defaults is present in the initial settings. *)
Theorem load_keeps_every_default_key (parse : string -> Completion json)
        (getItem : Completion (option string)) (k : string) :
  In k (keys DEFAULT_VIDEO_SETTINGS) ->
  getOwn k (initialSettings parse getItem) <> None.
Proof.
  intros Hin.
  assert (getOwn k DEFAULT_VIDEO_SETTINGS <> None) as Hd
      by now apply getOwn_in_keys.
  unfold initialSettings.
  destruct getItem as [[text|]|m]; try exact Hd.
  destruct (is_empty text); [exact Hd|].
  destruct (parse text) as [parsed|m]; [|exact Hd].
  now apply fold_setProp_present.
Qed.

Lemma load_keeps_every_default_key_witness :
  getOwn "contrast"
    (initialSettings (fun _ => Normal (JObj [("volume", JNum 250)]))
                     (Normal (Some "saved")))
  <> None.
Proof.
  apply (load_keeps_every_default_key
           (fun _ => Normal (JObj [("volume", JNum 250)]))
           (Normal (Some "saved")) "contrast").
  simpl. tauto.
Defined.

Lemma keys_fold_setProp (props : JsObject) :
  forall target,
    (forall k, In k (keys props) -> In k (keys target)) ->
    keys (fold_left (fun o kv => setProp (fst kv) (snd kv) o) props target)
    = keys target.
Proof.
  induction props as [|[k v] rest IH]; intros target Hin; [reflexivity|].
  cbn [fold_left fst snd].
  assert (keys (setProp k v target) = keys target) as E
      by (apply keys_setProp_in, Hin; now left).
  rewrite IH; [exact E|].
  intros k' Hk'. rewrite E. apply Hin. now right.
Qed.

(** X8.  Saving and loading round-trips: when [setItem] succeeds and the
    host's [JSON.parse] reads back what its [JSON.stringify] wrote, the
    settings that the next start of the application loads are the settings
    that were saved, for every settings object with the keys of the
    defaults. *)
Theorem save_then_load (parse : string -> Completion json)
        (stringify : JsObject -> string) (store : option string)
        (settings : JsObject) :
  keys settings = keys DEFAULT_VIDEO_SETTINGS ->
  is_empty (stringify settings) = false ->
  parse (stringify settings) = Normal (JObj settings) ->
  initialSettings parse (Normal (saveSettings stringify true store settings))
  = settings.
Proof.
  intros Hk He Hp. unfold saveSettings, initialSettings. rewrite He, Hp.
  assert (NoDup (keys settings)) as Hnd
      by (rewrite Hk; exact keys_default_NoDup).
  assert (keys (spread DEFAULT_VIDEO_SETTINGS (JObj settings))
          = keys DEFAULT_VIDEO_SETTINGS) as Hks.
  { unfold spread. cbn [enumerableProps]. apply keys_fold_setProp.
    intros k. now rewrite Hk. }
  apply object_ext.
  - now rewrite Hks.
  - rewrite Hks. exact keys_default_NoDup.
  - intros k Hin. rewrite getOwn_spread by exact Hnd.
    rewrite Hks, <- Hk in Hin. apply getOwn_in_keys in Hin.
    destruct (getOwn k settings); [reflexivity | contradiction].
Qed.

Lemma save_then_load_witness :
  let settings := setProp "volume" (JNum 40) DEFAULT_VIDEO_SETTINGS in
  initialSettings (fun _ => Normal (JObj settings))
    (Normal (saveSettings (fun _ => "text") true None settings))
  = settings.
Proof.
  intros settings.
  apply (save_then_load (fun _ => Normal (JObj settings)) (fun _ => "text")
                        None settings); reflexivity.
Defined.

(* ===================================================================== *)
(** * Properties of the request guard, the download name and the fence    *)
(* ===================================================================== *)

(** ** The guards of a suggestion request *)







(** ** The shape of the download name *)

Lemma split_nonempty (sep : ascii) (s : string) : split sep s <> [].
Proof.
  destruct s as [|c rest]; cbn; [discriminate|].
  destruct (Ascii.eqb c sep); [discriminate|].
  destruct (split sep rest); discriminate.
Qed.

(** The first segment has no dot and begins the string. *)
Lemma split_head (s : string) :
  let stem := hd EmptyString (split "." s) in
  has_dot stem = false
  /\ (s = stem \/ exists rest, s = stem ++ String "." rest).
Proof.
  induction s as [|c rest IH]; cbn [split].
  - split; [reflexivity | now left].
  - destruct (Ascii.eqb c ".") eqn:E.
    + cbn. split; [reflexivity|]. right. exists rest.
      apply Ascii.eqb_eq in E. now subst.
    + destruct IH as [IH1 IH2].
      destruct (split "." rest) as [|h t] eqn:Es;
        [now contradiction (split_nonempty "." rest)|].
      cbn [hd has_dot] in *. rewrite IH1, E. split; [reflexivity|].
      destruct IH2 as [->|[r ->]]; [now left|]. right. now exists r.
Qed.

(** X10.  The download name is always [modified_<base>.webm] with a base
    that is not empty and holds no dot: the base is the part of the file
    name before its first dot, or [video] when there is no file or that
    part is empty. *)
Theorem downloadName_shape (file : option string) :
  exists base,
    downloadName file = "modified_" ++ base ++ ".webm"
    /\ is_empty base = false
    /\ has_dot base = false
    /\ (base = "video"
        \/ exists name, file = Some name
             /\ (name = base \/ exists rest, name = base ++ String "." rest)).
Proof.
  unfold downloadName. destruct file as [name|]; cbn [option_map or_else].
  - destruct (split_head name) as [Hdot Hpre].
    destruct (hd EmptyString (split "." name)) as [|c stem] eqn:E.
    + exists "video". cbn. repeat split; auto.
    + exists (String c stem). cbn [is_empty]. repeat split; auto.
      right. exists name. split; [reflexivity | exact Hpre].
  - exists "video". cbn. repeat split; auto.
Qed.

(** ** Unwrapping a code fence *)






















(* ===================================================================== *)
(** * Further properties of the processor                                 *)
(* ===================================================================== *)

Lemma stop_if_recording_run (h : Hook) :
  stop_if_recording h = (tt, stopped h, stop_calls h).
Proof.
  unfold stop_if_recording, stopped, stop_calls, bind, gets, modify, emit, when.
  destruct (is_recording (mediaRecorderRef h)); reflexivity.
Qed.

Lemma cancel_frame_run (h : Hook) :
  cancel_frame h = (tt, setAnimationFrameId 0 h, cancel_calls h).
Proof.
  unfold cancel_frame, cancel_calls, bind, gets, modify, emit, when.
  destruct (animationFrameIdRef h =? 0)%Z; reflexivity.
Qed.

Lemma onended_run (h : Hook) :
  onended h
  = (tt, setAnimationFrameId 0 (stopped h),
     (stop_calls h ++ cancel_calls h)%list).
Proof.
  unfold onended, bind. rewrite stop_if_recording_run, cancel_frame_run.
  unfold cancel_calls, stopped.
  destruct (is_recording (mediaRecorderRef h)); reflexivity.
Qed.

Lemma count_app (p : Event -> bool) (t1 t2 : list Event) :
  count p (t1 ++ t2)%list = (count p t1 + count p t2)%nat.
Proof. unfold count. now rewrite filter_app, List.length_app. Qed.

Lemma teardown_stops (h : Hook) :
  count is_stop (teardown h)
  = if is_recording (mediaRecorderRef h) then 1%nat else 0%nat.
Proof.
  unfold teardown.
  destruct (animationFrameIdRef h =? 0)%Z, (is_recording (mediaRecorderRef h)),
    (is_some (sourceVideoRef h)), (audioContextRef h) as [[| |]|]; reflexivity.
Qed.

Lemma teardown_no_resolve (h : Hook) : existsb resolves (teardown h) = false.
Proof.
  unfold teardown.
  destruct (animationFrameIdRef h =? 0)%Z, (is_recording (mediaRecorderRef h)),
    (is_some (sourceVideoRef h)), (audioContextRef h) as [[| |]|]; reflexivity.
Qed.

Lemma cleaned_released (h : Hook) : released h (cleaned h).
Proof.
  unfold released, cleaned; cbn. repeat split.
  destruct (audioContextRef h) as [[| |]|]; auto.
Qed.

Lemma cleaned_stopped (h : Hook) : cleaned (stopped h) = cleaned h.
Proof. unfold stopped. now destruct (is_recording (mediaRecorderRef h)). Qed.

Lemma stopped_twice (h : Hook) : stop_calls (stopped h) = [].
Proof.
  unfold stopped, stop_calls.
  destruct (is_recording (mediaRecorderRef h)) eqn:E; [reflexivity|].
  now rewrite E.
Qed.

(** The state and the calls of the two handlers that stop the recorder
    themselves before they call [cleanup]. *)
Lemma stop_then_fail_run (err rejected : string) (h : Hook) :
  (emit (ConsoleError err) ;;
   modify (setProcessingError (Some err)) ;;
   modify (setIsProcessing false) ;;
   stop_if_recording ;;
   cleanup ;;
   emit (Reject rejected)) h
  = (tt, failed err h,
     (ConsoleError err
      :: stop_calls h
      ++ teardown (stopped (setIsProcessing false
                              (setProcessingError (Some err) h)))
      ++ [Reject rejected])%list).
Proof.
  unfold bind, modify, emit. rewrite stop_if_recording_run, cleanup_run.
  rewrite cleaned_stopped. reflexivity.
Qed.

Lemma fatal_state (f : Fatal) (h : Hook) :
  state_of (fatal f h) = failed (fatal_text f) h.
Proof.
  destruct f as [[n m|n m|]|m|m|m]; cbn [fatal fatal_text];
    unfold recorder_onerror, video_onerror, video_onerror_loading,
      play_rejected;
    try (unfold bind, emit; rewrite fail_run; reflexivity);
    rewrite stop_then_fail_run; reflexivity.
Qed.

Lemma fatal_trace (f : Fatal) (h : Hook) :
  exists middle,
    trace_of (fatal f h)
    = (ConsoleError (fatal_text f) :: middle ++ [Reject (fatal_reason f)])%list
    /\ existsb rejects middle = false
    /\ existsb resolves middle = false
    /\ count is_stop middle
       = if is_recording (mediaRecorderRef h) then 1%nat else 0%nat.
Proof.
  assert (forall err, is_recording
            (mediaRecorderRef (setIsProcessing false
                                 (setProcessingError (Some err) h)))
          = is_recording (mediaRecorderRef h)) as Hrec by reflexivity.
  destruct f as [[n m|n m|]|m|m|m]; cbn [fatal fatal_text fatal_reason];
    unfold recorder_onerror, video_onerror, video_onerror_loading,
      play_rejected;
    try (unfold bind, emit; rewrite fail_run; unfold failing;
         eexists; split; [reflexivity|];
         rewrite teardown_no_reject, teardown_no_resolve, teardown_stops;
         now rewrite Hrec);
    (rewrite stop_then_fail_run;
     match goal with
     | |- context [(stop_calls h ++ teardown ?x ++ _)%list] =>
         exists (stop_calls h ++ teardown x)%list
     end;
     split; [unfold trace_of; cbn [snd]; now rewrite <- app_assoc|];
     rewrite !existsb_app, count_app, teardown_no_reject, teardown_no_resolve,
       teardown_stops;
     unfold stop_calls, stopped; rewrite ?Hrec;
     destruct (is_recording (mediaRecorderRef h)); cbv iota; rewrite ?Hrec;
     repeat split; reflexivity).
Qed.

(** X12.  Each of the four fatal handlers (the recorder's error event,
    the element's error event before and after the metadata, and the
    rejection of [play]) leaves the hook released, not processing and with
    its error text set; progress and result are untouched.  It logs the
    text first and rejects last, rejects once and never resolves, and it
    stops the recorder exactly once if it was recording and not at all
    otherwise. *)
Theorem fatal_path_releases (f : Fatal) (h : Hook) :
  let r := fatal f h in
  released h (state_of r)
  /\ isProcessing (state_of r) = false
  /\ processingError (state_of r) = Some (fatal_text f)
  /\ progress (state_of r) = progress h
  /\ processedVideoUrl (state_of r) = processedVideoUrl h
  /\ exists middle,
      trace_of r
      = (ConsoleError (fatal_text f) :: middle
         ++ [Reject (fatal_reason f)])%list
      /\ existsb rejects middle = false
      /\ existsb resolves middle = false
      /\ count is_stop middle
         = if is_recording (mediaRecorderRef h) then 1%nat else 0%nat.
Proof.
  cbv zeta. rewrite fatal_state. repeat split; try reflexivity.
  - unfold failed. destruct (audioContextRef h) as [[| |]|] eqn:E; cbn;
      rewrite ?E; auto.
  - apply fatal_trace.
Qed.

(** ** Starting over *)





(** ** The stages of [processVideo] *)

Ltac teardown_cases h :=
  unfold teardown;
  destruct (animationFrameIdRef h =? 0)%Z, (is_recording (mediaRecorderRef h)),
    (is_some (sourceVideoRef h)), (audioContextRef h) as [[| |]|]; reflexivity.

Lemma teardown_no_stage (h : Hook) :
  existsb asks_audio (teardown h) = false
  /\ existsb loads (teardown h) = false
  /\ existsb captures (teardown h) = false
  /\ existsb constructs (teardown h) = false
  /\ existsb starts (teardown h) = false.
Proof. repeat split; teardown_cases h. Qed.

Lemma audio_trace_no_stage (env : HostEnv) (settings : VideoSettings) :
  existsb asks_audio (audio_trace env settings) = false
  /\ existsb loads (audio_trace env settings) = false
  /\ existsb captures (audio_trace env settings) = false
  /\ existsb constructs (audio_trace env settings) = false
  /\ existsb starts (audio_trace env settings) = false
  /\ existsb rejects (audio_trace env settings) = false.
Proof.
  unfold audio_trace.
  destruct (hasAudioTracks env || hasMozAudio env || hasWebkitAudio env),
    (audioGraph env); repeat split; reflexivity.
Qed.

Lemma failing_no_stage (err rejected : string) (h : Hook) :
  existsb asks_audio (failing err rejected h) = false
  /\ existsb loads (failing err rejected h) = false
  /\ existsb captures (failing err rejected h) = false
  /\ existsb constructs (failing err rejected h) = false
  /\ existsb starts (failing err rejected h) = false.
Proof.
  unfold failing. rewrite !existsb_app.
  destruct (teardown_no_stage
              (setIsProcessing false (setProcessingError (Some err) h)))
    as (-> & -> & -> & -> & ->).
  repeat split; reflexivity.
Qed.

Lemma failed_released (err : string) (before h : Hook) :
  (audioContextRef h = Some Closed -> audioContextRef before = Some Closed) ->
  released before (failed err h).
Proof.
  intros Hc. unfold released, failed, cleaned; cbn. repeat split.
  destruct (audioContextRef h) as [[| |]|]; auto.
Qed.

Ltac stage_facts :=
  rewrite ?existsb_app; cbn [existsb];
  repeat match goal with
         | H : existsb _ _ = _ |- _ => rewrite H
         end;
  cbn [asks_audio loads captures constructs starts rejects orb andb];
  try reflexivity.

Ltac failure_case closed :=
  split; [reflexivity|];
  split;
  [ intros err [= <-];
    split; [reflexivity|]; split; [reflexivity|];
    split;
    [ apply failed_released; closed
    | unfold failing; eexists; rewrite !app_assoc; split; [reflexivity|];
      rewrite !existsb_app, !teardown_no_reject; stage_facts ]
  |];
  split; [discriminate|]; repeat split; stage_facts.

(** X14.  [processVideo] passes four stages in order: the 2D context, the
    audio context, the recorder type, the recorder constructor.  It starts
    recording exactly when none fails.  When one fails, the error shown
    and the rejection are those of the first failing stage, the hook is
    released and no longer processing, and no later stage is attempted:
    the audio context is asked for only with a 2D context, the file is
    loaded and the canvas captured only with both contexts, the recorder
    is constructed only if its type is supported as well, and it is
    started only if its constructor returns. *)
Theorem processVideo_stages (env : HostEnv) (settings : VideoSettings)
        (h : Hook) :
  newAudioContext env <> Some Closed ->
  let r := processVideo env settings h in
  let t := trace_of r in
  value_of r = negb (is_some (first_failure env))
  /\ (forall err,
        first_failure env = Some err ->
        processingError (state_of r) = Some err
        /\ isProcessing (state_of r) = false
        /\ released h (state_of r)
        /\ exists before, t = (before ++ [Reject err])%list
                          /\ existsb rejects before = false)
  /\ (first_failure env = None -> existsb rejects t = false)
  /\ existsb asks_audio t = getContext env
  /\ existsb loads t = getContext env && is_some (newAudioContext env)
  /\ existsb captures t = getContext env && is_some (newAudioContext env)
  /\ existsb constructs t
     = getContext env && is_some (newAudioContext env)
       && isTypeSupported env mimeType
  /\ existsb starts t = negb (is_some (first_failure env)).
Proof.
  intros Hnew. cbv zeta. rewrite processVideo_run. cbv zeta.
  rewrite processVideo_start_run.
  destruct (teardown_no_stage (announced h)) as (T1 & T2 & T3 & T4 & T5).
  pose proof (teardown_no_reject (announced h)) as T6.
  unfold first_failure.
  destruct (getContext env); cbn [negb andb];
    [destruct (newAudioContext env) as [s|]; cbn [is_some andb]|].
  - rewrite !value_of_mk, !state_of_mk, !trace_of_mk.
    rewrite onloadedmetadata_run. cbv zeta.
    destruct (audio_trace_no_stage env settings)
      as (A1 & A2 & A3 & A4 & A5 & A6).
    destruct (isTypeSupported env mimeType); cbn [negb];
      [destruct (newMediaRecorder env) as [m|]|];
      rewrite !value_of_mk, ?state_of_mk, !trace_of_mk.
    + destruct (failing_no_stage (constructor_message m)
                  (constructor_message m)
                  (prepared env settings
                     (setAudioContext (Some s) (equipped h))))
        as (F1 & F2 & F3 & F4 & F5).
      failure_case ltac:(cbn; intros [= ->]; now contradiction Hnew).
    + split; [reflexivity|]. split; [discriminate|].
      repeat split; stage_facts.
    + destruct (failing_no_stage unsupported_message unsupported_message
                  (prepared env settings
                     (setAudioContext (Some s) (equipped h))))
        as (F1 & F2 & F3 & F4 & F5).
      failure_case ltac:(cbn; intros [= ->]; now contradiction Hnew).
  - rewrite !value_of_mk, ?state_of_mk, !trace_of_mk.
    destruct (failing_no_stage "AudioContext not supported."
                "AudioContext not supported." (equipped h))
      as (F1 & F2 & F3 & F4 & F5).
    failure_case ltac:(cbn; destruct (audioContextRef h) as [[| |]|];
                       auto; discriminate).
  - rewrite !value_of_mk, ?state_of_mk, !trace_of_mk.
    destruct (failing_no_stage "Could not get canvas context."
                "Could not get canvas context." (equipped h))
      as (F1 & F2 & F3 & F4 & F5).
    failure_case ltac:(cbn; destruct (audioContextRef h) as [[| |]|];
                       auto; discriminate).
Qed.

Lemma processVideo_stages_witness :
  newAudioContext no_webm <> Some Closed
  /\ value_of (processVideo no_webm overlay_settings initialHook)
     = negb (is_some (first_failure no_webm)).
Proof.
  assert (newAudioContext no_webm <> Some Closed) as H by discriminate.
  split; [exact H|].
  exact (proj1 (processVideo_stages no_webm overlay_settings initialHook H)).
Defined.

(** ** The last frame *)

Lemma drawFrame_idle (settings : VideoSettings) (fe : FrameEnv) (h : Hook) :
  idle h -> drawFrame settings fe h = onended h.
Proof.
  intros Hidle.
  destruct (drawFrame_cases settings fe h) as [(v & c & Ev & Ec & Hp)|E];
    [|exact E].
  unfold idle in Hidle. rewrite Ev, Ec in Hidle. destruct Hp as [Hp He].
  rewrite Hp, He in Hidle. discriminate.
Qed.

(** X15.  A frame that finds the source paused, ended or gone draws
    nothing and schedules no further frame: it stops the recorder if it is
    recording, cancels the pending frame if there is one, and leaves
    progress, angles, chunks and audio as they are.  A second such frame
    makes no call at all. *)
Theorem idle_frame_ends_the_loop (settings : VideoSettings) (fe : FrameEnv)
        (h : Hook) :
  idle h ->
  let r := drawFrame settings fe h in
  trace_of r = (stop_calls h ++ cancel_calls h)%list
  /\ existsb draws_or_schedules (trace_of r) = false
  /\ animationFrameIdRef (state_of r) = 0%Z
  /\ is_recording (mediaRecorderRef (state_of r)) = false
  /\ progress (state_of r) = progress h
  /\ rotationAngle1Ref (state_of r) = rotationAngle1Ref h
  /\ rotationAngle2Ref (state_of r) = rotationAngle2Ref h
  /\ recordedChunksRef (state_of r) = recordedChunksRef h
  /\ audioContextRef (state_of r) = audioContextRef h
  /\ idle (state_of r)
  /\ trace_of (drawFrame settings fe (state_of r)) = [].
Proof.
  intros Hidle. cbv zeta.
  assert (idle (setAnimationFrameId 0 (stopped h))) as Hidle'.
  { unfold idle, stopped in *.
    destruct (is_recording (mediaRecorderRef h)); exact Hidle. }
  rewrite (drawFrame_idle _ _ _ Hidle), onended_run.
  rewrite state_of_mk, trace_of_mk.
  rewrite (drawFrame_idle _ _ _ Hidle'), onended_run, trace_of_mk.
  unfold stop_calls, cancel_calls, stopped.
  destruct (is_recording (mediaRecorderRef h)) eqn:E;
    destruct (animationFrameIdRef h =? 0)%Z; cbn; rewrite ?E;
    repeat split; auto.
Qed.

Lemma idle_frame_ends_the_loop_witness :
  let h := state_of (host_video (mkVideo false true 10 (Some 10) 1 true true)
                                recording_hook) in
  trace_of (drawFrame overlay_settings thirds h)
  = (stop_calls h ++ cancel_calls h)%list.
Proof.
  intros h.
  apply (idle_frame_ends_the_loop overlay_settings thirds h).
  reflexivity.
Defined.

(** ** Chunks *)

Lemma ondataavailable_run (data : Blob) (h : Hook) :
  ondataavailable data h
  = (tt,
     (if (0 <? blob_size data)%Z
      then setRecordedChunks (recordedChunksRef h ++ [data])%list h else h),
     []).
Proof.
  unfold ondataavailable, when, modify, ret.
  destruct (0 <? blob_size data)%Z; reflexivity.
Qed.

Lemma setRecordedChunks_same (h : Hook) :
  setRecordedChunks (recordedChunksRef h) h = h.
Proof. now destruct h. Qed.

Lemma deliver_run (chunks : list Blob) :
  forall h,
    deliver chunks h
    = (tt, setRecordedChunks (recordedChunksRef h ++ kept chunks)%list h, []).
Proof.
  induction chunks as [|data rest IH]; intros h; cbn [deliver kept filter].
  - unfold ret. now rewrite app_nil_r, setRecordedChunks_same.
  - unfold bind. rewrite ondataavailable_run, IH.
    destruct (0 <? blob_size data)%Z; cbn [List.app]; [|reflexivity].
    cbn. now rewrite <- app_assoc.
Qed.

Lemma onstop_run (type url : string) (h : Hook) :
  onstop type url h
  = (tt,
     setAnimationFrameId 0
       (setMediaRecorder None
          (setProgress 100
             (setIsProcessing false (setProcessedVideoUrl (Some url) h)))),
     (NewBlob (recordedChunksRef h) type :: Resolve url :: cancel_calls h)%list).
Proof.
  unfold onstop, bind, gets, emit, modify. rewrite cancel_frame_run.
  reflexivity.
Qed.

(** X16.  The chunk buffer holds the chunks of positive size in the
    order of their arrival, an empty chunk is dropped, and delivering
    chunks touches no other cell and makes no host call.  The blob that
    [onstop] builds is made of exactly the chunks kept since recording
    started, and its URL becomes the result. *)
Theorem blob_of_kept_chunks (chunks : list Blob) (type url : string)
        (h : Hook) :
  let h1 := state_of (deliver chunks h) in
  h1 = setRecordedChunks (recordedChunksRef h ++ kept chunks)%list h
  /\ trace_of (deliver chunks h) = []
  /\ Forall (fun data => (0 < blob_size data)%Z) (kept chunks)
  /\ (forall data, In data (kept chunks)
                   <-> In data chunks /\ (0 < blob_size data)%Z)
  /\ hd_error (trace_of (onstop type url h1))
     = Some (NewBlob (recordedChunksRef h ++ kept chunks)%list type)
  /\ processedVideoUrl (state_of (onstop type url h1)) = Some url.
Proof.
  cbv zeta. rewrite deliver_run, state_of_mk, trace_of_mk.
  split; [reflexivity|]. split; [reflexivity|]. split; [|split].
  - apply Forall_forall. intros data Hin. apply filter_In in Hin.
    now apply Z.ltb_lt.
  - intros data. unfold kept. rewrite filter_In, Z.ltb_lt. tauto.
  - rewrite onstop_run. split; reflexivity.
Qed.

(** ** What every reachable state satisfies *)

Lemma frame_state (settings : VideoSettings) (input : Video * FrameEnv)
      (h : Hook) :
  let h1 := setSourceVideo (option_map (fun _ => fst input) (sourceVideoRef h))
                           h in
  state_of (frame settings input h)
  = setAnimationFrameId (rafId (snd input))
      (report_state (fst input) (rotate_state settings h1))
  \/ state_of (frame settings input h) = setAnimationFrameId 0 (stopped h1).
Proof.
  cbv zeta. unfold frame, host_video. rewrite bind_state, modify_state.
  set (h1 := setSourceVideo _ h).
  destruct (drawFrame_cases settings (snd input) h1)
    as [(v & c & Ev & Ec & Hp)|E].
  - left. rewrite (drawFrame_playing _ _ _ _ _ Ev Ec Hp), state_of_mk.
    assert (v = fst input) as ->; [|reflexivity].
    subst h1. cbn in Ev. destruct (sourceVideoRef h); cbn in Ev; congruence.
  - right. now rewrite E, onended_run.
Qed.

Lemma frame_progress_le (position total : Q) :
  (frame_progress position total <= 100)%Z.
Proof. unfold frame_progress. apply Z.le_min_l. Qed.

Lemma settled_cleaned (h : Hook) : settled h -> settled (cleaned h).
Proof.
  unfold settled, cleaned; cbn. intros (_ & H2 & H3 & H4).
  repeat split; auto.
Qed.

Lemma settled_failed (err : string) (h : Hook) :
  (progress h <= 100)%Z -> settled (failed err h).
Proof. unfold settled, failed, cleaned; cbn. repeat split; auto. Qed.

Lemma step_settled (h h' : Hook) : step h h' -> settled h -> settled h'.
Proof.
  intros Hstep Hs. pose proof Hs as (H1 & H2 & H3 & H4).
  destruct Hstep.
  - rewrite processVideo_start_run.
    destruct (getContext env); [destruct (newAudioContext env) as [s|]|];
      rewrite state_of_mk; try (apply settled_failed; cbn; lia).
    unfold settled; cbn. repeat split; auto; try lia; congruence.
  - rewrite onloadedmetadata_run. cbv zeta.
    destruct (isTypeSupported env mimeType);
      [destruct (newMediaRecorder env)|]; rewrite state_of_mk;
      try (apply settled_failed; exact H2).
    unfold settled; cbn. repeat split; auto.
  - change (video_onerror_loading message) with (fatal (LoadingFails message)).
    rewrite fatal_state. now apply settled_failed.
  - unfold onplay, bind, gets, modify, emit, when.
    destruct (audioContextRef h) as [[| |]|]; exact Hs.
  - destruct (frame_state settings input h) as [-> | ->].
    + unfold settled, report_state, rotate_state; cbn.
      destruct (duration (fst input)) as [total|];
        [destruct (Qle_bool total 0)|];
        destruct (enableRotatingLines settings); cbn;
        repeat split; auto; apply frame_progress_le.
    + unfold settled, stopped; cbn.
      destruct (is_recording (mediaRecorderRef h)); cbn; repeat split; auto.
  - rewrite ondataavailable_run, state_of_mk.
    destruct (0 <? blob_size data)%Z eqn:E; [|exact Hs].
    unfold settled; cbn. repeat split; auto.
    apply Forall_app. split; [exact H1|].
    constructor; [now apply Z.ltb_lt | constructor].
  - rewrite onended_run, state_of_mk. unfold settled, stopped; cbn.
    destruct (is_recording (mediaRecorderRef h)); cbn; repeat split; auto.
  - rewrite onstop_run, state_of_mk. unfold settled; cbn.
    repeat split; auto; lia.
  - change (recorder_onerror e) with (fatal (RecorderFails e)).
    rewrite fatal_state. now apply settled_failed.
  - change (video_onerror message) with (fatal (PlaybackFails message)).
    rewrite fatal_state. now apply settled_failed.
  - change (play_rejected message) with (fatal (PlayRejected message)).
    rewrite fatal_state. now apply settled_failed.
  - rewrite cleanup_run, state_of_mk. now apply settled_cleaned.
  - unfold host_audio, modify. cbn. exact Hs.
Qed.

(** X17.  In every state that the callbacks of the hook reach, in
    whatever order the host fires them, the chunk buffer holds no empty
    chunk, progress does not exceed 100, and the hook is not processing
    while it shows an error or a result. *)
Theorem reachable_settled (h : Hook) : reachable h -> settled h.
Proof.
  induction 1 as [|h h' _ IH Hstep].
  - unfold settled, initialHook; cbn. repeat split; auto; try lia;
      intros H; now contradiction H.
  - exact (step_settled h h' Hstep IH).
Qed.

Lemma reachable_settled_witness : settled recording_hook.
Proof.
  apply (reachable_settled recording_hook). exact recording_hook_reachable.
Defined.

(** X18.  The stop event of a recorder that a fatal handler stopped still
    runs [onstop]: the chunks recorded before the failure are gone, so the
    blob holds at most the final chunk; its URL is stored as the result
    and progress is set to 100 while the error text stays, and [resolve]
    is called after [reject]. *)
Theorem stop_event_after_failure (f : Fatal) (final : Blob)
        (type url : string) (h : Hook) :
  let h1 := state_of (fatal f h) in
  let h2 := state_of (ondataavailable final h1) in
  let r := onstop type url h2 in
  recordedChunksRef h1 = []
  /\ trace_of r = [NewBlob (kept [final]) type; Resolve url]
  /\ processedVideoUrl (state_of r) = Some url
  /\ progress (state_of r) = 100%Z
  /\ processingError (state_of r) = Some (fatal_text f)
  /\ isProcessing (state_of r) = false.
Proof.
  cbv zeta. rewrite fatal_state, ondataavailable_run, state_of_mk, onstop_run.
  rewrite state_of_mk, trace_of_mk. unfold kept. cbn [filter].
  destruct (0 <? blob_size final)%Z; repeat split; reflexivity.
Qed.

(** ** One turn of the overlay *)





(** ** The number of noise marks *)

Lemma numNoisePixels_div (c : Canvas) :
  numNoisePixels c = (width c * height c / 1000)%Z.
Proof.
  unfold numNoisePixels, Math_floor, Qfloor, Qmult, inject_Z.
  cbn [Qnum Qden]. now rewrite Z.mul_1_r.
Qed.

Lemma flat_map_marks_length (ms : list NoiseMark) :
  List.length (flat_map mark_cmds ms) = (2 * List.length ms)%nat.
Proof. induction ms as [|m rest IH]; [reflexivity|]. cbn. rewrite IH. lia. Qed.

Lemma frame_fills_off (settings : VideoSettings) (fe : FrameEnv) (c : Canvas)
      (a1 a2 : Q) :
  enablePixelNoise settings = false ->
  fill_rects (map Draw (frame_draws settings fe c a1 a2)
              ++ [RequestAnimationFrame (rafId fe)])%list = [].
Proof.
  intros Hoff. unfold frame_draws. rewrite Hoff.
  destruct (flipHorizontal settings), (enableRotatingLines settings);
    reflexivity.
Qed.

(** X20.  The number of noise marks of a frame is the integer quotient
    of the pixel count of the canvas by 1000: a playing frame fills that
    many rectangles when pixel noise is on, whatever the random draws and
    the other settings, and none when it is off; a canvas of fewer than
    1000 pixels gets no mark. *)
Theorem noise_mark_count (settings : VideoSettings) (v : Video)
        (fe : FrameEnv) (h : Hook) (c : Canvas) :
  sourceVideoRef h <> None ->
  canvasRef h = Some c ->
  playing v ->
  let t := trace_of (frame settings (v, fe) h) in
  let n := (width c * height c / 1000)%Z in
  numNoisePixels c = n
  /\ List.length (fill_rects t)
     = (if enablePixelNoise settings then Z.to_nat n else 0%nat)
  /\ ((width c * height c < 1000)%Z -> fill_rects t = []).
Proof.
  intros Hv Hc Hp. cbv zeta.
  assert (live h) as Hlive by (split; [exact Hv | congruence]).
  destruct (frame_playing settings v fe h Hlive Hp) as [_ (c' & Hc' & ->)].
  assert (c' = c) as -> by congruence.
  split; [apply numNoisePixels_div|].
  destruct (enablePixelNoise settings) eqn:Hn.
  - destruct (frame_fills settings fe c
                (rotationAngle1Ref (rotate_state settings h))
                (rotationAngle2Ref (rotate_state settings h)) Hn) as [-> _].
    unfold noise_marks. rewrite !length_map, length_seq, numNoisePixels_div.
    split; [reflexivity|]. intros Hsmall.
    assert ((width c * height c / 1000 <= 0)%Z) as Hle.
    { destruct (Z_lt_le_dec (width c * height c) 0) as [Hneg|Hpos].
      - assert ((width c * height c / 1000 < 0)%Z)
          by (apply Z.div_lt_upper_bound; lia). lia.
      - rewrite Z.div_small; lia. }
    destruct (width c * height c / 1000)%Z; try lia; reflexivity.
  - rewrite (frame_fills_off settings fe c _ _ Hn). split; reflexivity.
Qed.

Lemma noise_mark_count_witness :
  let t := trace_of (frame overlay_settings (playing_at 4 10, thirds)
                           recording_hook) in
  numNoisePixels (mkCanvas 1000 1000) = (1000 * 1000 / 1000)%Z
  /\ List.length (fill_rects t)
     = (if enablePixelNoise overlay_settings
        then Z.to_nat (1000 * 1000 / 1000) else 0%nat)
  /\ ((1000 * 1000 < 1000)%Z -> fill_rects t = []).
Proof.
  apply (noise_mark_count overlay_settings (playing_at 4 10) thirds
                          recording_hook (mkCanvas 1000 1000)).
  - discriminate.
  - reflexivity.
  - split; reflexivity.
Defined.

(** ** The preview and the export *)

Lemma flat_map_none {A B : Type} (f : A -> list B) (l : list A) :
  (forall x, In x l -> f x = []) -> flat_map f l = [].
Proof.
  induction l as [|x rest IH]; intros H; [reflexivity|].
  cbn. rewrite (H x (or_introl eq_refl)), IH; [reflexivity|].
  intros y Hy. apply H. now right.
Qed.









(** X22.  With settings in their documented ranges, the volume that the
    preview assigns and the gain of the export lie between 0 and 1, and
    the playback rate that both assign lies between 0.5 and 2. *)
Theorem preview_within_limits (settings : VideoSettings) (mounted : bool)
        (src : option string) (isOriginal : bool) (el : Preview) :
  in_ranges settings ->
  0 <= preview_volume el <= 1 ->
  0.5 <= preview_playbackRate el <= 2 ->
  let p := VideoPlayer_effect mounted src settings isOriginal el in
  0 <= preview_volume p <= 1
  /\ 0.5 <= preview_playbackRate p <= 2
  /\ 0 <= volume settings / 100 <= 1.
Proof.
  intros (_ & _ & _ & Hrate & Hvol) Hel1 Hel2. cbv zeta.
  assert (0 <= volume settings / 100 <= 1) as Hgain.
  { unfold Qdiv. change (/ 100) with (1 # 100).
    destruct Hvol as [V1 V2]. split.
    - apply Qmult_le_0_compat; [exact V1 | discriminate].
    - setoid_replace 1 with (100 * (1 # 100)) by reflexivity.
      apply Qmult_le_compat_r; [exact V2 | discriminate]. }
  unfold VideoPlayer_effect.
  destruct (mounted && _); [destruct isOriginal|];
    cbn [preview_volume preview_playbackRate];
    repeat split; try tauto; try lra; try discriminate.
Qed.

Lemma preview_within_limits_witness :
  let p := VideoPlayer_effect true (Some "blob:clip") overlay_settings false
             (mkPreview FilterNone TransformNone 1 1) in
  0 <= preview_volume p <= 1
  /\ 0.5 <= preview_playbackRate p <= 2
  /\ 0 <= volume overlay_settings / 100 <= 1.
Proof.
  apply (preview_within_limits overlay_settings true (Some "blob:clip") false
           (mkPreview FilterNone TransformNone 1 1)).
  - unfold in_ranges, overlay_settings; cbn. lra.
  - cbn. lra.
  - cbn. lra.
Defined.

(** ** What is disabled while the application is busy *)

(** X23.  The buttons guard the handlers.  The suggest button is enabled
    only when a click sends a request (given an AI client), and the
    process button only when a file is selected and nothing is in flight.
    Once a suggestion is requested or a render has started, the settings
    controls, the suggest button, the process button and the uploader are
    all disabled; when the suggestion settles, whatever its outcome, the
    controls are disabled only for lack of a file or for a render. *)
Theorem busy_disables_controls (parse : string -> Completion json)
        (s : System) :
  (suggest_disabled s = false ->
   snd (handleSuggestSettings_request true (app s)) = true
   /\ let s' := suggestion_starts true s in
      controlsDisabled s' = true /\ suggest_disabled s' = true
      /\ process_disabled s' = true /\ upload_disabled s' = true
      /\ currentSettings (app s') = currentSettings (app s))
  /\ (process_disabled s = false ->
      handleProcessVideo s <> None
      /\ isProcessing (processor s) = false
      /\ isSuggestingSettings (app s) = false)
  /\ (forall env settings,
         value_of (processVideo env settings (processor s)) = true ->
         let s' := render_starts env settings s in
         controlsDisabled s' = true /\ suggest_disabled s' = true
         /\ process_disabled s' = true /\ upload_disabled s' = true)
  /\ (forall r,
         let s' := suggestion_settles parse r s in
         controlsDisabled s'
         = negb (is_some (videoFile (app s))) || isProcessing (processor s)).
Proof.
  split; [|split; [|split]].
  - unfold suggest_disabled, commonDisabledState, process_disabled,
      upload_disabled, controlsDisabled, suggestion_starts,
      handleSuggestSettings_request.
    intros H. apply orb_false_iff in H. destruct H as [_ H].
    rewrite H. cbn. rewrite !orb_true_r. repeat split.
  - unfold process_disabled, controlsDisabled, handleProcessVideo.
    destruct (videoFile (app s)); cbn; [|discriminate].
    destruct (isProcessing (processor s)); cbn; [discriminate|].
    destruct (isSuggestingSettings (app s)); cbn; [discriminate|].
    intros _. repeat split. discriminate.
  - intros env settings Hok.
    destruct (processVideo_started env settings (processor s) Hok)
      as (_ & _ & _ & _ & _ & Hp & _).
    cbv zeta in *.
    unfold suggest_disabled, commonDisabledState, process_disabled,
      upload_disabled, controlsDisabled, render_starts.
    cbn [app processor]. rewrite Hp. rewrite !orb_true_r. cbn.
    repeat split.
  - intros r. cbv zeta.
    unfold controlsDisabled, suggestion_settles,
      handleSuggestSettings_response.
    cbn [app processor].
    destruct (suggestion_try parse r) as [[o [|]]|m]; cbn;
      now rewrite orb_false_r.
Qed.

Lemma busy_disables_controls_witness :
  let s := mkSystem (mkAppState (Some "clip.mp4") DEFAULT_VIDEO_SETTINGS
                                "warmer" false None) initialHook in
  suggest_disabled s = false
  /\ snd (handleSuggestSettings_request true (app s)) = true.
Proof.
  intros s.
  assert (suggest_disabled s = false) as H by reflexivity.
  split; [exact H|].
  exact (proj1 (proj1 (busy_disables_controls (fun _ => Normal JNull) s) H)).
Defined.

(** ** What a frame paints, and in which drawing state *)







(** ** A session from start to result *)

Lemma frames_trace_cons (settings : VideoSettings) (input : Video * FrameEnv)
      (rest : list (Video * FrameEnv)) (h : Hook) :
  trace_of (frames settings (input :: rest) h)
  = (trace_of (frame settings input h)
     ++ trace_of (frames settings rest (state_of (frame settings input h))))%list.
Proof.
  cbn [frames]. unfold bind, state_of, trace_of.
  destruct (frame settings input h) as [[u h1] t1]; cbn [fst snd].
  destruct (frames settings rest h1) as [[u2 h2] t2]; reflexivity.
Qed.

Lemma frame_keeps (settings : VideoSettings) (v : Video) (fe : FrameEnv)
      (h : Hook) :
  live h -> playing v ->
  let r := frame settings (v, fe) h in
  live (state_of r)
  /\ session_cells (state_of r) = session_cells h
  /\ forallb draws_or_schedules (trace_of r) = true.
Proof.
  intros Hlive Hp. cbv zeta.
  destruct (frame_playing settings v fe h Hlive Hp) as [-> (c & Hc & ->)].
  split; [|split].
  - destruct Hlive as [_ Hcanvas]. unfold live, report_state, rotate_state.
    destruct (duration v) as [total|]; [destruct (Qle_bool total 0)|];
      destruct (enableRotatingLines settings); cbn; split;
      try discriminate; exact Hcanvas.
  - unfold session_cells, report_state, rotate_state.
    destruct (duration v) as [total|]; [destruct (Qle_bool total 0)|];
      destruct (enableRotatingLines settings); reflexivity.
  - rewrite forallb_app. cbn. rewrite andb_true_r.
    apply forallb_forall. intros e He. apply in_map_iff in He.
    destruct He as (cmd & <- & _). reflexivity.
Qed.

Lemma frames_keep (settings : VideoSettings)
      (inputs : list (Video * FrameEnv)) :
  Forall (fun input => playing (fst input)) inputs ->
  forall h,
    live h ->
    let r := frames settings inputs h in
    live (state_of r)
    /\ session_cells (state_of r) = session_cells h
    /\ forallb draws_or_schedules (trace_of r) = true.
Proof.
  induction 1 as [|[v fe] rest Hp _ IH]; intros h Hlive.
  - cbn. auto.
  - cbv zeta. rewrite frames_cons, frames_trace_cons.
    destruct (frame_keeps settings v fe h Hlive Hp) as (L1 & K1 & T1).
    destruct (IH _ L1) as (L2 & K2 & T2).
    split; [exact L2|]. split; [congruence|].
    now rewrite forallb_app, T1, T2.
Qed.

(** X25.  A session that nothing interrupts: once [processVideo] has
    started recording, the frames of playback make calls on the 2D context
    and on [requestAnimationFrame] only; [onended] stops the recorder;
    [onstop] builds the blob from exactly the non-empty chunks the recorder
    delivered, in order, stores its URL as the result with progress 100
    and no error, and resolves.  The element, the canvas and the audio
    context stay in their cells, so the audio context is still open, until
    the next [processVideo] or the unmount runs [cleanup], which then
    releases them. *)
Theorem session_runs_to_result (env : HostEnv) (settings : VideoSettings)
        (h0 : Hook) (id : Z) (inputs : list (Video * FrameEnv))
        (chunks last : list Blob) (type url : string) :
  value_of (processVideo env settings h0) = true ->
  Forall (fun input => playing (fst input)) inputs ->
  let h1 := state_of (processVideo env settings h0) in
  let h2 := state_of (onplay id h1) in
  let playback := frames settings inputs h2 in
  let h3 := state_of (deliver chunks (state_of playback)) in
  let ending := onended h3 in
  let h4 := state_of (deliver last (state_of ending)) in
  let finish := onstop type url h4 in
  forallb draws_or_schedules (trace_of playback) = true
  /\ count is_stop (trace_of ending) = 1%nat
  /\ hd_error (trace_of finish) = Some (NewBlob (kept (chunks ++ last)) type)
  /\ In (Resolve url) (trace_of finish)
  /\ processedVideoUrl (state_of finish) = Some url
  /\ progress (state_of finish) = 100%Z
  /\ isProcessing (state_of finish) = false
  /\ processingError (state_of finish) = None
  /\ mediaRecorderRef (state_of finish) = None
  /\ live (state_of finish)
  /\ audioContextRef (state_of finish) = newAudioContext env
  /\ released (state_of finish) (state_of (cleanup (state_of finish))).
Proof.
  intros Hok Hplay. cbv zeta.
  destruct (processVideo_started env settings h0 Hok)
    as (Hlive & _ & _ & _ & Hrec & Hproc & Herr & Hurl & Hcanvas).
  cbv zeta in *.
  set (h1 := state_of (processVideo env settings h0)) in *.
  assert (audioContextRef h1 = newAudioContext env
          /\ recordedChunksRef h1 = []) as [Haudio Hchunks].
  { subst h1. revert Hok. rewrite processVideo_run. cbv zeta.
    rewrite processVideo_start_run.
    destruct (getContext env); [destruct (newAudioContext env) as [s|]|];
      rewrite !value_of_mk, ?state_of_mk; try discriminate.
    rewrite onloadedmetadata_run. cbv zeta.
    destruct (isTypeSupported env mimeType);
      [destruct (newMediaRecorder env)|];
      rewrite !value_of_mk, ?state_of_mk; try discriminate.
    intros _. split; reflexivity. }
  set (h2 := state_of (onplay id h1)).
  assert (live h2 /\ session_cells h2 = session_cells h1) as [Hlive2 Hcells2].
  { subst h2. unfold onplay, bind, gets, modify, emit, when.
    destruct (audioContextRef h1) as [[| |]|] eqn:E;
      (split; [exact Hlive | unfold session_cells; cbn; now rewrite E]). }
  destruct (frames_keep settings inputs Hplay h2 Hlive2) as (L3 & K3 & T3).
  set (h3 := state_of (frames settings inputs h2)) in *.
  rewrite Hcells2 in K3. unfold session_cells in K3.
  injection K3 as P1 P2 P3 P4 P5 P6 P7.
  rewrite Hproc in P1. rewrite Hurl in P2. rewrite Herr in P3.
  rewrite Hrec in P5. rewrite Hchunks in P6. rewrite Haudio in P7.
  split; [exact T3|].
  rewrite !deliver_run, !state_of_mk, !onended_run, !state_of_mk, !trace_of_mk.
  rewrite !onstop_run, !state_of_mk, !trace_of_mk.
  set (h4 := setRecordedChunks (recordedChunksRef h3 ++ kept chunks)%list h3).
  assert (stop_calls h4 = [RecorderStop]) as ->
      by (unfold stop_calls, h4; cbn; now rewrite P5).
  assert (stopped h4 = setMediaRecorder (Some Inactive) h4) as ->
      by (unfold stopped, h4; cbn; now rewrite P5).
  destruct L3 as [Lv Lc].
  split.
  { rewrite count_app. unfold cancel_calls.
    destruct (animationFrameIdRef h4 =? 0)%Z; reflexivity. }
  split.
  { cbn. rewrite P6. cbn [List.app]. unfold kept. now rewrite filter_app. }
  split; [cbn; auto|].
  split; [reflexivity|]. split; [reflexivity|]. split; [reflexivity|].
  split; [exact P3|]. split; [reflexivity|].
  split; [split; [exact Lv | exact Lc]|].
  split; [exact P7|].
  rewrite cleanup_run, state_of_mk. apply cleaned_released.
Qed.

Lemma session_runs_to_result_witness :
  let chunks := [mkBlob 512 0; mkBlob 0 1] in
  let last := [mkBlob 64 2] in
  let h1 := state_of (processVideo studio overlay_settings initialHook) in
  let h2 := state_of (onplay 7 h1) in
  let playback := frames overlay_settings two_frames h2 in
  let h3 := state_of (deliver chunks (state_of playback)) in
  let h4 := state_of (deliver last (state_of (onended h3))) in
  hd_error (trace_of (onstop mimeType "blob:result" h4))
  = Some (NewBlob (kept (chunks ++ last)) mimeType).
Proof.
  intros chunks last h1 h2 playback h3 h4.
  assert (Forall (fun input : Video * FrameEnv => playing (fst input))
                 two_frames) as Hplay
      by (repeat constructor).
  exact (proj1 (proj2 (proj2
           (session_runs_to_result studio overlay_settings initialHook 7
              two_frames chunks last mimeType "blob:result" eq_refl Hplay)))).
Defined.
